(** * PredictionMarkets: the double-auction model of [prediction/model.py]

    A shallow embedding of the market model and of its agents, and the
    properties of the order book, of the quote policy and of the market
    step that follow from the code.

    Conventions of the embedding.
    - A Python float is the rational number it stands for ([Q]).  A sum
      or a difference of two floats is the exact one rounded to the nearest
      double, ties to even ([f64], [+.] and [-.]), and a literal is the
      double nearest to it: [f64 0.01] for [0.01]; [0.] and [1.] are doubles
      as they stand.  Comparisons of floats are exact.  No number of this
      program comes near the largest double, so that infinities are left
      out, and so is the sign of zero, which no comparison sees.
      [np.nan] is [None] in [price]; every comparison with it is false.
    - An [OrderedDict] is an association list in insertion order; the last
      pair of the list is the one [popitem()] removes.
    - A raised exception ([KeyError] of [popitem()] on an empty dict, or
      of a lookup of an agent the schedule does not hold) is [None] in the
      [option] monad.
    - The random draws are inputs: the beliefs drawn in
      [PredictionMarketModel.__init__] are a list of rationals, the shuffle
      of [RandomActivation.step] is the visiting order given to [step].
    - Agents are objects shared between the schedule and the running
      method: a method takes [self] and the model, returns both, and the
      scheduler stores the agent back under its [unique_id]. *)

From Stdlib Require Import List Arith ZArith QArith Qround Qabs Qminmax Qpower
  Lia Lqa Bool Permutation Sorted.
Import ListNotations.

Local Open Scope Q_scope.

(** ** Comparisons and the option monad *)

Definition price := option Q.

Definition nan : price := None.

Definition Qlt_bool (x y : Q) : bool := negb (Qle_bool y x).

(** [a <= b] where [a] may be [np.nan]. *)
Definition price_le (a : price) (b : Q) : bool :=
  match a with
  | Some x => Qle_bool x b
  | None => false
  end.

(** [a >= b] where [a] may be [np.nan]. *)
Definition price_ge (a : price) (b : Q) : bool :=
  match a with
  | Some x => Qle_bool b x
  | None => false
  end.

Definition bind {A B : Type} (c : option A) (k : A -> option B) : option B :=
  match c with
  | Some x => k x
  | None => None
  end.

Notation "x <- c ;; k" := (bind c (fun x => k))
  (at level 61, c at next level, right associativity).
Notation "' pat <- c ;; k" := (bind c (fun x => match x with pat => k end))
  (at level 61, pat pattern, c at next level, right associativity).

(** ** Binary64 numbers *)

(** [round(x)] to the nearest integer, ties to the even one. *)
Definition round_half_even (x : Q) : Z :=
  let f := Qfloor x in
  match Qcompare (x - inject_Z f) (1 # 2) with
  | Lt => f
  | Gt => (f + 1)%Z
  | Eq => if Z.even f then f else (f + 1)%Z
  end.

(** The binade of [x > 0]: the [e] with [2^e <= x < 2^(e+1)]. *)
Definition ilog2 (x : Q) : Z :=
  let k := (Z.log2 (Qnum x) - Z.log2 (Zpos (Qden x)))%Z in
  if Qle_bool (2 ^ k) x then k else (k - 1)%Z.

(** The distance between the doubles around [x > 0]: a double has 53
    significant bits, and below [2^-1022] the doubles are [2^-1074]
    apart. *)
Definition ulp (x : Q) : Q := 2 ^ (Z.max (ilog2 x) (-1022) - 52).

Definition nearest (x : Q) : Q :=
  inject_Z (round_half_even (x / ulp x)) * ulp x.

(** The double nearest to [x], ties to even, as a fraction in lowest
    terms. *)
Definition f64 (x : Q) : Q :=
  let x := Qred x in
  match Qnum x with
  | Z0 => 0
  | Zpos _ => Qred (nearest x)
  | Zneg _ => Qred (- nearest (- x))
  end.

(** [a + b] and [a - b] on floats. *)
Notation "a +. b" := (f64 (a + b)) (at level 50, left associativity).
Notation "a -. b" := (f64 (a - b)) (at level 50, left associativity).

(** Half the distance between the doubles from 1 to 2: no number between
    -2 and 2 is further from its double. *)
Definition eps : Q := 1 # 9007199254740992.

(** ** OrderedDict *)

Definition OrderedDict := list (nat * Q).

Definition keys (d : OrderedDict) : list nat := map fst d.

(** [d[k] = v]: an existing key keeps its position, a new key goes last. *)
Fixpoint setitem (k : nat) (v : Q) (d : OrderedDict) : OrderedDict :=
  match d with
  | [] => [(k, v)]
  | (k', v') :: d' =>
      if Nat.eqb k' k then (k', v) :: d' else (k', v') :: setitem k v d'
  end.

(** [d.popitem()]: removes and returns the last pair; [KeyError] when empty. *)
Definition popitem (d : OrderedDict) : option ((nat * Q) * OrderedDict) :=
  match rev d with
  | [] => None
  | kv :: r => Some (kv, rev r)
  end.

(** [sorted(d.items(), key=itemgetter(1), reverse=...)] is stable in both
    directions: pairs of equal price keep their order.  [before y x] holds
    when the price [y] has to come strictly before the price [x]. *)
Fixpoint insert_by (before : Q -> Q -> bool) (x : nat * Q) (l : OrderedDict)
  : OrderedDict :=
  match l with
  | [] => [x]
  | y :: l' =>
      if before (snd y) (snd x) then y :: insert_by before x l' else x :: l
  end.

Fixpoint sorted_by (before : Q -> Q -> bool) (l : OrderedDict) : OrderedDict :=
  match l with
  | [] => []
  | x :: l' => insert_by before x (sorted_by before l')
  end.

(** [x] may stand in front of [y] in a dict sorted with [before]. *)
Definition in_order (before : Q -> Q -> bool) (x y : nat * Q) : Prop :=
  before (snd y) (snd x) = false.

(** [reverse=False]: ascending. *)
Definition ascending : Q -> Q -> bool := Qlt_bool.

(** [reverse=True]: descending. *)
Definition descending : Q -> Q -> bool := fun y x => Qlt_bool x y.

(** ** The model and its agents *)

Record PredictionAgent := mkAgent {
  unique_id : nat;
  prob : Q;
  bid : Q;
  ask : Q
}.

(** One row of the data collector: the three model reporters and, for the
    agent reporters, the agents as they are when the row is collected. *)
Record Report := mkReport {
  bid_price : price;
  ask_price : price;
  rep_volume : nat;
  agent_vars : list PredictionAgent
}.

Record PredictionMarketModel := mkModel {
  num_agents : nat;
  schedule : list PredictionAgent;
  datacollector : list Report;
  bidders : OrderedDict;
  askers : OrderedDict;
  volume : nat
}.

Definition set_bidders (model : PredictionMarketModel) (d : OrderedDict) :=
  mkModel (num_agents model) (schedule model) (datacollector model)
          d (askers model) (volume model).

Definition set_askers (model : PredictionMarketModel) (d : OrderedDict) :=
  mkModel (num_agents model) (schedule model) (datacollector model)
          (bidders model) d (volume model).

Definition set_volume (model : PredictionMarketModel) (v : nat) :=
  mkModel (num_agents model) (schedule model) (datacollector model)
          (bidders model) (askers model) v.

Definition set_schedule (model : PredictionMarketModel)
  (s : list PredictionAgent) :=
  mkModel (num_agents model) s (datacollector model)
          (bidders model) (askers model) (volume model).

Definition set_datacollector (model : PredictionMarketModel)
  (c : list Report) :=
  mkModel (num_agents model) (schedule model) c
          (bidders model) (askers model) (volume model).

Definition set_bid (self : PredictionAgent) (b : Q) :=
  mkAgent (unique_id self) (prob self) b (ask self).

Definition set_ask (self : PredictionAgent) (a : Q) :=
  mkAgent (unique_id self) (prob self) (bid self) a.

(** ** The model reporters *)

Definition get_highest_bid (model : PredictionMarketModel)
  : option (price * PredictionMarketModel) :=
  if (0 <? length (bidders model))%nat then
    ' (highest_bid, rest) <- popitem (bidders model) ;;
    let price := snd highest_bid in
    Some (Some price,
          set_bidders model (setitem (fst highest_bid) (snd highest_bid) rest))
  else Some (nan, model).

Definition get_lowest_ask (model : PredictionMarketModel)
  : option (price * PredictionMarketModel) :=
  if (0 <? length (askers model))%nat then
    ' (lowest_ask, rest) <- popitem (askers model) ;;
    let price := snd lowest_ask in
    Some (Some price,
          set_askers model (setitem (fst lowest_ask) (snd lowest_ask) rest))
  else Some (nan, model).

Definition compute_volume (model : PredictionMarketModel) : nat :=
  volume model.

(** ** PredictionAgent *)

(** The number of two decimals that [round(p, 2)] picks: the one nearest
    to [p], ties to the even hundredth. *)
Definition round2 (p : Q) : Q := inject_Z (round_half_even (p * 100)) / 100.

(** The belief an agent is created with; [round(p, 2)] is the double of
    [round2 p]. *)
Definition clamp_prob (p : Q) : Q :=
  let p := f64 (round2 p) in
  if Qle_bool 1 p then f64 0.99
  else if Qle_bool p 0 then f64 0.01
  else p.

(** [PredictionAgent.__init__(p, unique_id, model)]. *)
Definition PredictionAgent_init (p : Q) (uid : nat)
  (model : PredictionMarketModel) : PredictionAgent * PredictionMarketModel :=
  let self := mkAgent uid (clamp_prob p) 0 1 in
  let model := set_bidders model (setitem (unique_id self) (bid self) (bidders model)) in
  let model := set_askers model (setitem (unique_id self) (ask self) (askers model)) in
  (self, model).

Definition update_bid (self : PredictionAgent) (lowest_ask : price)
  (increase_bid : bool) : Q :=
  let min_bid := 0 in
  let max_bid := prob self -. f64 0.01 in
  if increase_bid then
    if Qle_bool max_bid (bid self +. f64 0.01) then max_bid
    else bid self +. f64 0.01
  else
    if Qlt_bool (bid self -. f64 0.01) min_bid then min_bid
    else bid self -. f64 0.01.

Definition update_ask (self : PredictionAgent) (highest_bid : price)
  (decrease_ask : bool) : Q :=
  let max_ask := 1 in
  let min_ask := prob self +. f64 0.01 in
  if decrease_ask then
    if Qle_bool (ask self -. f64 0.01) min_ask then min_ask
    else ask self -. f64 0.01
  else
    if Qlt_bool max_ask (ask self +. f64 0.01) then max_ask
    else ask self +. f64 0.01.

Definition place_bid (self : PredictionAgent) (model : PredictionMarketModel)
  (b : Q) : PredictionAgent * PredictionMarketModel :=
  let self := set_bid self b in
  let model := set_bidders model (setitem (unique_id self) (bid self) (bidders model)) in
  let model := set_bidders model (sorted_by ascending (bidders model)) in
  (self, model).

Definition place_ask (self : PredictionAgent) (model : PredictionMarketModel)
  (a : Q) : PredictionAgent * PredictionMarketModel :=
  let self := set_ask self a in
  let model := set_askers model (setitem (unique_id self) (ask self) (askers model)) in
  let model := set_askers model (sorted_by descending (askers model)) in
  (self, model).

Definition buy (self : PredictionAgent) (model : PredictionMarketModel)
  : option (PredictionAgent * PredictionMarketModel) :=
  if (0 <? length (askers model))%nat then
    ' (lowest_price, model) <- get_lowest_ask model ;;
    if price_le lowest_price (bid self) then
      ' (_, rest) <- popitem (askers model) ;;
      let model := set_askers model rest in
      let new_bid := update_bid self lowest_price false in
      let '(self, model) := place_bid self model new_bid in
      Some (self, set_volume model (volume model + 1))
    else
      let new_bid := update_bid self lowest_price true in
      Some (place_bid self model new_bid)
  else Some (self, model).

Definition sell (self : PredictionAgent) (model : PredictionMarketModel)
  : option (PredictionAgent * PredictionMarketModel) :=
  if (0 <? length (bidders model))%nat then
    ' (highest_price, model) <- get_highest_bid model ;;
    if price_ge highest_price (ask self) then
      ' (_, rest) <- popitem (bidders model) ;;
      let model := set_bidders model rest in
      let new_ask := update_ask self highest_price false in
      let '(self, model) := place_ask self model new_ask in
      Some (self, set_volume model (volume model + 1))
    else
      let new_ask := update_ask self highest_price true in
      Some (place_ask self model new_ask)
  else Some (self, model).

(** [PredictionAgent.step]. *)
Definition agent_step (self : PredictionAgent) (model : PredictionMarketModel)
  : option (PredictionAgent * PredictionMarketModel) :=
  ' (self, model) <- buy self model ;;
  sell self model.

(** ** The schedule and the market step *)

Fixpoint find_agent (uid : nat) (l : list PredictionAgent)
  : option PredictionAgent :=
  match l with
  | [] => None
  | a :: l' => if Nat.eqb (unique_id a) uid then Some a else find_agent uid l'
  end.

(** The agent object is shared: what a method did to [self] is what the
    schedule holds afterwards. *)
Definition store_agent (self : PredictionAgent) (l : list PredictionAgent)
  : list PredictionAgent :=
  map (fun a => if Nat.eqb (unique_id a) (unique_id self) then self else a) l.

Definition commit (r : PredictionAgent * PredictionMarketModel)
  : PredictionMarketModel :=
  set_schedule (snd r) (store_agent (fst r) (schedule (snd r))).

(** [RandomActivation.step]: the agents step in the shuffled order of their
    keys. *)
Fixpoint schedule_step (order : list nat) (model : PredictionMarketModel)
  : option PredictionMarketModel :=
  match order with
  | [] => Some model
  | uid :: order' =>
      self <- find_agent uid (schedule model) ;;
      r <- agent_step self model ;;
      schedule_step order' (commit r)
  end.

(** [DataCollector.collect]. *)
Definition collect (model : PredictionMarketModel)
  : option PredictionMarketModel :=
  ' (b, model) <- get_highest_bid model ;;
  ' (a, model) <- get_lowest_ask model ;;
  let row := mkReport b a (compute_volume model) (schedule model) in
  Some (set_datacollector model (datacollector model ++ [row])).

(** [PredictionMarketModel.step], with the order the shuffle produced. *)
Definition step (order : list nat) (model : PredictionMarketModel)
  : option PredictionMarketModel :=
  let model := set_volume model 0 in
  model <- schedule_step order model ;;
  collect model.

(** [PredictionMarketModel.run_model], one visiting order per step. *)
Fixpoint run_model (orders : list (list nat)) (model : PredictionMarketModel)
  : option PredictionMarketModel :=
  match orders with
  | [] => Some model
  | order :: orders' =>
      model <- step order model ;;
      run_model orders' model
  end.

(** The loop of [PredictionMarketModel.__init__] over [range(num_agents)]:
    [draws] are the values drawn for the agents still to create. *)
Fixpoint create_agents (draws : list Q) (i : nat)
  (model : PredictionMarketModel) : PredictionMarketModel :=
  match draws with
  | [] => model
  | p :: draws' =>
      let '(a, model) := PredictionAgent_init p i model in
      create_agents draws' (S i) (set_schedule model (schedule model ++ [a]))
  end.

(** [PredictionMarketModel(N)], [N] being the number of draws. *)
Definition PredictionMarketModel_init (draws : list Q)
  : PredictionMarketModel :=
  create_agents draws 0%nat (mkModel (length draws) [] [] [] [] 0%nat).

(** A visiting order is a shuffle of the keys of the schedule. *)
Definition valid_order (model : PredictionMarketModel) (order : list nat)
  : Prop :=
  Permutation order (map unique_id (schedule model)).


(** ** Reachable states and what holds in them *)

(** The states the model goes through: the constructed model, and whatever
    a reset of the volume, a buy or a sell attempt of one of its agents, or
    a collection of the reporters leaves behind.  Every state of a run of
    [run_model] is one of them, whatever the visiting orders are. *)
Inductive reachable (draws : list Q) : PredictionMarketModel -> Prop :=
| reach_init :
    reachable draws (PredictionMarketModel_init draws)
| reach_reset model :
    reachable draws model ->
    reachable draws (set_volume model 0)
| reach_buy model self r :
    reachable draws model ->
    In self (schedule model) ->
    buy self model = Some r ->
    reachable draws (commit r)
| reach_sell model self r :
    reachable draws model ->
    In self (schedule model) ->
    sell self model = Some r ->
    reachable draws (commit r)
| reach_collect model model' :
    reachable draws model ->
    collect model = Some model' ->
    reachable draws model'.

(** The quotes of an agent are within the bounds its belief sets. *)
Definition in_range (a : PredictionAgent) : Prop :=
  (0 <= bid a /\ bid a <= prob a -. f64 0.01)
  /\ (prob a +. f64 0.01 <= ask a /\ ask a <= 1).

Definition agent_ok (a : PredictionAgent) : Prop :=
  (f64 0.01 <= prob a /\ prob a <= f64 0.99) /\ in_range a.

(** Every pair of the dict is the current quote of the agent of its key. *)
Definition quotes_of (quote : PredictionAgent -> Q) (d : OrderedDict)
  (agents : list PredictionAgent) : Prop :=
  forall k v, In (k, v) d ->
    exists a, In a agents /\ unique_id a = k /\ quote a = v.

(** How many pairs of the dict are under the key [k]. *)
Definition entries (k : nat) (d : OrderedDict) : nat :=
  length (filter (fun kv => Nat.eqb (fst kv) k) d).

(** The last pair of a dict is its best quote. *)
Definition best (d : OrderedDict) : price :=
  match popitem d with
  | Some (x, _) => Some (snd x)
  | None => nan
  end.

(** What a buy attempt that trades against the pair of price
    [lowest_price] leaves, [rest] being the askers without that pair; and
    the same for a sell attempt. *)
Definition bought (self : PredictionAgent) (model : PredictionMarketModel)
  (rest : OrderedDict) (lowest_price : Q) :=
  let '(self', model') :=
    place_bid self (set_askers model rest)
              (update_bid self (Some lowest_price) false) in
  (self', set_volume model' (volume model' + 1)).

Definition sold (self : PredictionAgent) (model : PredictionMarketModel)
  (rest : OrderedDict) (highest_price : Q) :=
  let '(self', model') :=
    place_ask self (set_bidders model rest)
              (update_ask self (Some highest_price) false) in
  (self', set_volume model' (volume model' + 1)).

Record book_ok (model : PredictionMarketModel) : Prop := mkBookOk {
  ok_ids : NoDup (map unique_id (schedule model));
  ok_agents : Forall agent_ok (schedule model);
  ok_bid_keys : NoDup (keys (bidders model));
  ok_ask_keys : NoDup (keys (askers model));
  ok_bid_quotes : quotes_of bid (bidders model) (schedule model);
  ok_ask_quotes : quotes_of ask (askers model) (schedule model);
  ok_bid_sorted : StronglySorted (in_order ascending) (bidders model);
  ok_ask_sorted : StronglySorted (in_order descending) (askers model)
}.

(** ** All the runs of a market at once

    The states a market can be in after [n] steps, over all the sequences
    of visiting orders taken from [orders]; equal states are kept once. *)

Definition Q_eqb (x y : Q) : bool :=
  Z.eqb (Qnum x) (Qnum y) && Pos.eqb (Qden x) (Qden y).

Definition price_eqb (x y : price) : bool :=
  match x, y with
  | Some a, Some b => Q_eqb a b
  | None, None => true
  | _, _ => false
  end.

Fixpoint list_eqb {A : Type} (eqb : A -> A -> bool) (l l' : list A) : bool :=
  match l, l' with
  | [], [] => true
  | x :: t, y :: t' => eqb x y && list_eqb eqb t t'
  | _, _ => false
  end.

Definition pair_eqb (x y : nat * Q) : bool :=
  Nat.eqb (fst x) (fst y) && Q_eqb (snd x) (snd y).

Definition agent_eqb (a b : PredictionAgent) : bool :=
  Nat.eqb (unique_id a) (unique_id b) && Q_eqb (prob a) (prob b)
  && Q_eqb (bid a) (bid b) && Q_eqb (ask a) (ask b).

Definition report_eqb (r r' : Report) : bool :=
  price_eqb (bid_price r) (bid_price r')
  && price_eqb (ask_price r) (ask_price r')
  && Nat.eqb (rep_volume r) (rep_volume r')
  && list_eqb agent_eqb (agent_vars r) (agent_vars r').

Definition model_eqb (m m' : PredictionMarketModel) : bool :=
  Nat.eqb (num_agents m) (num_agents m')
  && list_eqb agent_eqb (schedule m) (schedule m')
  && list_eqb report_eqb (datacollector m) (datacollector m')
  && list_eqb pair_eqb (bidders m) (bidders m')
  && list_eqb pair_eqb (askers m) (askers m')
  && Nat.eqb (volume m) (volume m').

Definition add_state (m : PredictionMarketModel)
  (ms : list PredictionMarketModel) : list PredictionMarketModel :=
  if existsb (model_eqb m) ms then ms else m :: ms.

(** The states one step after [m], added to [acc]. *)
Fixpoint successors (orders : list (list nat)) (m : PredictionMarketModel)
  (acc : list PredictionMarketModel) : option (list PredictionMarketModel) :=
  match orders with
  | [] => Some acc
  | order :: orders' =>
      m' <- step order m ;;
      successors orders' m (add_state m' acc)
  end.

Fixpoint next_states (orders : list (list nat))
  (ms acc : list PredictionMarketModel) : option (list PredictionMarketModel) :=
  match ms with
  | [] => Some acc
  | m :: ms' =>
      acc' <- successors orders m acc ;;
      next_states orders ms' acc'
  end.

Fixpoint frontier (orders : list (list nat)) (n : nat)
  (ms : list PredictionMarketModel) : option (list PredictionMarketModel) :=
  match n with
  | O => Some ms
  | S n' =>
      ms' <- next_states orders ms [] ;;
      frontier orders n' ms'
  end.

(** The volumes a model has reported, step after step. *)
Definition volumes (m : PredictionMarketModel) : list nat :=
  map rep_volume (datacollector m).

(** The market of the two far-apart beliefs 0.90 and 0.10. *)
Definition market_90_10 : PredictionMarketModel :=
  PredictionMarketModel_init [0.90; 0.10].

Definition two_orders : list (list nat) := [[0; 1]; [1; 0]]%nat.

(** The beliefs of the agents, by key: they never change. *)
Definition beliefs (m : PredictionMarketModel) : list (nat * Q) :=
  map (fun a => (unique_id a, prob a)) (schedule m).

(** What the first 51 steps of the market of beliefs 0.90 and 0.10
    report: no trade for 50 steps, then one. *)
Definition volumes_90_10 : list nat := repeat 0%nat 50 ++ [1%nat].

(** The pairs of distinct agents of which the first bids at least what
    the second asks. *)
Definition matching_pairs (m : PredictionMarketModel) : list (nat * nat) :=
  flat_map
    (fun x =>
       flat_map
         (fun y =>
            if negb (Nat.eqb (unique_id x) (unique_id y))
               && Qle_bool (ask y) (bid x)
            then [(unique_id x, unique_id y)] else [])
         (schedule m))
    (schedule m).

(** Two markets of three agents in which a step that starts with one
    matching pair counts two trades. *)
Definition market_50_41_40 : PredictionMarketModel :=
  PredictionMarketModel_init [0.50; 0.41; 0.40].

Definition orders_52 : list (list nat) :=
  repeat [0; 1; 2]%nat 50 ++ [[1; 0; 2]%nat; [0; 1; 2]%nat].

Definition market_45_83_50 : PredictionMarketModel :=
  PredictionMarketModel_init [0.45; 0.83; 0.50].

Definition orders_50 : list (list nat) := repeat [0; 1; 2]%nat 50.

(** A market of two agents whose quotes are all in the book, the bid of
    the first equal to the ask of the second. *)
Definition market_of_two : PredictionMarketModel :=
  mkModel 2
          [mkAgent 0 (f64 0.90) (f64 0.50) (f64 0.91);
           mkAgent 1 (f64 0.10) (f64 0.09) (f64 0.50)] []
          [(1%nat, f64 0.09); (0%nat, f64 0.50)]
          [(0%nat, f64 0.91); (1%nat, f64 0.50)] 0.

(** The market that shows the two visiting orders apart: beliefs 0.46 and
    0.51, after 56 steps. *)
Definition market_46_51 : PredictionMarketModel :=
  PredictionMarketModel_init [0.46; 0.51].

Definition orders_56 : list (list nat) :=
  repeat [0; 1]%nat 50 ++ repeat [1; 0]%nat 3 ++ repeat [0; 1]%nat 3.

(** Whether the pair trades a second time in the step that visits the
    agents in [order]: the agent that acts first trades and moves its
    quote by one tick, and the quote of the other still reaches it. *)
Definition crosses_again (order : list nat) (buyer seller : PredictionAgent)
  : bool :=
  if Nat.eqb (hd 0%nat order) (unique_id buyer)
  then Qle_bool (ask seller) (bid buyer -. f64 0.01)
  else Qle_bool (ask seller +. f64 0.01) (bid buyer).

(** The run that shows a consumed pair: the agents of beliefs 0.83 and
    0.53 visited in the order 0, 1 for 54 steps.  In step 54 agent 0 raises
    its bid to 0.5400000000000003, over the ask 0.54 of agent 1, and
    agent 1 then sells to it. *)
Definition market_83_53 : PredictionMarketModel :=
  PredictionMarketModel_init [0.83; 0.53].

Definition orders_54 : list (list nat) := repeat [0; 1]%nat 54.

(** The row collected when the book is empty and nothing was traded. *)
Definition empty_row : Report := mkReport nan nan 0 [].

(** The attempts read and write the book and the volume, not the schedule. *)
Definition with_schedule (s : list PredictionAgent)
  (r : PredictionAgent * PredictionMarketModel) :=
  (fst r, set_schedule (snd r) s).

(** The agents created so far have keys under [i] and their first quotes. *)
Definition just_created (i : nat) (model : PredictionMarketModel) : Prop :=
  (forall a, In a (schedule model) ->
     (unique_id a < i)%nat /\ bid a = 0 /\ ask a = 1)
  /\ (forall k v, In (k, v) (bidders model) -> (k < i)%nat /\ v = 0)
  /\ (forall k v, In (k, v) (askers model) -> (k < i)%nat /\ v = 1).

(** ** Definitions for the further properties *)

(** The agents [PredictionMarketModel.__init__] creates from [draws],
    the first of them under the key [i]. *)
Fixpoint new_agents (i : nat) (draws : list Q) : list PredictionAgent :=
  match draws with
  | [] => []
  | p :: draws' => mkAgent i (clamp_prob p) 0 1 :: new_agents (S i) draws'
  end.

(** The no-trade branch of [buy] on the agent alone: the bid goes one
    tick up; and the no-trade branch of [sell]: the ask goes one tick
    down. *)
Definition raise_bid (self : PredictionAgent) : PredictionAgent :=
  set_bid self (update_bid self nan true).

Definition lower_ask (self : PredictionAgent) : PredictionAgent :=
  set_ask self (update_ask self nan true).

(** One tick of 0.01 up and down; the bid [0] raised by 0.01 [n] times
    and the ask [1] lowered by 0.01 [n] times, as the floats add up. *)
Definition tick_up (b : Q) : Q := b +. f64 0.01.

Definition tick_down (a : Q) : Q := a -. f64 0.01.

Definition raised (n : nat) : Q := Nat.iter n tick_up 0.

Definition lowered (n : nat) : Q := Nat.iter n tick_down 1.

(** A collected row reports as best bid the bid of one of the agents, a
    price from 0 to 0.98, and as best ask the ask of one of the agents, a
    price from 0.02 to 1. *)
Definition row_in_range (row : Report) : Prop :=
  (forall p, bid_price row = Some p ->
     (exists a, In a (agent_vars row) /\ bid a = p)
     /\ 0 <= p /\ p <= 0.98)
  /\ (forall p, ask_price row = Some p ->
        (exists a, In a (agent_vars row) /\ ask a = p)
        /\ 0.02 <= p /\ p <= 1).

(** A step under way in a market where no quote can match yet.  The step
    started with every bid at most [t] and every ask at least [s]; the
    agents of [to_buy] have not made their buy attempt, those of [to_sell]
    have not made their sell attempt, and nothing was traded. *)
Definition quiet (t s : Q) (to_buy to_sell : list nat)
  (m : PredictionMarketModel) : Prop :=
  book_ok m /\ volume m = 0%nat
  /\ forall a, In a (schedule m) ->
       bid a <= t +. f64 0.01 /\ s -. f64 0.01 <= ask a
       /\ (In (unique_id a) to_buy -> bid a <= t)
       /\ (In (unique_id a) to_sell -> s <= ask a).

(** Between steps: every bid at most [t], every ask at least [s]. *)
Definition calm (t s : Q) (m : PredictionMarketModel) : Prop :=
  book_ok m
  /\ forall a, In a (schedule m) -> bid a <= t /\ s <= ask a.

(** Every agent has its current quotes in the book. *)
Definition posted (m : PredictionMarketModel) : Prop :=
  forall a, In a (schedule m) ->
    In (unique_id a, bid a) (bidders m) /\ In (unique_id a, ask a) (askers m).

(** The beliefs are so close that no bid can reach an ask: the highest
    bid any agent may post, [prob - 0.01], is under the lowest ask any
    agent may post, [prob + 0.01]. *)
Definition close_beliefs (m : PredictionMarketModel) : Prop :=
  forall a b, In a (schedule m) -> In b (schedule m) ->
    prob a -. f64 0.01 < prob b +. f64 0.01.

(** * Properties *)

(** ** Comparisons *)

Lemma Qlt_bool_iff (x y : Q) : Qlt_bool x y = true <-> x < y.
Proof.
  unfold Qlt_bool. rewrite negb_true_iff.
  split; intro H.
  - apply Qnot_le_lt. intro Hle. apply Qle_bool_iff in Hle. congruence.
  - destruct (Qle_bool y x) eqn:E; [|reflexivity].
    apply Qle_bool_iff in E. exfalso. apply (Qlt_not_le _ _ H E).
Qed.

Lemma Qle_bool_false_iff (x y : Q) : Qle_bool x y = false <-> y < x.
Proof.
  rewrite <- Qlt_bool_iff. unfold Qlt_bool.
  destruct (Qle_bool x y); simpl; split; congruence.
Qed.

Lemma Qlt_bool_false_iff (x y : Q) : Qlt_bool x y = false <-> y <= x.
Proof.
  unfold Qlt_bool. rewrite negb_false_iff. apply Qle_bool_iff.
Qed.

(** Turns the boolean tests of the context into orders on [Q]. *)
Ltac qtests :=
  repeat match goal with
  | H : Qle_bool _ _ = true |- _ => apply Qle_bool_iff in H
  | H : Qle_bool _ _ = false |- _ => apply Qle_bool_false_iff in H
  | H : Qlt_bool _ _ = true |- _ => apply Qlt_bool_iff in H
  | H : Qlt_bool _ _ = false |- _ => apply Qlt_bool_false_iff in H
  end.

(** ** Binary64 numbers *)


Lemma pow2_pos (e : Z) : 0 < 2 ^ e.
Proof. apply Qpower_0_lt. reflexivity. Qed.

Lemma pow2_le (a b : Z) : (a <= b)%Z -> 2 ^ a <= 2 ^ b.
Proof. intro H. apply Qpower_le_compat_l; [exact H | discriminate]. Qed.

Lemma pow2_lt (a b : Z) : (a < b)%Z -> 2 ^ a < 2 ^ b.
Proof. intro H. apply Qpower_lt_compat_l; [exact H | reflexivity]. Qed.

Lemma pow2_lt_inv (a b : Z) : 2 ^ a < 2 ^ b -> (a < b)%Z.
Proof. intro H. apply (Qpower_lt_compat_l_inv 2); [exact H | reflexivity]. Qed.

Lemma pow2_plus (a b : Z) : 2 ^ (a + b) == 2 ^ a * 2 ^ b.
Proof. apply Qpower_plus. discriminate. Qed.

Lemma pow2_Z (n : Z) : (0 <= n)%Z -> inject_Z (2 ^ n) == 2 ^ n.
Proof. intro H. rewrite Zpower_Qpower by exact H. reflexivity. Qed.

Lemma Qnum_pos (x : Q) : 0 < x <-> (0 < Qnum x)%Z.
Proof. unfold Qlt. simpl. rewrite Z.mul_1_r. reflexivity. Qed.

Lemma Q_as_fraction (x : Q) : x * inject_Z (Zpos (Qden x)) == inject_Z (Qnum x).
Proof.
  destruct x as [n d]. unfold Qeq, Qmult, inject_Z. simpl. lia.
Qed.

(** [x] lies in the binade of exponent [ilog2 x]. *)
Lemma ilog2_spec (x : Q) :
  0 < x -> 2 ^ ilog2 x <= x /\ x < 2 ^ (ilog2 x + 1).
Proof.
  intro Hx. pose proof Hx as Hn. apply Qnum_pos in Hn.
  unfold ilog2.
  set (ln := Z.log2 (Qnum x)). set (ld := Z.log2 (Zpos (Qden x))).
  assert (Hln : (0 <= ln)%Z) by apply Z.log2_nonneg.
  assert (Hld : (0 <= ld)%Z) by apply Z.log2_nonneg.
  destruct (Z.log2_spec (Qnum x) Hn) as [Hn1 Hn2]. fold ln in Hn1, Hn2.
  destruct (Z.log2_spec (Zpos (Qden x)) (Pos2Z.is_pos _)) as [Hd1 Hd2].
  fold ld in Hd1, Hd2.
  rewrite Zle_Qle, pow2_Z in Hn1, Hd1 by assumption.
  rewrite Zlt_Qlt, pow2_Z in Hn2, Hd2 by lia.
  pose proof (Q_as_fraction x) as Hfrac.
  set (n := inject_Z (Qnum x)) in *. set (d := inject_Z (Zpos (Qden x))) in *.
  unfold Z.succ in *.
  pose proof (pow2_plus ln 1) as E1. pose proof (pow2_plus ld 1) as E2.
  pose proof (pow2_plus (ln - ld) ld) as E3.
  replace (ln - ld + ld)%Z with ln in E3 by lia.
  pose proof (pow2_plus (ln - ld - 1) 1) as E4.
  replace (ln - ld - 1 + 1)%Z with (ln - ld)%Z in E4 by lia.
  pose proof (pow2_plus (ln - ld) 1) as E5.
  change (2 ^ 1) with 2 in *.
  pose proof (pow2_pos ln) as P1. pose proof (pow2_pos ld) as P2.
  pose proof (pow2_pos (ln - ld)) as P3.
  pose proof (pow2_pos (ln - ld - 1)) as P4.
  set (A := 2 ^ ln) in *. set (B := 2 ^ ld) in *.
  set (K := 2 ^ (ln - ld)) in *. set (K' := 2 ^ (ln - ld - 1)) in *.
  assert (Hup : x < 2 * K).
  { apply Qnot_le_lt. intro C.
    assert (2 * K * d <= x * d) by (apply Qmult_le_compat_r; lra).
    assert (K * B <= K * d) by (apply Qmult_le_l; lra).
    lra. }
  assert (Hlo : K' <= x).
  { apply Qnot_lt_le. intro C.
    assert (x * d <= K' * d) by (apply Qmult_le_compat_r; lra).
    assert (K' * d <= K' * (2 * B)) by (apply Qmult_le_l; lra).
    assert (K' * (2 * B) == A) by (rewrite E3, E4; ring).
    assert (x * d < K' * d) by (apply Qmult_lt_compat_r; lra).
    lra. }
  destruct (Qle_bool K x) eqn:E.
  - apply Qle_bool_iff in E. split; [exact E|]. rewrite E5. lra.
  - assert (Hlt : x < K).
    { apply Qnot_le_lt. intro C. apply Qle_bool_iff in C. congruence. }
    replace (ln - ld - 1 + 1)%Z with (ln - ld)%Z by lia.
    split; assumption.
Qed.

Lemma ilog2_unique (x : Q) (e : Z) :
  2 ^ e <= x -> x < 2 ^ (e + 1) -> ilog2 x = e.
Proof.
  intros H1 H2.
  assert (Hx : 0 < x) by (pose proof (pow2_pos e); lra).
  destruct (ilog2_spec x Hx) as [H3 H4].
  assert ((e < ilog2 x + 1)%Z) by (apply pow2_lt_inv; lra).
  assert ((ilog2 x < e + 1)%Z) by (apply pow2_lt_inv; lra).
  lia.
Qed.

Lemma ilog2_mono (x y : Q) : 0 < x -> x <= y -> (ilog2 x <= ilog2 y)%Z.
Proof.
  intros Hx Hxy.
  destruct (ilog2_spec x Hx) as [H1 _].
  destruct (ilog2_spec y) as [_ H2]; [lra|].
  assert ((ilog2 x < ilog2 y + 1)%Z) by (apply pow2_lt_inv; lra).
  lia.
Qed.

(** ** Rounding to an integer *)

Lemma round_half_even_near (x : Q) :
  x - (1 # 2) <= inject_Z (round_half_even x) <= x + (1 # 2).
Proof.
  unfold round_half_even.
  pose proof (Qfloor_le x) as Hlo.
  pose proof (Qlt_floor x) as Hhi.
  rewrite inject_Z_plus in Hhi. change (inject_Z 1) with 1 in Hhi.
  destruct (Qcompare (x - inject_Z (Qfloor x)) (1 # 2)) eqn:E.
  - apply Qeq_alt in E.
    destruct (Z.even (Qfloor x));
      rewrite ?inject_Z_plus; change (inject_Z 1) with 1; lra.
  - apply Qlt_alt in E. lra.
  - apply Qgt_alt in E.
    rewrite inject_Z_plus. change (inject_Z 1) with 1. lra.
Qed.

Lemma round_half_even_floor (x : Q) :
  (Qfloor x <= round_half_even x <= Qfloor x + 1)%Z.
Proof.
  unfold round_half_even.
  destruct (Qcompare _ _); [destruct (Z.even _)| |]; lia.
Qed.

Lemma round_half_even_mono (x y : Q) :
  x <= y -> (round_half_even x <= round_half_even y)%Z.
Proof.
  intro Hxy.
  pose proof (Qfloor_resp_le _ _ Hxy) as Hf.
  destruct (Z.eq_dec (Qfloor x) (Qfloor y)) as [E|E].
  - unfold round_half_even. rewrite <- E.
    destruct (Qcompare (x - inject_Z (Qfloor x)) (1 # 2)) eqn:Ex;
      destruct (Qcompare (y - inject_Z (Qfloor x)) (1 # 2)) eqn:Ey;
      repeat match goal with
             | H : Qcompare _ _ = Eq |- _ => apply Qeq_alt in H
             | H : Qcompare _ _ = Lt |- _ => apply Qlt_alt in H
             | H : Qcompare _ _ = Gt |- _ => apply Qgt_alt in H
             end;
      try destruct (Z.even (Qfloor x)); try lia; exfalso; lra.
  - pose proof (round_half_even_floor x). pose proof (round_half_even_floor y).
    lia.
Qed.

Lemma round_half_even_Z (k : Z) : round_half_even (inject_Z k) = k.
Proof.
  unfold round_half_even. rewrite Qfloor_Z.
  replace (Qcompare (inject_Z k - inject_Z k) (1 # 2)) with Lt; [reflexivity|].
  symmetry. apply Qlt_alt.
  setoid_replace (inject_Z k - inject_Z k) with 0 by ring. reflexivity.
Qed.

(** ** The nearest double of a positive number *)

Lemma ulp_pos (x : Q) : 0 < ulp x.
Proof. apply pow2_pos. Qed.

Lemma scaled (x u : Q) : 0 < u -> x / u * u == x.
Proof. intro H. field. lra. Qed.

Lemma nearest_error (x : Q) :
  x - ulp x * (1 # 2) <= nearest x <= x + ulp x * (1 # 2).
Proof.
  unfold nearest. pose proof (ulp_pos x) as Hu.
  pose proof (round_half_even_near (x / ulp x)) as [H1 H2].
  pose proof (scaled x (ulp x) Hu) as Hs.
  set (m := inject_Z (round_half_even (x / ulp x))) in *.
  set (u := ulp x) in *. set (q := x / u) in *.
  assert ((q - (1 # 2)) * u <= m * u) by (apply Qmult_le_compat_r; lra).
  assert (m * u <= (q + (1 # 2)) * u) by (apply Qmult_le_compat_r; lra).
  assert ((q - (1 # 2)) * u == x - u * (1 # 2)) by (rewrite <- Hs; ring).
  assert ((q + (1 # 2)) * u == x + u * (1 # 2)) by (rewrite <- Hs; ring).
  lra.
Qed.

Lemma nearest_ge_pow2 (x : Q) (e : Z) :
  (Z.max (ilog2 x) (-1022) <= e)%Z -> 2 ^ e <= x -> 2 ^ e <= nearest x.
Proof.
  intros He Hx. unfold nearest, ulp.
  set (E := Z.max (ilog2 x) (-1022)) in *.
  pose proof (pow2_pos (E - 52)) as Hu. set (u := 2 ^ (E - 52)) in *.
  assert (Hk : (0 <= e - (E - 52))%Z) by lia.
  assert (Epow : 2 ^ e == inject_Z (2 ^ (e - (E - 52))) * u).
  { rewrite pow2_Z by exact Hk. unfold u. rewrite <- pow2_plus.
    replace (e - (E - 52) + (E - 52))%Z with e by lia. reflexivity. }
  rewrite Epow. apply Qmult_le_compat_r; [|lra].
  rewrite <- Zle_Qle.
  rewrite <- (round_half_even_Z (2 ^ (e - (E - 52)))) at 1.
  apply round_half_even_mono.
  apply Qmult_le_r with (z := u); [exact Hu|].
  rewrite scaled by exact Hu. rewrite <- Epow. exact Hx.
Qed.

Lemma nearest_le_pow2 (x : Q) (e : Z) :
  (Z.max (ilog2 x) (-1022) - 52 <= e)%Z -> x <= 2 ^ e -> nearest x <= 2 ^ e.
Proof.
  intros He Hx. unfold nearest, ulp.
  set (E := Z.max (ilog2 x) (-1022)) in *.
  pose proof (pow2_pos (E - 52)) as Hu. set (u := 2 ^ (E - 52)) in *.
  assert (Hk : (0 <= e - (E - 52))%Z) by lia.
  assert (Epow : 2 ^ e == inject_Z (2 ^ (e - (E - 52))) * u).
  { rewrite pow2_Z by exact Hk. unfold u. rewrite <- pow2_plus.
    replace (e - (E - 52) + (E - 52))%Z with e by lia. reflexivity. }
  rewrite Epow. apply Qmult_le_compat_r; [|lra].
  rewrite <- Zle_Qle.
  rewrite <- (round_half_even_Z (2 ^ (e - (E - 52)))) at 1.
  apply round_half_even_mono.
  apply Qmult_le_r with (z := u); [exact Hu|].
  rewrite scaled by exact Hu. rewrite <- Epow. exact Hx.
Qed.

Lemma nearest_nonneg (x : Q) : 0 <= x -> 0 <= nearest x.
Proof.
  intro Hx. unfold nearest. pose proof (ulp_pos x) as Hu.
  apply Qmult_le_0_compat; [|lra].
  change 0 with (inject_Z 0). rewrite <- Zle_Qle.
  rewrite <- (round_half_even_Z 0). apply round_half_even_mono.
  change (inject_Z 0) with 0.
  apply Qmult_le_r with (z := ulp x); [exact Hu|].
  rewrite scaled by exact Hu. lra.
Qed.

Lemma nearest_mono (x y : Q) : 0 < x -> x <= y -> nearest x <= nearest y.
Proof.
  intros Hx Hxy. assert (Hy : 0 < y) by lra.
  pose proof (ilog2_mono x y Hx Hxy) as He.
  destruct (ilog2_spec x Hx) as [Hx1 Hx2].
  destruct (ilog2_spec y Hy) as [Hy1 Hy2].
  destruct (Z.eq_dec (Z.max (ilog2 x) (-1022)) (Z.max (ilog2 y) (-1022)))
    as [E|E].
  - unfold nearest, ulp. rewrite <- E.
    pose proof (pow2_pos (Z.max (ilog2 x) (-1022) - 52)) as Hu.
    set (u := 2 ^ (Z.max (ilog2 x) (-1022) - 52)) in *.
    apply Qmult_le_compat_r; [|lra].
    rewrite <- Zle_Qle. apply round_half_even_mono.
    apply Qmult_le_r with (z := u); [exact Hu|].
    rewrite !scaled by exact Hu. exact Hxy.
  - set (Ex := Z.max (ilog2 x) (-1022)) in *.
    assert (Hlt : (Ex + 1 <= ilog2 y)%Z) by lia.
    apply Qle_trans with (2 ^ (Ex + 1)).
    + apply nearest_le_pow2; [fold Ex; lia|].
      apply Qle_trans with (2 ^ (ilog2 x + 1)); [lra|].
      apply pow2_le. lia.
    + apply Qle_trans with (2 ^ ilog2 y); [apply pow2_le; lia|].
      apply nearest_ge_pow2; [lia | exact Hy1].
Qed.

(** ** The nearest double *)

Lemma f64_cases (x : Q) :
  (x == 0 /\ f64 x = 0)
  \/ (0 < x /\ f64 x == nearest (Qred x))
  \/ (x < 0 /\ f64 x == - nearest (- Qred x)).
Proof.
  unfold f64. pose proof (Qred_correct x) as Hr.
  destruct (Qnum (Qred x)) as [|p|p] eqn:E.
  - left. split; [|reflexivity]. rewrite <- Hr.
    unfold Qeq. rewrite E. reflexivity.
  - right. left. split; [|apply Qred_correct].
    rewrite <- Hr. apply Qnum_pos. rewrite E. reflexivity.
  - right. right. split; [|apply Qred_correct].
    rewrite <- Hr. unfold Qlt. rewrite E. reflexivity.
Qed.

Lemma f64_Qeq (x y : Q) : x == y -> f64 x = f64 y.
Proof. intro H. unfold f64. rewrite (Qred_complete x y H). reflexivity. Qed.

(** Rounding keeps the order. *)
Lemma f64_le (x y : Q) : x <= y -> f64 x <= f64 y.
Proof.
  intro Hxy.
  pose proof (Qred_correct x) as Rx. pose proof (Qred_correct y) as Ry.
  destruct (f64_cases x) as [[Hx Ex]|[[Hx Ex]|[Hx Ex]]];
    destruct (f64_cases y) as [[Hy Ey]|[[Hy Ey]|[Hy Ey]]];
    rewrite Ex, Ey; try (exfalso; lra).
  - lra.
  - apply nearest_nonneg. lra.
  - apply nearest_mono; lra.
  - assert (0 <= nearest (- Qred x)) by (apply nearest_nonneg; lra). lra.
  - assert (0 <= nearest (- Qred x)) by (apply nearest_nonneg; lra).
    assert (0 <= nearest (Qred y)) by (apply nearest_nonneg; lra). lra.
  - assert (nearest (- Qred y) <= nearest (- Qred x))
      by (apply nearest_mono; lra).
    lra.
Qed.

(** Between -2 and 2 a number is within [2^-53] of its double. *)
Lemma ulp_small (x : Q) : 0 < x -> x < 2 -> ulp x <= 2 * eps.
Proof.
  intros H0 H2. unfold ulp.
  destruct (ilog2_spec x H0) as [H1 _].
  assert ((ilog2 x < 1)%Z)
    by (apply pow2_lt_inv; change (2 ^ 1) with 2; lra).
  apply Qle_trans with (2 ^ (-52)); [apply pow2_le; lia|].
  unfold eps, Qle. simpl. lia.
Qed.

Lemma f64_error (x : Q) :
  -2 < x -> x < 2 -> x - eps <= f64 x /\ f64 x <= x + eps.
Proof.
  intros Hlo Hhi. pose proof (Qred_correct x) as Rx.
  destruct (f64_cases x) as [[Hx Ex]|[[Hx Ex]|[Hx Ex]]]; rewrite Ex.
  - unfold eps. lra.
  - pose proof (nearest_error (Qred x)) as [H1 H2].
    pose proof (ulp_small (Qred x)) as Hu. lra.
  - pose proof (nearest_error (- Qred x)) as [H1 H2].
    pose proof (ulp_small (- Qred x)) as Hu. lra.
Qed.

(** From here on a double is computed only where a proof asks for it. *)
Opaque f64.

(** The error bounds of the floats of the goal and of the context, as far
    as their arguments are known to lie between -2 and 2. *)
Ltac f64_bound x :=
  lazymatch goal with
  | _ : x - eps <= f64 x |- _ => fail
  | _ =>
      let H1 := fresh "Hlo" in
      let H2 := fresh "Hhi" in
      assert (x - eps <= f64 x /\ f64 x <= x + eps) as [H1 H2]
        by (apply f64_error; unfold eps in *; lra)
  end.

Ltac f64_bounds :=
  repeat match goal with
  | |- context [f64 ?x] => f64_bound x
  | H : context [f64 ?x] |- _ => f64_bound x
  end;
  unfold eps in *.

(** ** The quote policy *)

Section QuotePolicy.

Variable self : PredictionAgent.
Variable reference : price.

Lemma update_bid_increase :
  update_bid self reference true
  == Qmin (bid self +. f64 0.01) (prob self -. f64 0.01).
Proof.
  unfold update_bid.
  destruct (Qle_bool _ _) eqn:E; qtests.
  - rewrite Q.min_r; lra.
  - rewrite Q.min_l; lra.
Qed.

Lemma update_bid_decrease :
  update_bid self reference false == Qmax (bid self -. f64 0.01) 0.
Proof.
  unfold update_bid.
  destruct (Qlt_bool _ _) eqn:E; qtests.
  - rewrite Q.max_r; lra.
  - rewrite Q.max_l; lra.
Qed.

Lemma update_ask_decrease :
  update_ask self reference true
  == Qmax (ask self -. f64 0.01) (prob self +. f64 0.01).
Proof.
  unfold update_ask.
  destruct (Qle_bool _ _) eqn:E; qtests.
  - rewrite Q.max_r; lra.
  - rewrite Q.max_l; lra.
Qed.

Lemma update_ask_increase :
  update_ask self reference false == Qmin (ask self +. f64 0.01) 1.
Proof.
  unfold update_ask.
  destruct (Qlt_bool _ _) eqn:E; qtests.
  - rewrite Q.min_r; lra.
  - rewrite Q.min_l; lra.
Qed.

Lemma update_bid_snaps :
  prob self -. f64 0.01 <= bid self +. f64 0.01 ->
  update_bid self reference true = prob self -. f64 0.01.
Proof.
  intro H. unfold update_bid.
  apply Qle_bool_iff in H. rewrite H. reflexivity.
Qed.

Lemma update_ask_snaps :
  ask self -. f64 0.01 <= prob self +. f64 0.01 ->
  update_ask self reference true = prob self +. f64 0.01.
Proof.
  intro H. unfold update_ask.
  apply Qle_bool_iff in H. rewrite H. reflexivity.
Qed.

End QuotePolicy.

(** C5. For every agent and every reference price, [update_bid] with
    [increase_bid] set returns [min (bid + 0.01) (prob - 0.01)], exactly
    [prob - 0.01] as soon as [bid + 0.01] reaches it, and never more than
    [prob - 0.01]; without the flag it returns [max (bid - 0.01) 0].
    [update_ask] mirrors it: [max (ask - 0.01) (prob + 0.01)] when
    decreasing, exactly [prob + 0.01] once reached, and [min (ask + 0.01) 1]
    otherwise.  The sums and differences are those of the floats. *)
Theorem update_quotes_min_max (self : PredictionAgent) (reference : price) :
  update_bid self reference true == Qmin (bid self +. f64 0.01) (prob self -. f64 0.01)
  /\ (prob self -. f64 0.01 <= bid self +. f64 0.01 ->
      update_bid self reference true = prob self -. f64 0.01)
  /\ update_bid self reference true <= prob self -. f64 0.01
  /\ update_bid self reference false == Qmax (bid self -. f64 0.01) 0
  /\ update_ask self reference true == Qmax (ask self -. f64 0.01) (prob self +. f64 0.01)
  /\ (ask self -. f64 0.01 <= prob self +. f64 0.01 ->
      update_ask self reference true = prob self +. f64 0.01)
  /\ prob self +. f64 0.01 <= update_ask self reference true
  /\ update_ask self reference false == Qmin (ask self +. f64 0.01) 1.
Proof.
  repeat split.
  - apply update_bid_increase.
  - apply update_bid_snaps.
  - rewrite update_bid_increase. apply Q.le_min_r.
  - apply update_bid_decrease.
  - apply update_ask_decrease.
  - apply update_ask_snaps.
  - rewrite update_ask_decrease. apply Q.le_max_r.
  - apply update_ask_increase.
Qed.

(** The policy at an agent of belief 0.50 one tick under its highest bid
    and one tick over its lowest ask. *)
Lemma update_quotes_min_max_witness :
  update_bid (mkAgent 0 (f64 0.50) (f64 0.48) (f64 0.52)) nan true
  = f64 0.50 -. f64 0.01
  /\ update_ask (mkAgent 0 (f64 0.50) (f64 0.48) (f64 0.52)) nan true
     = f64 0.50 +. f64 0.01.
Proof.
  destruct (update_quotes_min_max
              (mkAgent 0 (f64 0.50) (f64 0.48) (f64 0.52)) nan)
    as (_ & Hb & _ & _ & _ & Ha & _).
  split.
  - apply Hb. vm_compute. discriminate.
  - apply Ha. vm_compute. discriminate.
Defined.

(** C10. The new quote does not depend on the reference price the method
    is given: two calls that differ only in it return the same quote. *)
Theorem update_independent_of_reference
  (self : PredictionAgent) (flag : bool) (r1 r2 : price) :
  update_bid self r1 flag = update_bid self r2 flag
  /\ update_ask self r1 flag = update_ask self r2 flag.
Proof.
  split; reflexivity.
Qed.

(** ** The belief of a new agent *)

Lemma round2_near (p : Q) : Qabs (round2 p - p) <= 1 # 200.
Proof.
  unfold round2.
  pose proof (round_half_even_near (p * 100)) as [Hlo Hhi].
  apply Qabs_Qle_condition.
  set (z := inject_Z (round_half_even (p * 100))) in *.
  assert (Hdiv : z / 100 == z * (1 # 100)) by (unfold Qdiv; reflexivity).
  rewrite Hdiv. lra.
Qed.

Lemma round2_grid (p : Q) :
  round2 p == inject_Z (round_half_even (p * 100)) / 100.
Proof. reflexivity. Qed.

Lemma inject_Z_lt_inv (a b : Z) : inject_Z a < inject_Z b -> (a < b)%Z.
Proof. rewrite <- Zlt_Qlt. trivial. Qed.

(** The function on numbers whose doubles are well known: 0.1, the sum
    0.1 + 0.2, which is not the double of 0.3, and six ticks of 0.01 added
    up, which are not the double of 0.06. *)
Lemma f64_examples :
  f64 0.1 = 3602879701896397 # 36028797018963968
  /\ f64 0.1 +. f64 0.2 = f64 0.30000000000000004
  /\ f64 0.1 +. f64 0.2 <> f64 0.3
  /\ Nat.iter 6 (fun b => b +. f64 0.01) 0 = f64 0.060000000000000005
  /\ Nat.iter 6 (fun b => b +. f64 0.01) 0 <> f64 0.06.
Proof.
  repeat split; vm_compute; (reflexivity || discriminate).
Qed.

Lemma f64_0 : f64 0 = 0.
Proof. vm_compute. reflexivity. Qed.

Lemma f64_1 : f64 1 = 1.
Proof. vm_compute. reflexivity. Qed.

(** The doubles of 0.01 and of 0.99 lie between these two numbers. *)
Lemma f64_cent : 0.01 <= f64 0.01 /\ f64 0.01 < 1.
Proof. split; vm_compute; [discriminate | reflexivity]. Qed.

Lemma f64_99 : 0 < f64 0.99 /\ f64 0.99 <= 0.99.
Proof. split; vm_compute; [reflexivity | discriminate]. Qed.

(** A number of hundredths whose double is between 0 and 1 is one of
    0.01, ..., 0.99. *)
Lemma hundredths_inside (z : Z) :
  0 < f64 (inject_Z z / 100) -> f64 (inject_Z z / 100) < 1 ->
  (1 <= z <= 99)%Z.
Proof.
  intros H0 H1.
  assert (Hdiv : inject_Z z / 100 == inject_Z z * (1 # 100))
    by (unfold Qdiv; reflexivity).
  split.
  - destruct (Z_lt_le_dec 0 z) as [H|H]; [lia|]. exfalso.
    assert (inject_Z z <= inject_Z 0) by (rewrite <- Zle_Qle; exact H).
    change (inject_Z 0) with 0 in *.
    assert (Hle : f64 (inject_Z z / 100) <= f64 0)
      by (apply f64_le; rewrite Hdiv; lra).
    rewrite f64_0 in Hle. lra.
  - destruct (Z_lt_le_dec z 100) as [H|H]; [lia|]. exfalso.
    assert (inject_Z 100 <= inject_Z z) by (rewrite <- Zle_Qle; exact H).
    change (inject_Z 100) with 100 in *.
    assert (Hle : f64 1 <= f64 (inject_Z z / 100))
      by (apply f64_le; rewrite Hdiv; lra).
    rewrite f64_1 in Hle. lra.
Qed.

Lemma hundredths_bounds (z : Z) :
  (1 <= z <= 99)%Z ->
  f64 0.01 <= f64 (inject_Z z / 100) /\ f64 (inject_Z z / 100) <= f64 0.99.
Proof.
  intros [H1 H2].
  assert (Hdiv : inject_Z z / 100 == inject_Z z * (1 # 100))
    by (unfold Qdiv; reflexivity).
  assert (Hl : inject_Z 1 <= inject_Z z) by (rewrite <- Zle_Qle; exact H1).
  assert (Hu : inject_Z z <= inject_Z 99) by (rewrite <- Zle_Qle; exact H2).
  change (inject_Z 1) with 1 in Hl. change (inject_Z 99) with 99 in Hu.
  split; apply f64_le; rewrite Hdiv; lra.
Qed.

Lemma clamp_prob_grid (p : Q) :
  exists k : Z, (1 <= k <= 99)%Z /\ clamp_prob p = f64 (inject_Z k / 100).
Proof.
  unfold clamp_prob.
  destruct (Qle_bool 1 (f64 (round2 p))) eqn:E1.
  { exists 99%Z. split; [lia | apply f64_Qeq; reflexivity]. }
  destruct (Qle_bool (f64 (round2 p)) 0) eqn:E0.
  { exists 1%Z. split; [lia | apply f64_Qeq; reflexivity]. }
  qtests. exists (round_half_even (p * 100)).
  split; [|reflexivity]. apply hundredths_inside; assumption.
Qed.

Lemma clamp_prob_range (p : Q) :
  f64 0.01 <= clamp_prob p /\ clamp_prob p <= f64 0.99.
Proof.
  destruct (clamp_prob_grid p) as (k & Hk & ->).
  apply hundredths_bounds. exact Hk.
Qed.

Lemma clamp_prob_high (p : Q) : 1 <= p -> clamp_prob p = f64 0.99.
Proof.
  intro H. unfold clamp_prob.
  assert (E : Qle_bool 1 (f64 (round2 p)) = true).
  { apply Qle_bool_iff. rewrite <- f64_1 at 1. apply f64_le. unfold round2.
    pose proof (round_half_even_near (p * 100)) as [Hlo _].
    set (z := round_half_even (p * 100)) in *.
    assert (Hz : (99 < z)%Z).
    { apply inject_Z_lt_inv. change (inject_Z 99) with 99. lra. }
    assert (Hq : inject_Z 100 <= inject_Z z) by (rewrite <- Zle_Qle; lia).
    change (inject_Z 100) with 100 in Hq.
    assert (Hdiv : inject_Z z / 100 == inject_Z z * (1 # 100))
      by (unfold Qdiv; reflexivity).
    rewrite Hdiv. lra. }
  rewrite E. reflexivity.
Qed.

Lemma clamp_prob_low (p : Q) : p <= 0 -> clamp_prob p = f64 0.01.
Proof.
  intro H. unfold clamp_prob.
  assert (E : f64 (round2 p) <= 0).
  { rewrite <- f64_0. apply f64_le. unfold round2.
    pose proof (round_half_even_near (p * 100)) as [_ Hhi].
    set (z := round_half_even (p * 100)) in *.
    assert (Hz : (z < 1)%Z).
    { apply inject_Z_lt_inv. change (inject_Z 1) with 1. lra. }
    assert (Hq : inject_Z z <= inject_Z 0) by (rewrite <- Zle_Qle; lia).
    change (inject_Z 0) with 0 in Hq.
    assert (Hdiv : inject_Z z / 100 == inject_Z z * (1 # 100))
      by (unfold Qdiv; reflexivity).
    rewrite Hdiv. lra. }
  destruct (Qle_bool 1 (f64 (round2 p))) eqn:E1.
  - qtests. lra.
  - apply Qle_bool_iff in E. rewrite E. reflexivity.
Qed.

Lemma clamp_prob_rounds (p : Q) :
  0 < round2 p < 1 -> clamp_prob p = f64 (round2 p).
Proof.
  intros [H0 H1]. unfold clamp_prob.
  assert (Hk : (1 <= round_half_even (p * 100) <= 99)%Z).
  { unfold round2 in H0, H1. set (z := round_half_even (p * 100)) in *.
    assert (Hdiv : inject_Z z / 100 == inject_Z z * (1 # 100))
      by (unfold Qdiv; reflexivity).
    rewrite Hdiv in H0, H1.
    assert ((0 < z)%Z)
      by (apply inject_Z_lt_inv; change (inject_Z 0) with 0; lra).
    assert ((z < 100)%Z)
      by (apply inject_Z_lt_inv; change (inject_Z 100) with 100; lra).
    lia. }
  destruct (hundredths_bounds _ Hk) as [Hl Hu]. fold (round2 p) in Hl, Hu.
  pose proof f64_cent as [? ?]. pose proof f64_99 as [? ?].
  destruct (Qle_bool 1 (f64 (round2 p))) eqn:E1; [qtests; lra|].
  destruct (Qle_bool (f64 (round2 p)) 0) eqn:E0; [qtests; lra|].
  reflexivity.
Qed.

(** C7. Whatever value is drawn, the belief of the agent created from it
    lies in [0.01, 0.99] and is a whole number of hundredths, as a double:
    it is the double of one of 0.01, 0.02, ..., 0.99.  A draw of 1 or more
    gives 0.99, a draw of 0 or less gives 0.01, and otherwise the belief is
    the draw rounded to two decimal places (at most 0.005 away from it),
    unless the rounding reaches 0 or 1. *)
Theorem belief_clamped_on_grid
  (p : Q) (uid : nat) (model : PredictionMarketModel) :
  let self := fst (PredictionAgent_init p uid model) in
  0.01 <= prob self <= 0.99
  /\ f64 0.01 <= prob self <= f64 0.99
  /\ (exists k : Z, (1 <= k <= 99)%Z /\ prob self = f64 (inject_Z k / 100))
  /\ (1 <= p -> prob self = f64 0.99)
  /\ (p <= 0 -> prob self = f64 0.01)
  /\ (0 < round2 p < 1 -> prob self = f64 (round2 p))
  /\ Qabs (round2 p - p) <= 1 # 200
  /\ round2 p == inject_Z (round_half_even (p * 100)) / 100.
Proof.
  simpl. pose proof (clamp_prob_range p) as [Hl Hu].
  pose proof f64_cent as [? ?]. pose proof f64_99 as [? ?].
  split; [split; lra|]. split; [split; assumption|].
  split; [apply clamp_prob_grid|].
  split; [apply clamp_prob_high|].
  split; [apply clamp_prob_low|].
  split; [apply clamp_prob_rounds|].
  split; [apply round2_near | reflexivity].
Qed.

(** A draw of 1.07 becomes 0.99, and a draw of 0.534 becomes 0.53. *)
Lemma belief_clamped_on_grid_witness :
  prob (fst (PredictionAgent_init 1.07 0
               (PredictionMarketModel_init []))) = f64 0.99
  /\ prob (fst (PredictionAgent_init 0.534 0
                  (PredictionMarketModel_init []))) = f64 (round2 0.534).
Proof.
  split.
  - apply (belief_clamped_on_grid 1.07 0 (PredictionMarketModel_init [])).
    unfold Qle. simpl. lia.
  - apply (belief_clamped_on_grid 0.534 0 (PredictionMarketModel_init [])).
    split; vm_compute; reflexivity.
Defined.

(** ** OrderedDict: [popitem] and [setitem] *)

Lemma popitem_app (d : OrderedDict) (x : nat * Q) :
  popitem (d ++ [x]) = Some (x, d).
Proof.
  unfold popitem. rewrite rev_app_distr. simpl.
  rewrite rev_involutive. reflexivity.
Qed.

Lemma popitem_Some (d r : OrderedDict) (x : nat * Q) :
  popitem d = Some (x, r) -> d = r ++ [x].
Proof.
  unfold popitem. destruct (rev d) as [|y t] eqn:E; [discriminate|].
  intro H. injection H as -> <-.
  rewrite <- (rev_involutive d), E. reflexivity.
Qed.

Lemma popitem_nonempty (d : OrderedDict) :
  d <> [] -> exists x r, popitem d = Some (x, r).
Proof.
  intro H. destruct (exists_last H) as (r & x & ->).
  exists x, r. apply popitem_app.
Qed.

Lemma popitem_length (d : OrderedDict) :
  (0 <? length d)%nat = true -> exists x r, popitem d = Some (x, r).
Proof.
  intro H. apply popitem_nonempty. intros ->. discriminate.
Qed.

Lemma setitem_nonempty (k : nat) (v : Q) (d : OrderedDict) :
  setitem k v d <> [].
Proof.
  destruct d as [|[k' v'] d]; simpl; [discriminate|].
  destruct (Nat.eqb k' k); discriminate.
Qed.

Lemma setitem_fresh (k : nat) (v : Q) (d : OrderedDict) :
  ~ In k (keys d) -> setitem k v d = d ++ [(k, v)].
Proof.
  induction d as [|[k' v'] d IH]; simpl; intro H; [reflexivity|].
  destruct (Nat.eqb_spec k' k) as [->|Hne].
  - exfalso. apply H. left. reflexivity.
  - rewrite IH; [reflexivity|]. intro Hin. apply H. right. exact Hin.
Qed.

Lemma keys_setitem (k : nat) (v : Q) (d : OrderedDict) :
  keys (setitem k v d) = if in_dec Nat.eq_dec k (keys d) then keys d
                         else keys d ++ [k].
Proof.
  induction d as [|[k' v'] d IH]; simpl; [reflexivity|].
  destruct (Nat.eqb_spec k' k) as [->|Hne]; simpl.
  - destruct (Nat.eq_dec k k); [reflexivity | congruence].
  - destruct (Nat.eq_dec k' k); [congruence|].
    rewrite IH. destruct (in_dec Nat.eq_dec k (keys d)); reflexivity.
Qed.

Lemma NoDup_keys_setitem (k : nat) (v : Q) (d : OrderedDict) :
  NoDup (keys d) -> NoDup (keys (setitem k v d)).
Proof.
  intro H. rewrite keys_setitem.
  destruct (in_dec Nat.eq_dec k (keys d)) as [Hin|Hout]; [exact H|].
  apply NoDup_rev in H. rewrite <- (rev_involutive (keys d ++ [k])).
  apply NoDup_rev. rewrite rev_app_distr. simpl.
  constructor; [|exact H]. rewrite <- in_rev. exact Hout.
Qed.

Lemma In_setitem_same (k : nat) (v : Q) (d : OrderedDict) :
  In (k, v) (setitem k v d).
Proof.
  induction d as [|[k' v'] d IH]; simpl; [left; reflexivity|].
  destruct (Nat.eqb_spec k' k) as [->|Hne]; [left; reflexivity|].
  right. exact IH.
Qed.

Lemma In_setitem_inv (k k' : nat) (v v' : Q) (d : OrderedDict) :
  NoDup (keys d) ->
  In (k', v') (setitem k v d) ->
  (k' = k /\ v' = v) \/ (k' <> k /\ In (k', v') d).
Proof.
  induction d as [|[k0 v0] d IH]; simpl; intros Hnd Hin.
  - destruct Hin as [Hin|[]]. injection Hin as <- <-. left. split; reflexivity.
  - inversion Hnd as [|? ? Hout Hnd']; subst.
    destruct (Nat.eqb_spec k0 k) as [->|Hne].
    + destruct Hin as [Hin|Hin].
      * injection Hin as <- <-. left. split; reflexivity.
      * right. split; [|right; exact Hin].
        intros ->. apply Hout. apply (in_map fst) in Hin. exact Hin.
    + destruct Hin as [Hin|Hin].
      * injection Hin as <- <-. right. split; [exact Hne | left; reflexivity].
      * destruct (IH Hnd' Hin) as [H|[H1 H2]]; [left; exact H|].
        right. split; [exact H1 | right; exact H2].
Qed.

(** Putting back the pair [popitem] has just removed restores the dict. *)
Lemma setitem_popitem (d r : OrderedDict) (x : nat * Q) :
  NoDup (keys d) -> popitem d = Some (x, r) ->
  setitem (fst x) (snd x) r = d.
Proof.
  intros Hnd Hpop. apply popitem_Some in Hpop. subst d.
  destruct x as [k v]. simpl. apply setitem_fresh.
  unfold keys in Hnd. rewrite map_app in Hnd. simpl in Hnd.
  apply NoDup_remove_2 in Hnd. rewrite app_nil_r in Hnd. exact Hnd.
Qed.

(** ** OrderedDict: the stable sort *)

Section StableSort.

Variable before : Q -> Q -> bool.

Hypothesis before_asym :
  forall a b, before a b = true -> before b a = false.
Hypothesis in_order_trans :
  forall a b c, before b a = false -> before c b = false ->
                before c a = false.

Lemma insert_by_perm (x : nat * Q) (l : OrderedDict) :
  Permutation (insert_by before x l) (x :: l).
Proof.
  induction l as [|y l IH]; simpl; [apply Permutation_refl|].
  destruct (before (snd y) (snd x)); [|apply Permutation_refl].
  eapply perm_trans; [apply perm_skip, IH | apply perm_swap].
Qed.

Lemma sorted_by_perm (l : OrderedDict) : Permutation (sorted_by before l) l.
Proof.
  induction l as [|x l IH]; simpl; [apply perm_nil|].
  eapply perm_trans; [apply insert_by_perm | apply perm_skip, IH].
Qed.

Lemma insert_by_sorted (x : nat * Q) (l : OrderedDict) :
  StronglySorted (in_order before) l -> StronglySorted (in_order before) (insert_by before x l).
Proof.
  induction l as [|y l IH]; simpl; intro Hs.
  - repeat constructor.
  - inversion Hs as [|? ? Hs' Hall]; subst.
    destruct (before (snd y) (snd x)) eqn:E.
    + constructor; [apply IH; exact Hs'|].
      apply (Permutation_Forall (Permutation_sym (insert_by_perm x l))).
      constructor; [|exact Hall].
      unfold in_order. apply before_asym. exact E.
    + constructor; [exact Hs|].
      constructor; [exact E|].
      apply Forall_forall. intros z Hz.
      rewrite Forall_forall in Hall. specialize (Hall z Hz).
      unfold in_order in *. eapply in_order_trans; eassumption.
Qed.

Lemma sorted_by_sorted (l : OrderedDict) :
  StronglySorted (in_order before) (sorted_by before l).
Proof.
  induction l as [|x l IH]; simpl; [constructor|].
  apply insert_by_sorted. exact IH.
Qed.

(** A dict in order is left as it is: the sort is stable. *)
Lemma sorted_by_id (l : OrderedDict) :
  StronglySorted (in_order before) l -> sorted_by before l = l.
Proof.
  induction 1 as [|x l Hs IH Hall]; simpl; [reflexivity|].
  rewrite IH. destruct l as [|y l]; [reflexivity|]. simpl.
  inversion Hall as [|? ? Hxy _]; subst. unfold in_order in Hxy.
  rewrite Hxy. reflexivity.
Qed.

Lemma sorted_prefix (l : OrderedDict) (x : nat * Q) :
  StronglySorted (in_order before) (l ++ [x]) ->
  StronglySorted (in_order before) l /\ Forall (fun y => in_order before y x) l.
Proof.
  induction l as [|y l IH]; simpl; intro Hs.
  - split; constructor.
  - inversion Hs as [|? ? Hs' Hall]; subst.
    destruct (IH Hs') as [H1 H2]. split.
    + constructor; [exact H1|].
      rewrite Forall_app in Hall. apply Hall.
    + constructor; [|exact H2].
      rewrite Forall_app in Hall. destruct Hall as [_ Hx].
      inversion Hx; assumption.
Qed.

End StableSort.

Lemma ascending_asym (a b : Q) : ascending a b = true -> ascending b a = false.
Proof.
  unfold ascending. intro H. apply Qlt_bool_false_iff. qtests. lra.
Qed.

Lemma ascending_trans (a b c : Q) :
  ascending b a = false -> ascending c b = false -> ascending c a = false.
Proof.
  unfold ascending. intros H1 H2. apply Qlt_bool_false_iff. qtests. lra.
Qed.

Lemma descending_asym (a b : Q) :
  descending a b = true -> descending b a = false.
Proof.
  unfold descending. intro H. apply Qlt_bool_false_iff. qtests. lra.
Qed.

Lemma descending_trans (a b c : Q) :
  descending b a = false -> descending c b = false -> descending c a = false.
Proof.
  unfold descending. intros H1 H2. apply Qlt_bool_false_iff. qtests. lra.
Qed.

Lemma in_order_ascending (x y : nat * Q) :
  in_order ascending x y <-> snd x <= snd y.
Proof. unfold in_order, ascending. apply Qlt_bool_false_iff. Qed.

Lemma in_order_descending (x y : nat * Q) :
  in_order descending x y <-> snd y <= snd x.
Proof. unfold in_order, descending. apply Qlt_bool_false_iff. Qed.

(** ** The reporters *)

Lemma set_bidders_same (model : PredictionMarketModel) :
  set_bidders model (bidders model) = model.
Proof. destruct model; reflexivity. Qed.

Lemma set_askers_same (model : PredictionMarketModel) :
  set_askers model (askers model) = model.
Proof. destruct model; reflexivity. Qed.

Lemma best_app (d : OrderedDict) (x : nat * Q) : best (d ++ [x]) = Some (snd x).
Proof. unfold best. rewrite popitem_app. reflexivity. Qed.

Lemma get_highest_bid_total (model : PredictionMarketModel) :
  exists r, get_highest_bid model = Some r.
Proof.
  unfold get_highest_bid.
  destruct (0 <? length (bidders model))%nat eqn:E; [|eexists; reflexivity].
  destruct (popitem_length _ E) as (x & r & ->). simpl. eexists; reflexivity.
Qed.

Lemma get_lowest_ask_total (model : PredictionMarketModel) :
  exists r, get_lowest_ask model = Some r.
Proof.
  unfold get_lowest_ask.
  destruct (0 <? length (askers model))%nat eqn:E; [|eexists; reflexivity].
  destruct (popitem_length _ E) as (x & r & ->). simpl. eexists; reflexivity.
Qed.

Lemma get_highest_bid_best (model : PredictionMarketModel) :
  NoDup (keys (bidders model)) ->
  get_highest_bid model = Some (best (bidders model), model).
Proof.
  intro Hnd. unfold get_highest_bid, best.
  destruct (bidders model) as [|y d] eqn:Ed.
  - reflexivity.
  - change (0 <? length (y :: d))%nat with true. cbv iota.
    destruct (popitem_nonempty (y :: d)) as (x & r & Hp); [discriminate|].
    rewrite Hp. simpl.
    rewrite (setitem_popitem (y :: d) r x Hnd Hp), <- Ed.
    rewrite set_bidders_same. reflexivity.
Qed.

Lemma get_lowest_ask_best (model : PredictionMarketModel) :
  NoDup (keys (askers model)) ->
  get_lowest_ask model = Some (best (askers model), model).
Proof.
  intro Hnd. unfold get_lowest_ask, best.
  destruct (askers model) as [|y d] eqn:Ed.
  - reflexivity.
  - change (0 <? length (y :: d))%nat with true. cbv iota.
    destruct (popitem_nonempty (y :: d)) as (x & r & Hp); [discriminate|].
    rewrite Hp. simpl.
    rewrite (setitem_popitem (y :: d) r x Hnd Hp), <- Ed.
    rewrite set_askers_same. reflexivity.
Qed.

(** ** The three ways a buy or a sell attempt goes *)

Lemma dict_shape (d : OrderedDict) :
  d = [] \/ exists rest x, d = rest ++ [x].
Proof.
  destruct d as [|y d]; [left; reflexivity|]. right.
  destruct (@exists_last _ (y :: d)) as (rest & x & Hl); [discriminate|].
  exists rest, x. exact Hl.
Qed.

Lemma buy_cases (self : PredictionAgent) (model : PredictionMarketModel) :
  NoDup (keys (askers model)) ->
  (askers model = [] /\ buy self model = Some (self, model))
  \/ (exists rest x, askers model = rest ++ [x] /\ snd x <= bid self
        /\ buy self model = Some (bought self model rest (snd x)))
  \/ (exists rest x, askers model = rest ++ [x] /\ bid self < snd x
        /\ buy self model
           = Some (place_bid self model (update_bid self (Some (snd x)) true))).
Proof.
  intro Hnd. unfold buy. rewrite (get_lowest_ask_best _ Hnd). cbn [bind].
  destruct (dict_shape (askers model)) as [Hl|(rest & x & Hl)];
    rewrite Hl; [left; split; reflexivity|].
  right. rewrite last_length, best_app, popitem_app.
  change (0 <? S (length rest))%nat with true. cbv iota. simpl.
  destruct (Qle_bool (snd x) (bid self)) eqn:E; qtests.
  - left. exists rest, x. split; [reflexivity|]. split; [exact E|].
    reflexivity.
  - right. exists rest, x. split; [reflexivity|]. split; [exact E|].
    reflexivity.
Qed.

Lemma sell_cases (self : PredictionAgent) (model : PredictionMarketModel) :
  NoDup (keys (bidders model)) ->
  (bidders model = [] /\ sell self model = Some (self, model))
  \/ (exists rest x, bidders model = rest ++ [x] /\ ask self <= snd x
        /\ sell self model = Some (sold self model rest (snd x)))
  \/ (exists rest x, bidders model = rest ++ [x] /\ snd x < ask self
        /\ sell self model
           = Some (place_ask self model (update_ask self (Some (snd x)) true))).
Proof.
  intro Hnd. unfold sell. rewrite (get_highest_bid_best _ Hnd). cbn [bind].
  destruct (dict_shape (bidders model)) as [Hl|(rest & x & Hl)];
    rewrite Hl; [left; split; reflexivity|].
  right. rewrite last_length, best_app, popitem_app.
  change (0 <? S (length rest))%nat with true. cbv iota. simpl.
  destruct (Qle_bool (ask self) (snd x)) eqn:E; qtests.
  - left. exists rest, x. split; [reflexivity|]. split; [exact E|].
    reflexivity.
  - right. exists rest, x. split; [reflexivity|]. split; [exact E|].
    reflexivity.
Qed.

(** ** Agents of the schedule *)

Lemma store_agent_ids (self : PredictionAgent) (l : list PredictionAgent) :
  map unique_id (store_agent self l) = map unique_id l.
Proof.
  unfold store_agent. rewrite map_map. apply map_ext_in. intros a _.
  destruct (Nat.eqb_spec (unique_id a) (unique_id self)) as [E|E]; congruence.
Qed.

Lemma same_id_same_agent (l : list PredictionAgent) (a b : PredictionAgent) :
  NoDup (map unique_id l) -> In a l -> In b l ->
  unique_id a = unique_id b -> a = b.
Proof.
  induction l as [|c l IH]; simpl; intros Hnd Ha Hb E; [contradiction|].
  inversion Hnd as [|? ? Hout Hnd']; subst.
  destruct Ha as [->|Ha], Hb as [->|Hb].
  - reflexivity.
  - exfalso. apply Hout. rewrite E. apply in_map. exact Hb.
  - exfalso. apply Hout. rewrite <- E. apply in_map. exact Ha.
  - apply IH; assumption.
Qed.

Lemma store_agent_same (self : PredictionAgent) (l : list PredictionAgent) :
  NoDup (map unique_id l) -> In self l -> store_agent self l = l.
Proof.
  intros Hnd Hin. unfold store_agent.
  rewrite <- (map_id l) at 2. apply map_ext_in. intros a Ha.
  destruct (Nat.eqb_spec (unique_id a) (unique_id self)) as [E|E];
    [|reflexivity].
  symmetry. eapply same_id_same_agent; eassumption.
Qed.

Lemma In_store_agent (self old : PredictionAgent) (l : list PredictionAgent) :
  In old l -> unique_id old = unique_id self -> In self (store_agent self l).
Proof.
  intros Hin E. unfold store_agent. apply in_map_iff. exists old.
  split; [|exact Hin]. rewrite E, Nat.eqb_refl. reflexivity.
Qed.

Lemma In_store_agent_other (self a : PredictionAgent)
  (l : list PredictionAgent) :
  In a l -> unique_id a <> unique_id self -> In a (store_agent self l).
Proof.
  intros Hin E. unfold store_agent. apply in_map_iff. exists a.
  split; [|exact Hin].
  destruct (Nat.eqb_spec (unique_id a) (unique_id self)); congruence.
Qed.

Lemma In_store_agent_inv (self a : PredictionAgent)
  (l : list PredictionAgent) :
  In a (store_agent self l) ->
  a = self \/ (In a l /\ unique_id a <> unique_id self).
Proof.
  unfold store_agent. rewrite in_map_iff. intros (b & Hb & Hin).
  destruct (Nat.eqb_spec (unique_id b) (unique_id self)) as [E|E].
  - left. congruence.
  - right. subst a. split; assumption.
Qed.

Lemma store_agent_twice (a b : PredictionAgent) (l : list PredictionAgent) :
  unique_id a = unique_id b ->
  store_agent b (store_agent a l) = store_agent b l.
Proof.
  intro E. unfold store_agent. rewrite map_map. apply map_ext. intro c.
  destruct (Nat.eqb_spec (unique_id c) (unique_id a)) as [E1|E1].
  - rewrite E, Nat.eqb_refl.
    destruct (Nat.eqb_spec (unique_id c) (unique_id b)); congruence.
  - reflexivity.
Qed.

(** ** The quotes stay within the bounds of the belief *)

Lemma update_bid_range (self : PredictionAgent) (r : price) (flag : bool) :
  agent_ok self ->
  0 <= update_bid self r flag
  /\ update_bid self r flag <= prob self -. f64 0.01.
Proof.
  intros [[Hp0 Hp1] [[Hb0 Hb1] _]]. unfold update_bid.
  pose proof f64_99 as [_ ?].
  destruct flag.
  - destruct (Qle_bool _ _) eqn:E; qtests; f64_bounds; lra.
  - destruct (Qlt_bool _ _) eqn:E; qtests; f64_bounds; lra.
Qed.

Lemma update_ask_range (self : PredictionAgent) (r : price) (flag : bool) :
  agent_ok self ->
  prob self +. f64 0.01 <= update_ask self r flag
  /\ update_ask self r flag <= 1.
Proof.
  intros [[Hp0 Hp1] [_ [Ha0 Ha1]]]. unfold update_ask.
  assert (Hm : prob self +. f64 0.01 <= 1).
  { rewrite <- f64_1.
    replace (f64 1) with (f64 0.99 +. f64 0.01) by (vm_compute; reflexivity).
    apply f64_le. lra. }
  pose proof f64_cent as [? _].
  destruct flag.
  - destruct (Qle_bool _ _) eqn:E; qtests; f64_bounds; lra.
  - destruct (Qlt_bool _ _) eqn:E; qtests; f64_bounds; lra.
Qed.

Lemma agent_ok_set_bid (self : PredictionAgent) (b : Q) :
  agent_ok self -> 0 <= b /\ b <= prob self -. f64 0.01 ->
  agent_ok (set_bid self b).
Proof.
  intros [Hp [_ Ha]] Hb. split; [exact Hp|]. split; [exact Hb | exact Ha].
Qed.

Lemma agent_ok_set_ask (self : PredictionAgent) (a : Q) :
  agent_ok self -> prob self +. f64 0.01 <= a /\ a <= 1 ->
  agent_ok (set_ask self a).
Proof.
  intros [Hp [Hb _]] Ha. split; [exact Hp|]. split; [exact Hb | exact Ha].
Qed.

(** The bid of an agent is under its ask. *)
Lemma agent_ok_apart (a : PredictionAgent) : agent_ok a -> bid a < ask a.
Proof.
  intros [[Hp0 Hp1] [[Hb0 Hb1] [Ha0 Ha1]]].
  pose proof f64_cent as [? ?]. pose proof f64_99 as [? ?].
  f64_bounds. lra.
Qed.

(** No bid is over 0.98 and no ask under 0.02. *)
Lemma agent_ok_bounds (a : PredictionAgent) :
  agent_ok a -> bid a <= 0.98 /\ 0.02 <= ask a.
Proof.
  intros [[Hp0 Hp1] [[Hb0 Hb1] [Ha0 Ha1]]].
  assert (Hhi : prob a -. f64 0.01 <= f64 0.99 -. f64 0.01)
    by (apply f64_le; lra).
  assert (Hlo : f64 0.01 +. f64 0.01 <= prob a +. f64 0.01)
    by (apply f64_le; lra).
  assert (H98 : f64 0.99 -. f64 0.01 <= 0.98) by (vm_compute; discriminate).
  assert (H02 : 0.02 <= f64 0.01 +. f64 0.01) by (vm_compute; discriminate).
  split; lra.
Qed.

(** ** The book stays well formed *)

Lemma quotes_of_store (quote : PredictionAgent -> Q) (d : OrderedDict)
  (l : list PredictionAgent) (self self' : PredictionAgent) :
  NoDup (map unique_id l) -> In self l ->
  unique_id self' = unique_id self -> quote self' = quote self ->
  quotes_of quote d l -> quotes_of quote d (store_agent self' l).
Proof.
  intros Hnd Hin Eid Eq Hq k v Hkv.
  destruct (Hq k v Hkv) as (a & Ha & Hk & Hv).
  destruct (Nat.eq_dec (unique_id a) (unique_id self')) as [E|E].
  - exists self'.
    split; [apply (In_store_agent self' self); [exact Hin | congruence]|].
    assert (a = self) by (eapply same_id_same_agent; eauto; congruence).
    subst a. split; congruence.
  - exists a. split; [apply In_store_agent_other; assumption|].
    split; assumption.
Qed.

Lemma quotes_of_setitem (quote : PredictionAgent -> Q) (d : OrderedDict)
  (l : list PredictionAgent) (self self' : PredictionAgent) :
  NoDup (keys d) -> In self l -> unique_id self' = unique_id self ->
  quotes_of quote d l ->
  quotes_of quote (setitem (unique_id self') (quote self') d)
            (store_agent self' l).
Proof.
  intros Hnd Hin Eid Hq k v Hkv.
  destruct (In_setitem_inv _ _ _ _ _ Hnd Hkv) as [[-> ->]|[Hne Hold]].
  - exists self'.
    split; [apply (In_store_agent self' self); [exact Hin | congruence]|].
    split; reflexivity.
  - destruct (Hq k v Hold) as (a & Ha & Hk & Hv).
    exists a. split; [apply In_store_agent_other; congruence|].
    split; assumption.
Qed.

Lemma quotes_of_perm (quote : PredictionAgent -> Q) (d d' : OrderedDict)
  (l : list PredictionAgent) :
  Permutation d' d -> quotes_of quote d l -> quotes_of quote d' l.
Proof.
  intros Hp Hq k v Hkv. apply Hq. eapply Permutation_in; eassumption.
Qed.

Lemma NoDup_keys_perm (d d' : OrderedDict) :
  Permutation d' d -> NoDup (keys d) -> NoDup (keys d').
Proof.
  intros Hp Hnd. eapply Permutation_NoDup; [|exact Hnd].
  apply Permutation_map, Permutation_sym, Hp.
Qed.

Lemma book_ok_place_bid (self : PredictionAgent)
  (model : PredictionMarketModel) (b : Q) :
  book_ok model -> In self (schedule model) ->
  0 <= b /\ b <= prob self -. f64 0.01 ->
  book_ok (commit (place_bid self model b)).
Proof.
  intros [Hids Hag Hbk Hak Hbq Haq Hbs Has] Hin Hb.
  assert (Hself : agent_ok self)
    by (rewrite Forall_forall in Hag; apply Hag; exact Hin).
  constructor; simpl.
  - rewrite store_agent_ids. exact Hids.
  - apply Forall_forall. intros a Ha.
    destruct (In_store_agent_inv _ _ _ Ha) as [->|[Hold _]].
    + apply agent_ok_set_bid; assumption.
    + rewrite Forall_forall in Hag. apply Hag. exact Hold.
  - eapply NoDup_keys_perm; [apply sorted_by_perm|].
    apply NoDup_keys_setitem. exact Hbk.
  - exact Hak.
  - eapply quotes_of_perm; [apply sorted_by_perm|].
    apply (quotes_of_setitem bid (bidders model) (schedule model) self
             (set_bid self b)); auto.
  - apply (quotes_of_store ask (askers model) (schedule model) self
             (set_bid self b)); auto.
  - apply sorted_by_sorted; [apply ascending_asym | apply ascending_trans].
  - exact Has.
Qed.

Lemma book_ok_place_ask (self : PredictionAgent)
  (model : PredictionMarketModel) (a : Q) :
  book_ok model -> In self (schedule model) ->
  prob self +. f64 0.01 <= a /\ a <= 1 ->
  book_ok (commit (place_ask self model a)).
Proof.
  intros [Hids Hag Hbk Hak Hbq Haq Hbs Has] Hin Ha.
  assert (Hself : agent_ok self)
    by (rewrite Forall_forall in Hag; apply Hag; exact Hin).
  constructor; simpl.
  - rewrite store_agent_ids. exact Hids.
  - apply Forall_forall. intros c Hc.
    destruct (In_store_agent_inv _ _ _ Hc) as [->|[Hold _]].
    + apply agent_ok_set_ask; assumption.
    + rewrite Forall_forall in Hag. apply Hag. exact Hold.
  - exact Hbk.
  - eapply NoDup_keys_perm; [apply sorted_by_perm|].
    apply NoDup_keys_setitem. exact Hak.
  - apply (quotes_of_store bid (bidders model) (schedule model) self
             (set_ask self a)); auto.
  - eapply quotes_of_perm; [apply sorted_by_perm|].
    apply (quotes_of_setitem ask (askers model) (schedule model) self
             (set_ask self a)); auto.
  - exact Hbs.
  - apply sorted_by_sorted; [apply descending_asym | apply descending_trans].
Qed.

Lemma NoDup_keys_prefix (rest : OrderedDict) (x : nat * Q) :
  NoDup (keys (rest ++ [x])) -> NoDup (keys rest).
Proof.
  unfold keys. rewrite map_app. intro H.
  apply NoDup_app_remove_r in H. exact H.
Qed.

Lemma book_ok_pop_askers (model : PredictionMarketModel)
  (rest : OrderedDict) (x : nat * Q) :
  book_ok model -> askers model = rest ++ [x] ->
  book_ok (set_askers model rest).
Proof.
  intros [Hids Hag Hbk Hak Hbq Haq Hbs Has] Hl. rewrite Hl in *.
  constructor; simpl; try assumption.
  - eapply NoDup_keys_prefix; eassumption.
  - intros k v Hkv. apply Haq. apply in_or_app. left. exact Hkv.
  - apply sorted_prefix in Has. apply Has.
Qed.

Lemma book_ok_pop_bidders (model : PredictionMarketModel)
  (rest : OrderedDict) (x : nat * Q) :
  book_ok model -> bidders model = rest ++ [x] ->
  book_ok (set_bidders model rest).
Proof.
  intros [Hids Hag Hbk Hak Hbq Haq Hbs Has] Hl. rewrite Hl in *.
  constructor; simpl; try assumption.
  - eapply NoDup_keys_prefix; eassumption.
  - intros k v Hkv. apply Hbq. apply in_or_app. left. exact Hkv.
  - apply sorted_prefix in Hbs. apply Hbs.
Qed.

Lemma book_ok_set_volume (model : PredictionMarketModel) (v : nat) :
  book_ok model -> book_ok (set_volume model v).
Proof. intros [? ? ? ? ? ? ? ?]. constructor; assumption. Qed.

Lemma book_ok_set_datacollector (model : PredictionMarketModel)
  (c : list Report) :
  book_ok model -> book_ok (set_datacollector model c).
Proof. intros [? ? ? ? ? ? ? ?]. constructor; assumption. Qed.

Lemma commit_same (self : PredictionAgent) (model : PredictionMarketModel) :
  NoDup (map unique_id (schedule model)) -> In self (schedule model) ->
  commit (self, model) = model.
Proof.
  intros Hnd Hin. unfold commit. simpl.
  rewrite store_agent_same by assumption. destruct model; reflexivity.
Qed.

Lemma buy_book_ok (self : PredictionAgent) (model : PredictionMarketModel)
  (r : PredictionAgent * PredictionMarketModel) :
  book_ok model -> In self (schedule model) -> buy self model = Some r ->
  book_ok (commit r).
Proof.
  intros Hok Hin Hbuy.
  assert (Hself : agent_ok self).
  { pose proof (ok_agents _ Hok) as Hag. rewrite Forall_forall in Hag.
    apply Hag. exact Hin. }
  destruct (buy_cases self model (ok_ask_keys _ Hok))
    as [[_ E]|[(rest & x & Hl & _ & E)|(rest & x & _ & _ & E)]];
    rewrite E in Hbuy; injection Hbuy as <-.
  - rewrite commit_same; [exact Hok | apply (ok_ids _ Hok) | exact Hin].
  - apply (book_ok_set_volume
             (commit (place_bid self (set_askers model rest)
                        (update_bid self (Some (snd x)) false)))).
    apply book_ok_place_bid;
      [eapply book_ok_pop_askers; eassumption | exact Hin |].
    apply (update_bid_range self (Some (snd x)) false Hself).
  - apply book_ok_place_bid; [exact Hok | exact Hin |].
    apply (update_bid_range self (Some (snd x)) true Hself).
Qed.

Lemma sell_book_ok (self : PredictionAgent) (model : PredictionMarketModel)
  (r : PredictionAgent * PredictionMarketModel) :
  book_ok model -> In self (schedule model) -> sell self model = Some r ->
  book_ok (commit r).
Proof.
  intros Hok Hin Hsell.
  assert (Hself : agent_ok self).
  { pose proof (ok_agents _ Hok) as Hag. rewrite Forall_forall in Hag.
    apply Hag. exact Hin. }
  destruct (sell_cases self model (ok_bid_keys _ Hok))
    as [[_ E]|[(rest & x & Hl & _ & E)|(rest & x & _ & _ & E)]];
    rewrite E in Hsell; injection Hsell as <-.
  - rewrite commit_same; [exact Hok | apply (ok_ids _ Hok) | exact Hin].
  - apply (book_ok_set_volume
             (commit (place_ask self (set_bidders model rest)
                        (update_ask self (Some (snd x)) false)))).
    apply book_ok_place_ask;
      [eapply book_ok_pop_bidders; eassumption | exact Hin |].
    apply (update_ask_range self (Some (snd x)) false Hself).
  - apply book_ok_place_ask; [exact Hok | exact Hin |].
    apply (update_ask_range self (Some (snd x)) true Hself).
Qed.

Lemma collect_spec (model : PredictionMarketModel) :
  NoDup (keys (bidders model)) -> NoDup (keys (askers model)) ->
  collect model
  = Some (set_datacollector model
            (datacollector model
             ++ [mkReport (best (bidders model)) (best (askers model))
                          (volume model) (schedule model)])).
Proof.
  intros Hb Ha. unfold collect.
  rewrite (get_highest_bid_best _ Hb). cbn [bind].
  rewrite (get_lowest_ask_best _ Ha). reflexivity.
Qed.

Lemma collect_book_ok (model model' : PredictionMarketModel) :
  book_ok model -> collect model = Some model' -> book_ok model'.
Proof.
  intros Hok Hc.
  rewrite (collect_spec _ (ok_bid_keys _ Hok) (ok_ask_keys _ Hok)) in Hc.
  injection Hc as <-. apply book_ok_set_datacollector. exact Hok.
Qed.

(** ** The constructed model *)

Lemma sorted_snoc (before : Q -> Q -> bool) (l : OrderedDict) (x : nat * Q) :
  StronglySorted (in_order before) l ->
  Forall (fun y => in_order before y x) l ->
  StronglySorted (in_order before) (l ++ [x]).
Proof.
  induction 1 as [|y l Hs IH Hall]; simpl; intro Hx.
  - repeat constructor.
  - inversion Hx as [|? ? Hyx Hx']; subst.
    constructor; [apply IH; exact Hx'|].
    apply Forall_app. split; [exact Hall|]. constructor; [exact Hyx|constructor].
Qed.

Lemma NoDup_snoc (l : list nat) (i : nat) :
  NoDup l -> ~ In i l -> NoDup (l ++ [i]).
Proof.
  intros Hnd Hout. apply NoDup_rev in Hnd.
  rewrite <- (rev_involutive (l ++ [i])). apply NoDup_rev.
  rewrite rev_app_distr. simpl. constructor; [|exact Hnd].
  rewrite <- in_rev. exact Hout.
Qed.

Lemma agent_ok_new (p : Q) (i : nat) : agent_ok (mkAgent i (clamp_prob p) 0 1).
Proof.
  pose proof (clamp_prob_range p) as [H0 H1].
  unfold agent_ok, in_range. simpl.
  split; [split; assumption|]. split; split; try lra.
  - rewrite <- f64_0 at 1. apply f64_le. lra.
  - rewrite <- f64_1.
    replace (f64 1) with (f64 0.99 +. f64 0.01) by (vm_compute; reflexivity).
    apply f64_le. lra.
Qed.

Lemma init_agent_ok (p : Q) (i : nat) (model : PredictionMarketModel) :
  book_ok model -> just_created i model ->
  let r := PredictionAgent_init p i model in
  let model' := set_schedule (snd r) (schedule (snd r) ++ [fst r]) in
  book_ok model' /\ just_created (S i) model'.
Proof.
  intros [Hids Hag Hbk Hak Hbq Haq Hbs Has] (Hs & Hb & Ha). simpl.
  assert (Hfb : ~ In i (keys (bidders model))).
  { intro Hin. apply in_map_iff in Hin. destruct Hin as ([k v] & <- & Hin).
    apply Hb in Hin. simpl in Hin. lia. }
  assert (Hfa : ~ In i (keys (askers model))).
  { intro Hin. apply in_map_iff in Hin. destruct Hin as ([k v] & <- & Hin).
    apply Ha in Hin. simpl in Hin. lia. }
  assert (Hfs : ~ In i (map unique_id (schedule model))).
  { intro Hin. apply in_map_iff in Hin. destruct Hin as (a & <- & Hin).
    apply Hs in Hin. lia. }
  rewrite (setitem_fresh _ _ _ Hfb), (setitem_fresh _ _ _ Hfa).
  split.
  - constructor; simpl.
    + rewrite map_app. simpl. apply NoDup_snoc; assumption.
    + apply Forall_app. split; [exact Hag|].
      constructor; [apply agent_ok_new | constructor].
    + unfold keys. rewrite map_app. apply NoDup_snoc; assumption.
    + unfold keys. rewrite map_app. apply NoDup_snoc; assumption.
    + intros k v Hin. apply in_app_or in Hin. destruct Hin as [Hin|[Hin|[]]].
      * destruct (Hbq k v Hin) as (a & H1 & H2 & H3).
        exists a. split; [apply in_or_app; left; exact H1 | split; assumption].
      * injection Hin as <- <-. eexists.
        split; [apply in_or_app; right; left; reflexivity|].
        split; reflexivity.
    + intros k v Hin. apply in_app_or in Hin. destruct Hin as [Hin|[Hin|[]]].
      * destruct (Haq k v Hin) as (a & H1 & H2 & H3).
        exists a. split; [apply in_or_app; left; exact H1 | split; assumption].
      * injection Hin as <- <-. eexists.
        split; [apply in_or_app; right; left; reflexivity|].
        split; reflexivity.
    + apply sorted_snoc; [exact Hbs|]. apply Forall_forall.
      intros [k v] Hin. apply in_order_ascending. simpl.
      destruct (Hb k v Hin) as [_ ->]. lra.
    + apply sorted_snoc; [exact Has|]. apply Forall_forall.
      intros [k v] Hin. apply in_order_descending. simpl.
      destruct (Ha k v Hin) as [_ ->]. lra.
  - repeat split; simpl.
    + apply in_app_or in H. destruct H as [H|[<-|[]]]; [|simpl; lia].
      apply Hs in H. lia.
    + apply in_app_or in H. destruct H as [H|[<-|[]]]; [|reflexivity].
      apply Hs in H. apply H.
    + apply in_app_or in H. destruct H as [H|[<-|[]]]; [|reflexivity].
      apply Hs in H. apply H.
    + apply in_app_or in H. destruct H as [H|[H|[]]].
      * apply Hb in H. lia.
      * injection H as <- _. lia.
    + apply in_app_or in H. destruct H as [H|[H|[]]].
      * apply Hb in H. apply H.
      * injection H as _ <-. reflexivity.
    + apply in_app_or in H. destruct H as [H|[H|[]]].
      * apply Ha in H. lia.
      * injection H as <- _. lia.
    + apply in_app_or in H. destruct H as [H|[H|[]]].
      * apply Ha in H. apply H.
      * injection H as _ <-. reflexivity.
Qed.

Lemma create_agents_ok (draws : list Q) :
  forall (i : nat) (model : PredictionMarketModel),
    book_ok model -> just_created i model ->
    book_ok (create_agents draws i model)
    /\ just_created (length draws + i) (create_agents draws i model).
Proof.
  induction draws as [|p draws IH]; intros i model Hok Hjc.
  - split; assumption.
  - destruct (init_agent_ok p i model Hok Hjc) as [Hok' Hjc'].
    simpl. replace (S (length draws + i)) with (length draws + S i)%nat by lia.
    apply IH; assumption.
Qed.

Lemma init_ok (draws : list Q) :
  book_ok (PredictionMarketModel_init draws)
  /\ just_created (length draws) (PredictionMarketModel_init draws).
Proof.
  unfold PredictionMarketModel_init.
  rewrite <- (Nat.add_0_r (length draws)) at 2.
  apply create_agents_ok.
  - constructor; simpl; try constructor; intros k v [].
  - repeat split; simpl in *; contradiction.
Qed.

(** Every reachable state has a well-formed book. *)
Lemma reachable_book_ok (draws : list Q) (model : PredictionMarketModel) :
  reachable draws model -> book_ok model.
Proof.
  induction 1 as [|m _ IH|m self r _ IH Hin Hb|m self r _ IH Hin Hs
                  |m m' _ IH Hc].
  - apply init_ok.
  - apply book_ok_set_volume. exact IH.
  - eapply buy_book_ok; eassumption.
  - eapply sell_book_ok; eassumption.
  - eapply collect_book_ok; eassumption.
Qed.

(** ** Runs go through reachable states *)

Lemma find_agent_In (uid : nat) (l : list PredictionAgent)
  (a : PredictionAgent) :
  find_agent uid l = Some a -> In a l /\ unique_id a = uid.
Proof.
  induction l as [|b l IH]; simpl; [discriminate|].
  destruct (Nat.eqb_spec (unique_id b) uid) as [E|E].
  - intro H. injection H as <-. split; [left; reflexivity | exact E].
  - intro H. destruct (IH H) as [H1 H2]. split; [right; exact H1 | exact H2].
Qed.

Lemma find_agent_some (uid : nat) (l : list PredictionAgent) :
  In uid (map unique_id l) -> exists a, find_agent uid l = Some a.
Proof.
  induction l as [|b l IH]; simpl; [contradiction|].
  intros [E|Hin].
  - rewrite E, Nat.eqb_refl. eexists; reflexivity.
  - destruct (Nat.eqb (unique_id b) uid); [eexists; reflexivity|].
    apply IH. exact Hin.
Qed.

Lemma buy_total (self : PredictionAgent) (model : PredictionMarketModel) :
  exists r, buy self model = Some r.
Proof.
  unfold buy.
  destruct (0 <? length (askers model))%nat eqn:E; [|eexists; reflexivity].
  unfold get_lowest_ask. rewrite E.
  destruct (popitem_length _ E) as (x & rest & ->). cbn [bind snd fst].
  destruct (price_le _ _).
  - destruct (popitem_nonempty
                (setitem (fst x) (snd x) rest) (setitem_nonempty _ _ _))
      as (y & rest' & Hp).
    simpl. rewrite Hp. simpl. eexists; reflexivity.
  - eexists; reflexivity.
Qed.

Lemma sell_total (self : PredictionAgent) (model : PredictionMarketModel) :
  exists r, sell self model = Some r.
Proof.
  unfold sell.
  destruct (0 <? length (bidders model))%nat eqn:E; [|eexists; reflexivity].
  unfold get_highest_bid. rewrite E.
  destruct (popitem_length _ E) as (x & rest & ->). cbn [bind snd fst].
  destruct (price_ge _ _).
  - destruct (popitem_nonempty
                (setitem (fst x) (snd x) rest) (setitem_nonempty _ _ _))
      as (y & rest' & Hp).
    simpl. rewrite Hp. simpl. eexists; reflexivity.
  - eexists; reflexivity.
Qed.

Lemma buy_with_schedule (self : PredictionAgent)
  (model : PredictionMarketModel) (s : list PredictionAgent) :
  buy self (set_schedule model s)
  = option_map (with_schedule s) (buy self model).
Proof.
  unfold buy, get_lowest_ask. simpl.
  destruct (0 <? length (askers model))%nat; [|reflexivity].
  destruct (popitem (askers model)) as [[x rest]|]; [|reflexivity].
  simpl. destruct (Qle_bool _ _); [|reflexivity].
  destruct (popitem (setitem (fst x) (snd x) rest)) as [[y rest']|];
    reflexivity.
Qed.

Lemma sell_with_schedule (self : PredictionAgent)
  (model : PredictionMarketModel) (s : list PredictionAgent) :
  sell self (set_schedule model s)
  = option_map (with_schedule s) (sell self model).
Proof.
  unfold sell, get_highest_bid. simpl.
  destruct (0 <? length (bidders model))%nat; [|reflexivity].
  destruct (popitem (bidders model)) as [[x rest]|]; [|reflexivity].
  simpl. destruct (Qle_bool _ _); [|reflexivity].
  destruct (popitem (setitem (fst x) (snd x) rest)) as [[y rest']|];
    reflexivity.
Qed.

Lemma buy_keeps (self : PredictionAgent) (model : PredictionMarketModel)
  (r : PredictionAgent * PredictionMarketModel) :
  buy self model = Some r ->
  unique_id (fst r) = unique_id self /\ prob (fst r) = prob self
  /\ ask (fst r) = ask self /\ schedule (snd r) = schedule model
  /\ datacollector (snd r) = datacollector model.
Proof.
  unfold buy, get_lowest_ask.
  destruct (0 <? length (askers model))%nat;
    [|intro H; injection H as <-; repeat split].
  destruct (popitem (askers model)) as [[x rest]|]; [|discriminate].
  simpl. destruct (Qle_bool _ _).
  - destruct (popitem (setitem (fst x) (snd x) rest)) as [[y rest']|];
      [|discriminate].
    simpl. intro H; injection H as <-; repeat split.
  - intro H; injection H as <-; repeat split.
Qed.

Lemma sell_keeps (self : PredictionAgent) (model : PredictionMarketModel)
  (r : PredictionAgent * PredictionMarketModel) :
  sell self model = Some r ->
  unique_id (fst r) = unique_id self /\ prob (fst r) = prob self
  /\ bid (fst r) = bid self /\ schedule (snd r) = schedule model
  /\ datacollector (snd r) = datacollector model.
Proof.
  unfold sell, get_highest_bid.
  destruct (0 <? length (bidders model))%nat;
    [|intro H; injection H as <-; repeat split].
  destruct (popitem (bidders model)) as [[x rest]|]; [|discriminate].
  simpl. destruct (Qle_bool _ _).
  - destruct (popitem (setitem (fst x) (snd x) rest)) as [[y rest']|];
      [|discriminate].
    simpl. intro H; injection H as <-; repeat split.
  - intro H; injection H as <-; repeat split.
Qed.

Lemma agent_step_reachable (draws : list Q) (self : PredictionAgent)
  (model : PredictionMarketModel)
  (r : PredictionAgent * PredictionMarketModel) :
  reachable draws model -> In self (schedule model) ->
  agent_step self model = Some r ->
  reachable draws (commit r).
Proof.
  intros Hr Hin Hstep. unfold agent_step in Hstep.
  destruct (buy self model) as [[self1 model1]|] eqn:Hbuy; [|discriminate].
  cbn [bind] in Hstep.
  destruct (buy_keeps _ _ _ Hbuy) as (Hid1 & _ & _ & Hs1 & _).
  destruct (sell_keeps _ _ _ Hstep) as (Hid2 & _ & _ & Hs2 & _).
  simpl in Hid1, Hs1.
  pose proof (reach_buy draws model self _ Hr Hin Hbuy) as Hr1.
  assert (Hin1 : In self1 (schedule (commit (self1, model1)))).
  { simpl. rewrite Hs1.
    apply (In_store_agent self1 self); [exact Hin | symmetry; exact Hid1]. }
  assert (Hsell : sell self1 (commit (self1, model1))
                  = Some (with_schedule
                            (store_agent self1 (schedule model1)) r)).
  { unfold commit. simpl. rewrite sell_with_schedule, Hstep. reflexivity. }
  pose proof (reach_sell draws _ self1 _ Hr1 Hin1 Hsell) as Hr2.
  replace (commit r)
    with (commit (with_schedule (store_agent self1 (schedule model1)) r));
    [exact Hr2|].
  unfold commit, with_schedule. simpl.
  rewrite store_agent_twice by (symmetry; exact Hid2).
  rewrite Hs2. destruct r as [self2 [n s c b a v]]. reflexivity.
Qed.

Lemma schedule_step_reachable (draws : list Q) (order : list nat) :
  forall model model',
    reachable draws model -> schedule_step order model = Some model' ->
    reachable draws model'.
Proof.
  induction order as [|uid order IH]; simpl; intros model model' Hr Hs.
  - injection Hs as <-. exact Hr.
  - destruct (find_agent uid (schedule model)) as [self|] eqn:Hf;
      [|discriminate].
    cbn [bind] in Hs.
    destruct (agent_step self model) as [r|] eqn:Ha; [|discriminate].
    cbn [bind] in Hs. apply (IH (commit r)); [|exact Hs].
    eapply agent_step_reachable; [exact Hr | | exact Ha].
    apply find_agent_In in Hf. apply Hf.
Qed.

Lemma step_reachable (draws : list Q) (order : list nat)
  (model model' : PredictionMarketModel) :
  reachable draws model -> step order model = Some model' ->
  reachable draws model'.
Proof.
  intros Hr Hs. unfold step in Hs.
  destruct (schedule_step order (set_volume model 0)) as [m1|] eqn:E;
    [|discriminate].
  cbn [bind] in Hs. eapply reach_collect; [|exact Hs].
  eapply schedule_step_reachable; [|exact E].
  apply reach_reset. exact Hr.
Qed.

Lemma run_model_reachable (draws : list Q) (orders : list (list nat)) :
  forall model model',
    reachable draws model -> run_model orders model = Some model' ->
    reachable draws model'.
Proof.
  induction orders as [|order orders IH]; simpl; intros model model' Hr Hs.
  - injection Hs as <-. exact Hr.
  - destruct (step order model) as [m1|] eqn:E; [|discriminate].
    cbn [bind] in Hs. apply (IH m1); [|exact Hs].
    eapply step_reachable; eassumption.
Qed.

(** ** Claims on the quotes and on the removals *)

Lemma reachable_in_range (draws : list Q) (model : PredictionMarketModel)
  (a : PredictionAgent) :
  reachable draws model -> In a (schedule model) -> in_range a.
Proof.
  intros Hr Hin. apply reachable_book_ok in Hr.
  pose proof (ok_agents _ Hr) as Hag. rewrite Forall_forall in Hag.
  destruct (Hag a Hin) as [_ H]. exact H.
Qed.

(** C6. Every agent of the constructed model has bid 0 and ask 1; and in
    every reachable state every agent has [0 <= bid <= prob - 0.01] and
    [prob + 0.01 <= ask <= 1], the two bounds as the floats give them.  A
    buy attempt, a sell attempt and a market step started in a reachable
    state all end in a state where this holds again. *)
Theorem quotes_in_range (draws : list Q) (model : PredictionMarketModel) :
  reachable draws model ->
  (forall a, In a (schedule (PredictionMarketModel_init draws)) ->
     bid a = 0 /\ ask a = 1)
  /\ (forall a, In a (schedule model) -> in_range a)
  /\ (forall self r a, In self (schedule model) ->
        buy self model = Some r -> In a (schedule (commit r)) -> in_range a)
  /\ (forall self r a, In self (schedule model) ->
        sell self model = Some r -> In a (schedule (commit r)) -> in_range a)
  /\ (forall order model' a,
        step order model = Some model' -> In a (schedule model') ->
        in_range a).
Proof.
  intro Hr. split; [|split; [|split; [|split]]].
  - intros a Hin. destruct (init_ok draws) as [_ (Hs & _)].
    apply Hs in Hin. split; apply Hin.
  - intros a Hin. eapply reachable_in_range; eassumption.
  - intros self r a Hin Hb Ha. eapply reachable_in_range; [|exact Ha].
    eapply reach_buy; eassumption.
  - intros self r a Hin Hs Ha. eapply reachable_in_range; [|exact Ha].
    eapply reach_sell; eassumption.
  - intros order model' a Hs Ha. eapply reachable_in_range; [|exact Ha].
    eapply step_reachable; eassumption.
Qed.

(** The agents of the market of beliefs 0.83 and 0.53 as constructed. *)
Lemma quotes_in_range_witness :
  Forall in_range (schedule market_83_53).
Proof.
  apply Forall_forall. intros a Ha.
  destruct (quotes_in_range [0.83; 0.53] market_83_53 (reach_init _))
    as (_ & H & _).
  exact (H a Ha).
Defined.

(** C9. In a reachable state neither [buy] nor [sell] raises: the removal
    of the best pair is never run on an empty dict, since the attempt
    starts only when the dict is not empty and the query of the best quote
    gives the model back as it was. *)
Theorem removal_never_on_empty
  (draws : list Q) (model : PredictionMarketModel) (self : PredictionAgent) :
  reachable draws model ->
  (exists r, buy self model = Some r)
  /\ (exists r, sell self model = Some r)
  /\ (exists p, get_lowest_ask model = Some (p, model))
  /\ (exists p, get_highest_bid model = Some (p, model)).
Proof.
  intro Hr. apply reachable_book_ok in Hr.
  split; [apply buy_total|]. split; [apply sell_total|]. split.
  - exists (best (askers model)).
    apply get_lowest_ask_best, (ok_ask_keys _ Hr).
  - exists (best (bidders model)).
    apply get_highest_bid_best, (ok_bid_keys _ Hr).
Qed.

(** The first buy and the first sell attempt of a market of two agents. *)
Lemma removal_never_on_empty_witness :
  (exists r, buy (mkAgent 0 (f64 0.83) 0 1)
               (PredictionMarketModel_init [0.83; 0.53]) = Some r)
  /\ (exists r, sell (mkAgent 0 (f64 0.83) 0 1)
                  (PredictionMarketModel_init [0.83; 0.53]) = Some r).
Proof.
  destruct (removal_never_on_empty [0.83; 0.53]
              (PredictionMarketModel_init [0.83; 0.53])
              (mkAgent 0 (f64 0.83) 0 1) (reach_init _)) as (Hb & Hs & _).
  split; assumption.
Defined.

(** ** The market without agents *)

Lemma run_empty_market (n : nat) :
  forall rows,
    run_model (repeat [] n) (mkModel 0 [] rows [] [] 0)
    = Some (mkModel 0 [] (rows ++ repeat empty_row n) [] [] 0).
Proof.
  induction n as [|n IH]; intro rows.
  - simpl. rewrite app_nil_r. reflexivity.
  - cbn [repeat run_model].
    change (step [] (mkModel 0 [] rows [] [] 0))
      with (Some (mkModel 0 [] (rows ++ [empty_row]) [] [] 0)).
    cbn [bind]. rewrite IH, <- app_assoc. reflexivity.
Qed.

Lemma orders_of_empty_market (orders : list (list nat)) :
  Forall (valid_order (PredictionMarketModel_init [])) orders ->
  orders = repeat [] (length orders).
Proof.
  induction 1 as [|order orders Ho _ IH]; simpl; [reflexivity|].
  apply Permutation_sym, Permutation_nil in Ho. subst order.
  f_equal. exact IH.
Qed.

(** C8. A market constructed with no agent runs any number of steps
    without raising; every collected row reports no best bid, no best ask
    and volume 0, and the book stays empty. *)
Theorem empty_market (orders : list (list nat)) :
  Forall (valid_order (PredictionMarketModel_init [])) orders ->
  exists model,
    run_model orders (PredictionMarketModel_init []) = Some model
    /\ length (datacollector model) = length orders
    /\ Forall (fun row => bid_price row = nan /\ ask_price row = nan
                          /\ rep_volume row = 0%nat)
              (datacollector model)
    /\ bidders model = [] /\ askers model = [] /\ volume model = 0%nat.
Proof.
  intro Hv. rewrite (orders_of_empty_market orders Hv).
  change (PredictionMarketModel_init []) with (mkModel 0 [] [] [] [] 0).
  rewrite run_empty_market. eexists. split; [reflexivity|]. simpl.
  rewrite !repeat_length. split; [reflexivity|].
  split; [|repeat split].
  apply Forall_forall. intros row Hin. apply repeat_spec in Hin. subst row.
  repeat split.
Qed.

(** Three steps of the market without agents. *)
Lemma empty_market_witness :
  exists model,
    run_model [[]; []; []] (PredictionMarketModel_init []) = Some model
    /\ length (datacollector model) = 3%nat
    /\ Forall (fun row => bid_price row = nan /\ ask_price row = nan
                          /\ rep_volume row = 0%nat)
              (datacollector model)
    /\ bidders model = [] /\ askers model = [] /\ volume model = 0%nat.
Proof.
  apply (empty_market [[]; []; []]).
  repeat constructor.
Defined.

(** ** The best quotes of the book *)

Lemma best_nil_iff (d : OrderedDict) : best d = nan <-> d = [].
Proof.
  destruct (dict_shape d) as [->|(rest & x & ->)].
  - split; reflexivity.
  - rewrite best_app. split; [discriminate|].
    intro H. destruct rest; discriminate.
Qed.

Lemma best_is_last (before : Q -> Q -> bool) (d : OrderedDict) (p : Q) :
  StronglySorted (in_order before) d -> best d = Some p ->
  (exists k, In (k, p) d)
  /\ (forall k v, In (k, v) d -> (k, v) = (k, p) \/ before p v = false).
Proof.
  intros Hs Hb.
  destruct (dict_shape d) as [->|(rest & [k0 v0] & ->)]; [discriminate|].
  rewrite best_app in Hb. injection Hb as <-. simpl.
  split.
  - exists k0. apply in_or_app. right. left. reflexivity.
  - intros k v Hin. apply in_app_or in Hin.
    destruct Hin as [Hin|[Hin|[]]].
    + right. apply sorted_prefix in Hs. destruct Hs as [_ Hall].
      rewrite Forall_forall in Hall. apply (Hall (k, v) Hin).
    + left. injection Hin as -> ->. reflexivity.
Qed.

(** C4, as the code has it. In every reachable state the query of the
    best bid returns the highest price among the pairs the bidders hold
    at that moment, which is the current bid of the agent of that pair, and
    not-a-number exactly when the bidders are empty; the query of the best
    ask returns the lowest price among the pairs the askers hold, and
    not-a-number exactly when they are empty.  Both queries give the model
    back unchanged.  An agent whose pair a trade has removed is not
    counted until it posts again. *)
Theorem best_quotes_of_book (draws : list Q) (model : PredictionMarketModel) :
  reachable draws model ->
  (exists r, get_highest_bid model = Some (r, model)
     /\ (r = nan <-> bidders model = [])
     /\ forall p, r = Some p ->
          (exists a, In a (schedule model) /\ bid a = p
                     /\ In (unique_id a, p) (bidders model))
          /\ (forall k v, In (k, v) (bidders model) -> v <= p))
  /\ (exists r, get_lowest_ask model = Some (r, model)
        /\ (r = nan <-> askers model = [])
        /\ forall p, r = Some p ->
             (exists a, In a (schedule model) /\ ask a = p
                        /\ In (unique_id a, p) (askers model))
             /\ (forall k v, In (k, v) (askers model) -> p <= v)).
Proof.
  intro Hr. apply reachable_book_ok in Hr.
  destruct Hr as [Hids Hag Hbk Hak Hbq Haq Hbs Has].
  split.
  - exists (best (bidders model)).
    split; [apply get_highest_bid_best; exact Hbk|].
    split; [apply best_nil_iff|].
    intros p Hp. destruct (best_is_last _ _ _ Hbs Hp) as [[k Hk] Hmax].
    split.
    + destruct (Hbq k p Hk) as (a & Ha & <- & Hq). exists a.
      repeat split; assumption.
    + intros k' v Hin. destruct (Hmax k' v Hin) as [E|E].
      * injection E as ->. lra.
      * apply Qlt_bool_false_iff in E. exact E.
  - exists (best (askers model)).
    split; [apply get_lowest_ask_best; exact Hak|].
    split; [apply best_nil_iff|].
    intros p Hp. destruct (best_is_last _ _ _ Has Hp) as [[k Hk] Hmin].
    split.
    + destruct (Haq k p Hk) as (a & Ha & <- & Hq). exists a.
      repeat split; assumption.
    + intros k' v Hin. destruct (Hmin k' v Hin) as [E|E].
      * injection E as ->. lra.
      * apply Qlt_bool_false_iff in E. exact E.
Qed.

(** The queries on the market of beliefs 0.83 and 0.53 as constructed. *)
Lemma best_quotes_of_book_witness :
  (exists r, get_highest_bid (PredictionMarketModel_init [0.83; 0.53])
             = Some (r, PredictionMarketModel_init [0.83; 0.53]))
  /\ (exists r, get_lowest_ask (PredictionMarketModel_init [0.83; 0.53])
                = Some (r, PredictionMarketModel_init [0.83; 0.53])).
Proof.
  destruct (best_quotes_of_book [0.83; 0.53]
              (PredictionMarketModel_init [0.83; 0.53]) (reach_init _))
    as [(r1 & H1 & _) (r2 & H2 & _)].
  split; [exists r1; exact H1 | exists r2; exact H2].
Defined.

(** C4, as the claim states it, fails: after the 54 steps of [orders_54] the
    reported best bid is 0.52 while agent 0 has the bid
    0.5400000000000003. *)
Lemma best_bid_not_max_of_agents :
  exists model p a,
    run_model orders_54 market_83_53 = Some model
    /\ Forall (valid_order market_83_53) orders_54
    /\ get_highest_bid model = Some (Some p, model)
    /\ In a (schedule model) /\ unique_id a = 0%nat
    /\ p = f64 0.52 /\ bid a = f64 0.5400000000000003 /\ p < bid a.
Proof.
  assert (Hbest : option_map (fun m => best (bidders m))
                    (run_model orders_54 market_83_53)
                  = Some (Some (f64 0.52)))
    by (vm_compute; reflexivity).
  assert (Hbids : option_map
                    (fun m => map (fun a => (unique_id a, bid a))
                                  (schedule m))
                    (run_model orders_54 market_83_53)
                  = Some [(0%nat, f64 0.5400000000000003);
                          (1%nat, f64 0.52)])
    by (vm_compute; reflexivity).
  assert (Hreach : forall m, run_model orders_54 market_83_53 = Some m ->
                             reachable [0.83; 0.53] m)
    by (intros m Hm; eapply run_model_reachable;
        [apply reach_init | exact Hm]).
  destruct (run_model orders_54 market_83_53) as [model|]; [|discriminate].
  specialize (Hreach model eq_refl).
  apply reachable_book_ok in Hreach.
  simpl in Hbest, Hbids.
  destruct (best (bidders model)) as [p|] eqn:Ep; [|discriminate].
  destruct (schedule model) as [|a l] eqn:Es; [discriminate|].
  cbn [option_map map] in Hbest, Hbids.
  assert (Hp : p = f64 0.52) by congruence.
  assert (Hid : unique_id a = 0%nat) by congruence.
  assert (Hb : bid a = f64 0.5400000000000003) by congruence.
  exists model, p, a.
  split; [reflexivity|].
  split; [apply Forall_forall; intros o Ho; apply repeat_spec in Ho; subst o;
          apply Permutation_refl|].
  split; [rewrite <- Ep; apply get_highest_bid_best, (ok_bid_keys _ Hreach)|].
  split; [rewrite Es; left; reflexivity|]. split; [exact Hid|].
  split; [exact Hp|]. split; [exact Hb|].
  rewrite Hp, Hb. vm_compute. reflexivity.
Qed.

(** ** One pair per agent at most *)

Lemma entries_absent (k : nat) (d : OrderedDict) :
  ~ In k (keys d) -> entries k d = 0%nat.
Proof.
  unfold entries. induction d as [|[k' v] d IH]; simpl; intro H;
    [reflexivity|].
  destruct (Nat.eqb_spec k' k) as [E|E].
  - exfalso. apply H. left. exact E.
  - apply IH. intro Hin. apply H. right. exact Hin.
Qed.

Lemma entries_NoDup (k : nat) (d : OrderedDict) :
  NoDup (keys d) ->
  entries k d = if in_dec Nat.eq_dec k (keys d) then 1%nat else 0%nat.
Proof.
  induction d as [|[k' v] d IH]; simpl; intro Hnd; [reflexivity|].
  inversion Hnd as [|? ? Hout Hnd']; subst.
  unfold entries in *. simpl.
  destruct (Nat.eq_dec k' k) as [E|E].
  - rewrite E, Nat.eqb_refl. simpl. f_equal.
    apply (entries_absent k d). rewrite <- E. exact Hout.
  - rewrite (proj2 (Nat.eqb_neq k' k) E), (IH Hnd').
    destruct (in_dec Nat.eq_dec k (keys d)); reflexivity.
Qed.


Lemma entries_present (k : nat) (v : Q) (d : OrderedDict) :
  NoDup (keys d) -> In (k, v) d -> entries k d = 1%nat.
Proof.
  intros Hnd Hin. rewrite (entries_NoDup k d Hnd).
  destruct (in_dec Nat.eq_dec k (keys d)) as [_|C]; [reflexivity|].
  exfalso. apply C. apply (in_map fst) in Hin. exact Hin.
Qed.

(** In the constructed model every agent has its pair in both dicts. *)
Lemma create_agents_posted (draws : list Q) :
  forall (i : nat) (model : PredictionMarketModel),
    book_ok model -> just_created i model ->
    (forall a, In a (schedule model) ->
       In (unique_id a, bid a) (bidders model)
       /\ In (unique_id a, ask a) (askers model)) ->
    forall a, In a (schedule (create_agents draws i model)) ->
      In (unique_id a, bid a) (bidders (create_agents draws i model))
      /\ In (unique_id a, ask a) (askers (create_agents draws i model)).
Proof.
  induction draws as [|p draws IH]; intros i model Hok Hjc Hp; [exact Hp|].
  destruct (init_agent_ok p i model Hok Hjc) as [Hok' Hjc'].
  simpl. apply IH; [exact Hok' | exact Hjc' |].
  destruct Hjc as (Hs & Hb & Ha).
  assert (Hfb : ~ In i (keys (bidders model))).
  { intro Hin. apply in_map_iff in Hin. destruct Hin as ([k v] & <- & Hin).
    apply Hb in Hin. simpl in Hin. lia. }
  assert (Hfa : ~ In i (keys (askers model))).
  { intro Hin. apply in_map_iff in Hin. destruct Hin as ([k v] & <- & Hin).
    apply Ha in Hin. simpl in Hin. lia. }
  simpl. rewrite (setitem_fresh _ _ _ Hfb), (setitem_fresh _ _ _ Hfa).
  intros a Hin. apply in_app_or in Hin. destruct Hin as [Hin|[E|[]]].
  - destruct (Hp a Hin) as [H1 H2].
    split; apply in_or_app; left; assumption.
  - subst a. split; apply in_or_app; right; left; reflexivity.
Qed.






(** ** All the runs of a market at once *)

Lemma Q_eqb_eq (x y : Q) : Q_eqb x y = true -> x = y.
Proof.
  unfold Q_eqb. destruct x as [a b], y as [c d]. simpl.
  rewrite andb_true_iff, Z.eqb_eq, Pos.eqb_eq. intros [-> ->]. reflexivity.
Qed.

Lemma price_eqb_eq (x y : price) : price_eqb x y = true -> x = y.
Proof.
  destruct x as [a|], y as [b|]; simpl; try discriminate; [|reflexivity].
  intro H. apply Q_eqb_eq in H. congruence.
Qed.

Lemma list_eqb_eq {A : Type} (eqb : A -> A -> bool) :
  (forall x y, eqb x y = true -> x = y) ->
  forall l l', list_eqb eqb l l' = true -> l = l'.
Proof.
  intro Heq. induction l as [|x l IH]; intros [|y l']; simpl;
    try discriminate; [reflexivity|].
  rewrite andb_true_iff. intros [H1 H2].
  apply Heq in H1. apply IH in H2. congruence.
Qed.

Lemma pair_eqb_eq (x y : nat * Q) : pair_eqb x y = true -> x = y.
Proof.
  unfold pair_eqb. destruct x as [k v], y as [k' v']. simpl.
  rewrite andb_true_iff, Nat.eqb_eq. intros [-> H].
  apply Q_eqb_eq in H. congruence.
Qed.

Lemma agent_eqb_eq (a b : PredictionAgent) : agent_eqb a b = true -> a = b.
Proof.
  unfold agent_eqb. destruct a, b. simpl.
  rewrite !andb_true_iff, Nat.eqb_eq. intros [[[-> H1] H2] H3].
  apply Q_eqb_eq in H1, H2, H3. congruence.
Qed.

Lemma report_eqb_eq (r r' : Report) : report_eqb r r' = true -> r = r'.
Proof.
  unfold report_eqb. destruct r, r'. simpl.
  rewrite !andb_true_iff, Nat.eqb_eq. intros [[[H1 H2] ->] H3].
  apply price_eqb_eq in H1, H2.
  apply (list_eqb_eq agent_eqb agent_eqb_eq) in H3. congruence.
Qed.

Lemma model_eqb_eq (m m' : PredictionMarketModel) :
  model_eqb m m' = true -> m = m'.
Proof.
  unfold model_eqb. destruct m, m'. simpl.
  rewrite !andb_true_iff, !Nat.eqb_eq. intros [[[[[-> H1] H2] H3] H4] ->].
  apply (list_eqb_eq agent_eqb agent_eqb_eq) in H1.
  apply (list_eqb_eq report_eqb report_eqb_eq) in H2.
  apply (list_eqb_eq pair_eqb pair_eqb_eq) in H3, H4. congruence.
Qed.

Lemma add_state_incl (m x : PredictionMarketModel)
  (ms : list PredictionMarketModel) :
  In x ms -> In x (add_state m ms).
Proof.
  unfold add_state. destruct (existsb _ ms); [trivial | right; assumption].
Qed.

Lemma add_state_In (m : PredictionMarketModel)
  (ms : list PredictionMarketModel) :
  In m (add_state m ms).
Proof.
  unfold add_state. destruct (existsb (model_eqb m) ms) eqn:E.
  - apply existsb_exists in E. destruct E as (x & Hx & Heq).
    apply model_eqb_eq in Heq. subst x. exact Hx.
  - left. reflexivity.
Qed.

Lemma successors_incl (orders : list (list nat)) (m : PredictionMarketModel) :
  forall acc acc' x,
    successors orders m acc = Some acc' -> In x acc -> In x acc'.
Proof.
  induction orders as [|o orders IH]; simpl; intros acc acc' x Hs Hin.
  - injection Hs as <-. exact Hin.
  - destruct (step o m) as [m'|]; [|discriminate]. cbn [bind] in Hs.
    eapply IH; [exact Hs|]. apply add_state_incl. exact Hin.
Qed.

Lemma successors_step (orders : list (list nat)) (m : PredictionMarketModel)
  (order : list nat) :
  forall acc acc',
    successors orders m acc = Some acc' -> In order orders ->
    exists m', step order m = Some m' /\ In m' acc'.
Proof.
  induction orders as [|o orders IH]; simpl; intros acc acc' Hs Hin;
    [contradiction|].
  destruct (step o m) as [m'|] eqn:E; [|discriminate]. cbn [bind] in Hs.
  destruct Hin as [->|Hin].
  - exists m'. split; [exact E|].
    eapply successors_incl; [exact Hs|]. apply add_state_In.
  - eapply IH; eassumption.
Qed.

Lemma next_states_incl (orders : list (list nat)) :
  forall ms acc acc' x,
    next_states orders ms acc = Some acc' -> In x acc -> In x acc'.
Proof.
  induction ms as [|m ms IH]; simpl; intros acc acc' x Hn Hin.
  - injection Hn as <-. exact Hin.
  - destruct (successors orders m acc) as [acc1|] eqn:E; [|discriminate].
    cbn [bind] in Hn. eapply IH; [exact Hn|].
    eapply successors_incl; eassumption.
Qed.

Lemma next_states_step (orders : list (list nat)) (order : list nat) :
  forall ms acc acc' m,
    next_states orders ms acc = Some acc' -> In m ms -> In order orders ->
    exists m', step order m = Some m' /\ In m' acc'.
Proof.
  induction ms as [|m0 ms IH]; simpl; intros acc acc' m Hn Hin Ho;
    [contradiction|].
  destruct (successors orders m0 acc) as [acc1|] eqn:E; [|discriminate].
  cbn [bind] in Hn. destruct Hin as [->|Hin].
  - destruct (successors_step _ _ _ _ _ E Ho) as (m' & Hs & Hm').
    exists m'. split; [exact Hs|].
    eapply next_states_incl; eassumption.
  - eapply IH; eassumption.
Qed.

(** Every run along orders of [orders] ends in a state of the frontier. *)
Lemma frontier_sound (orders : list (list nat)) (os : list (list nat)) :
  forall ms final m,
    Forall (fun o => In o orders) os ->
    frontier orders (length os) ms = Some final -> In m ms ->
    exists m', run_model os m = Some m' /\ In m' final.
Proof.
  induction os as [|o os IH]; simpl; intros ms final m Hos Hf Hin.
  - injection Hf as <-. exists m. split; [reflexivity | exact Hin].
  - inversion Hos as [|? ? Ho Hos']; subst.
    destruct (next_states orders ms []) as [ms1|] eqn:E; [|discriminate].
    cbn [bind] in Hf.
    destruct (next_states_step _ _ _ _ _ _ E Hin Ho) as (m1 & Hs & Hm1).
    rewrite Hs. cbn [bind]. eapply IH; eassumption.
Qed.

(** ** Steps and runs never raise, and add one row each *)

Lemma get_highest_bid_keeps (model model' : PredictionMarketModel)
  (p : price) :
  get_highest_bid model = Some (p, model') ->
  schedule model' = schedule model
  /\ datacollector model' = datacollector model
  /\ volume model' = volume model /\ askers model' = askers model.
Proof.
  unfold get_highest_bid.
  destruct (0 <? length (bidders model))%nat;
    [|intro H; injection H as _ <-; repeat split].
  destruct (popitem (bidders model)) as [[x rest]|]; [|discriminate].
  simpl. intro H; injection H as _ <-; repeat split.
Qed.

Lemma get_lowest_ask_keeps (model model' : PredictionMarketModel)
  (p : price) :
  get_lowest_ask model = Some (p, model') ->
  schedule model' = schedule model
  /\ datacollector model' = datacollector model
  /\ volume model' = volume model /\ bidders model' = bidders model.
Proof.
  unfold get_lowest_ask.
  destruct (0 <? length (askers model))%nat;
    [|intro H; injection H as _ <-; repeat split].
  destruct (popitem (askers model)) as [[x rest]|]; [|discriminate].
  simpl. intro H; injection H as _ <-; repeat split.
Qed.

Lemma collect_total (model : PredictionMarketModel) :
  exists row,
    collect model
    = Some (set_datacollector
              (snd (match get_highest_bid model with
                    | Some (_, m1) =>
                        match get_lowest_ask m1 with
                        | Some r => r
                        | None => (nan, m1)
                        end
                    | None => (nan, model)
                    end))
              (datacollector model ++ [row]))
    /\ rep_volume row = volume model.
Proof.
  unfold collect.
  destruct (get_highest_bid_total model) as [[b m1] Hb]. rewrite Hb.
  cbn [bind].
  destruct (get_lowest_ask_total m1) as [[a m2] Ha]. rewrite Ha.
  cbn [bind snd].
  destruct (get_highest_bid_keeps _ _ _ Hb) as (Hs1 & Hd1 & Hv1 & _).
  destruct (get_lowest_ask_keeps _ _ _ Ha) as (Hs2 & Hd2 & Hv2 & _).
  eexists. split.
  - rewrite Hd2, Hd1. reflexivity.
  - unfold compute_volume. simpl. congruence.
Qed.

Lemma collect_keeps (model model' : PredictionMarketModel) :
  collect model = Some model' ->
  schedule model' = schedule model
  /\ exists row, datacollector model' = datacollector model ++ [row]
                 /\ rep_volume row = volume model.
Proof.
  intro Hc. destruct (collect_total model) as (row & E & Hv).
  rewrite E in Hc. injection Hc as <-. simpl.
  split; [|exists row; split; [reflexivity | exact Hv]].
  destruct (get_highest_bid_total model) as [[b m1] Hb]. rewrite Hb.
  destruct (get_lowest_ask_total m1) as [[a m2] Ha]. rewrite Ha. simpl.
  destruct (get_highest_bid_keeps _ _ _ Hb) as (Hs1 & _).
  destruct (get_lowest_ask_keeps _ _ _ Ha) as (Hs2 & _). congruence.
Qed.

Lemma agent_step_total (self : PredictionAgent)
  (model : PredictionMarketModel) :
  exists r, agent_step self model = Some r.
Proof.
  unfold agent_step. destruct (buy_total self model) as [[s1 m1] ->].
  cbn [bind]. apply sell_total.
Qed.

Lemma agent_step_keeps (self : PredictionAgent)
  (model : PredictionMarketModel)
  (r : PredictionAgent * PredictionMarketModel) :
  agent_step self model = Some r ->
  unique_id (fst r) = unique_id self /\ prob (fst r) = prob self
  /\ schedule (snd r) = schedule model
  /\ datacollector (snd r) = datacollector model.
Proof.
  unfold agent_step.
  destruct (buy self model) as [[s1 m1]|] eqn:Hb; [|discriminate].
  cbn [bind]. intro Hs.
  destruct (buy_keeps _ _ _ Hb) as (H1 & H2 & _ & H3 & H4).
  destruct (sell_keeps _ _ _ Hs) as (H5 & H6 & _ & H7 & H8).
  simpl in *. repeat split; congruence.
Qed.

Lemma schedule_step_keeps (order : list nat) :
  forall model model',
    schedule_step order model = Some model' ->
    map unique_id (schedule model') = map unique_id (schedule model)
    /\ datacollector model' = datacollector model.
Proof.
  induction order as [|uid order IH]; simpl; intros model model' Hs.
  - injection Hs as <-. split; reflexivity.
  - destruct (find_agent uid (schedule model)) as [self|]; [|discriminate].
    cbn [bind] in Hs.
    destruct (agent_step self model) as [r|] eqn:Ha; [|discriminate].
    cbn [bind] in Hs. destruct (IH _ _ Hs) as [H1 H2].
    destruct (agent_step_keeps _ _ _ Ha) as (_ & _ & H3 & H4).
    simpl in H1, H2. rewrite store_agent_ids in H1. split; congruence.
Qed.

Lemma schedule_step_total (order : list nat) :
  forall model,
    incl order (map unique_id (schedule model)) ->
    exists model', schedule_step order model = Some model'.
Proof.
  induction order as [|uid order IH]; simpl; intros model Hincl.
  - eexists; reflexivity.
  - destruct (find_agent_some uid (schedule model)) as [self Hf];
      [apply Hincl; left; reflexivity|].
    rewrite Hf. cbn [bind].
    destruct (agent_step_total self model) as [r Ha]. rewrite Ha.
    cbn [bind]. apply IH. simpl. rewrite store_agent_ids.
    destruct (agent_step_keeps _ _ _ Ha) as (_ & _ & Hs & _). rewrite Hs.
    intros x Hx. apply Hincl. right. exact Hx.
Qed.

Lemma step_total (order : list nat) (model : PredictionMarketModel) :
  valid_order model order ->
  exists model', step order model = Some model'.
Proof.
  intro Hv. unfold step.
  destruct (schedule_step_total order (set_volume model 0)) as [m1 Hs].
  { intros x Hx. simpl. eapply Permutation_in; eassumption. }
  rewrite Hs. cbn [bind].
  destruct (collect_total m1) as (row & -> & _). eexists; reflexivity.
Qed.

Lemma step_keeps (order : list nat) (model model' : PredictionMarketModel) :
  step order model = Some model' ->
  map unique_id (schedule model') = map unique_id (schedule model)
  /\ exists row, datacollector model' = datacollector model ++ [row].
Proof.
  unfold step. intro Hs.
  destruct (schedule_step order (set_volume model 0)) as [m1|] eqn:E;
    [|discriminate].
  cbn [bind] in Hs.
  destruct (schedule_step_keeps _ _ _ E) as [H1 H2].
  destruct (collect_keeps _ _ Hs) as (H3 & row & H4 & _).
  simpl in H1, H2. split; [congruence|].
  exists row. congruence.
Qed.

Lemma valid_order_ids (m m' : PredictionMarketModel) (order : list nat) :
  map unique_id (schedule m') = map unique_id (schedule m) ->
  valid_order m order -> valid_order m' order.
Proof. unfold valid_order. intros ->. trivial. Qed.

Lemma run_model_total (orders : list (list nat)) :
  forall model,
    Forall (valid_order model) orders ->
    exists model',
      run_model orders model = Some model'
      /\ map unique_id (schedule model') = map unique_id (schedule model)
      /\ exists rows, datacollector model' = datacollector model ++ rows
                      /\ length rows = length orders.
Proof.
  induction orders as [|o orders IH]; simpl; intros model Hv.
  - exists model. repeat split. exists []. rewrite app_nil_r.
    split; reflexivity.
  - inversion Hv as [|? ? Ho Hos]; subst.
    destruct (step_total o model Ho) as [m1 Hs]. rewrite Hs. cbn [bind].
    destruct (step_keeps _ _ _ Hs) as (Hids & row & Hrow).
    destruct (IH m1) as (m2 & Hr & Hids2 & rows & Hrows & Hlen).
    { eapply Forall_impl; [|exact Hos].
      intros a Ha. eapply valid_order_ids; eassumption. }
    exists m2. split; [exact Hr|]. split; [congruence|].
    exists (row :: rows). split; [|simpl; congruence].
    rewrite Hrows, Hrow, <- app_assoc. reflexivity.
Qed.

Lemma run_model_app (os1 os2 : list (list nat)) :
  forall model,
    run_model (os1 ++ os2) model
    = (m1 <- run_model os1 model ;; run_model os2 m1).
Proof.
  induction os1 as [|o os1 IH]; simpl; intro model; [reflexivity|].
  destruct (step o model) as [m1|]; [|reflexivity].
  cbn [bind]. apply IH.
Qed.

(** ** The market of beliefs 0.90 and 0.10 *)

Lemma beliefs_store (self self' : PredictionAgent)
  (l : list PredictionAgent) :
  NoDup (map unique_id l) -> In self l ->
  unique_id self' = unique_id self -> prob self' = prob self ->
  map (fun a => (unique_id a, prob a)) (store_agent self' l)
  = map (fun a => (unique_id a, prob a)) l.
Proof.
  intros Hnd Hin Hid Hp. unfold store_agent. rewrite map_map.
  apply map_ext_in. intros a Ha.
  destruct (Nat.eqb_spec (unique_id a) (unique_id self')) as [E|E];
    [|reflexivity].
  assert (a = self) by (eapply same_id_same_agent; eauto; congruence).
  subst a. congruence.
Qed.

Lemma reachable_beliefs (draws : list Q) (model : PredictionMarketModel) :
  reachable draws model ->
  beliefs model = beliefs (PredictionMarketModel_init draws).
Proof.
  unfold beliefs.
  induction 1 as [|m _ IH|m self r Hr IH Hin Hb|m self r Hr IH Hin Hs
                  |m m' _ IH Hc].
  - reflexivity.
  - exact IH.
  - destruct (buy_keeps _ _ _ Hb) as (Hid & Hp & _ & Hsch & _).
    simpl. rewrite Hsch, <- IH.
    eapply beliefs_store; try eassumption.
    apply (ok_ids _ (reachable_book_ok _ _ Hr)).
  - destruct (sell_keeps _ _ _ Hs) as (Hid & Hp & _ & Hsch & _).
    simpl. rewrite Hsch, <- IH.
    eapply beliefs_store; try eassumption.
    apply (ok_ids _ (reachable_book_ok _ _ Hr)).
  - destruct (collect_keeps _ _ Hc) as [Hsch _]. rewrite Hsch. exact IH.
Qed.

(** The quotes of the two agents stay on their own side of their
    beliefs: the bid of agent 1 never reaches the ask of agent 0. *)
Lemma bounds_90_10 (model : PredictionMarketModel) (a : PredictionAgent) :
  reachable [0.90; 0.10] model -> In a (schedule model) ->
  (unique_id a = 0%nat -> bid a <= f64 0.89 /\ f64 0.91 <= ask a)
  /\ (unique_id a = 1%nat ->
      bid a <= f64 0.09000000000000001 /\ f64 0.11 <= ask a).
Proof.
  intros Hr Hin.
  pose proof (reachable_in_range _ _ _ Hr Hin) as [[_ Hb] [Ha _]].
  pose proof (reachable_beliefs _ _ Hr) as Hbel.
  assert (Hp : In (unique_id a, prob a) (beliefs model)).
  { unfold beliefs. apply in_map_iff. exists a. split; [reflexivity|exact Hin]. }
  rewrite Hbel in Hp.
  change (beliefs (PredictionMarketModel_init [0.90; 0.10]))
    with [(0%nat, clamp_prob 0.90); (1%nat, clamp_prob 0.10)] in Hp.
  assert (E0 : clamp_prob 0.90 -. f64 0.01 = f64 0.89
               /\ clamp_prob 0.90 +. f64 0.01 = f64 0.91)
    by (split; vm_compute; reflexivity).
  assert (E1 : clamp_prob 0.10 -. f64 0.01 = f64 0.09000000000000001
               /\ clamp_prob 0.10 +. f64 0.01 = f64 0.11)
    by (split; vm_compute; reflexivity).
  destruct E0 as [E0 E0'], E1 as [E1 E1'].
  destruct Hp as [Hp|[Hp|[]]].
  - assert (Hid : unique_id a = 0%nat) by congruence.
    assert (Hprob : prob a = clamp_prob 0.90) by congruence.
    rewrite Hprob, ?E0, ?E0' in Hb, Ha.
    split; intro Hk; [split; assumption | congruence].
  - assert (Hid : unique_id a = 1%nat) by congruence.
    assert (Hprob : prob a = clamp_prob 0.10) by congruence.
    rewrite Hprob, ?E1, ?E1' in Hb, Ha.
    split; intro Hk; [congruence | split; assumption].
Qed.

Lemma valid_order_90_10 (order : list nat) :
  valid_order market_90_10 order <-> In order two_orders.
Proof.
  unfold valid_order.
  change (map unique_id (schedule market_90_10)) with [0; 1]%nat.
  split.
  - intro Hp. apply Permutation_sym, Permutation_length_2_inv in Hp.
    destruct Hp as [->| ->]; [left | right; left]; reflexivity.
  - intros [<-|[<-|[]]]; [apply Permutation_refl | apply perm_swap].
Qed.

(** All the runs of 51 steps report the same volumes. *)
Lemma frontier_90_10 :
  exists final,
    frontier two_orders 51 [market_90_10] = Some final
    /\ Forall (fun m => volumes m = volumes_90_10) final.
Proof.
  assert (Hcheck :
            match frontier two_orders 51 [market_90_10] with
            | Some final =>
                forallb (fun m => list_eqb Nat.eqb (volumes m) volumes_90_10)
                        final
            | None => false
            end = true) by (vm_compute; reflexivity).
  destruct (frontier two_orders 51 [market_90_10]) as [final|];
    [|discriminate].
  exists final. split; [reflexivity|].
  rewrite forallb_forall in Hcheck. apply Forall_forall. intros m Hm.
  apply (list_eqb_eq Nat.eqb); [|apply Hcheck; exact Hm].
  intros x y. apply Nat.eqb_eq.
Qed.

Lemma run_51_steps (orders : list (list nat)) :
  Forall (valid_order market_90_10) orders -> length orders = 51%nat ->
  exists model,
    run_model orders market_90_10 = Some model
    /\ volumes model = volumes_90_10.
Proof.
  intros Hv Hlen. destruct frontier_90_10 as (final & Hf & Hall).
  destruct (frontier_sound two_orders orders [market_90_10] final
              market_90_10) as (m & Hrun & Hin).
  - eapply Forall_impl; [|exact Hv]. intros o. apply valid_order_90_10.
  - rewrite Hlen. exact Hf.
  - left. reflexivity.
  - exists m. split; [exact Hrun|].
    rewrite Forall_forall in Hall. apply Hall. exact Hin.
Qed.

(** C2, as the code has it. In the market of the two agents of beliefs
    0.90 and 0.10, started from bid 0 and ask 1, the quotes stay within
    the bounds of the beliefs in every run: bid at most 0.90 - 0.01 = 0.89
    and ask at least 0.90 + 0.01 = 0.91 for the first agent, bid at most
    0.10 - 0.01 = 0.09000000000000001 and ask at least 0.10 + 0.01 = 0.11
    for the second, as the floats come out; so the bid of the second agent
    stays under the ask of the first.  But the bid of the first agent and
    the ask of the second pass each other after 50 steps: whatever the
    visiting orders, a run reports volume 0 in each of its first 50 steps
    and volume 1 in step 51. *)
Theorem far_apart_beliefs_do_trade (orders : list (list nat)) :
  Forall (valid_order market_90_10) orders ->
  exists model,
    run_model orders market_90_10 = Some model
    /\ firstn 51 (volumes model) = firstn (length orders) volumes_90_10
    /\ (forall a, In a (schedule model) ->
          (unique_id a = 0%nat -> bid a <= f64 0.89 /\ f64 0.91 <= ask a)
          /\ (unique_id a = 1%nat ->
              bid a <= f64 0.09000000000000001 /\ f64 0.11 <= ask a))
    /\ (forall a b, In a (schedule model) -> In b (schedule model) ->
          unique_id a = 1%nat -> unique_id b = 0%nat -> bid a < ask b).
Proof.
  intro Hv.
  destruct (run_model_total orders market_90_10 Hv)
    as (model & Hrun & Hids & rows & Hrows & Hlen).
  exists model. split; [exact Hrun|]. split.
  - change (datacollector market_90_10) with (@nil Report) in Hrows.
    simpl in Hrows.
    assert (Hvl : length (volumes model) = length orders).
    { unfold volumes. rewrite Hrows, length_map. exact Hlen. }
    destruct (Nat.le_gt_cases 51 (length orders)) as [Hge|Hlt].
    + (* the first 51 steps of a longer run *)
      rewrite <- (firstn_skipn 51 orders) in Hrun, Hv.
      rewrite run_model_app in Hrun. apply Forall_app in Hv.
      destruct Hv as [Hv1 Hv2].
      destruct (run_51_steps (firstn 51 orders) Hv1) as (m1 & Hr1 & Hvol1).
      { rewrite length_firstn. lia. }
      rewrite Hr1 in Hrun. cbn [bind] in Hrun.
      destruct (run_model_total (skipn 51 orders) m1)
        as (m2 & Hr2 & _ & rows2 & Hrows2 & _).
      { eapply Forall_impl; [|exact Hv2]. intros o Ho.
        eapply valid_order_ids; [|exact Ho].
        destruct (run_model_total (firstn 51 orders) market_90_10 Hv1)
          as (m1' & Hr1' & Hids1 & _).
        congruence. }
      assert (m2 = model) by congruence. subst m2.
      unfold volumes in *. rewrite Hrows2, map_app, Hvol1.
      rewrite firstn_app.
      change (length volumes_90_10) with 51%nat.
      rewrite Nat.sub_diag. simpl firstn at 2. rewrite app_nil_r.
      rewrite !firstn_all2; [reflexivity | | ];
        change (length volumes_90_10) with 51%nat; lia.
    + (* a shorter run, continued up to 51 steps *)
      set (pad := repeat [0; 1]%nat (51 - length orders)).
      assert (Hvp : Forall (valid_order market_90_10) pad).
      { apply Forall_forall. intros o Ho. apply repeat_spec in Ho. subst o.
        apply valid_order_90_10. left. reflexivity. }
      destruct (run_51_steps (orders ++ pad)) as (m2 & Hr2 & Hvol2).
      { apply Forall_app. split; assumption. }
      { rewrite length_app. unfold pad. rewrite repeat_length. lia. }
      rewrite run_model_app, Hrun in Hr2. cbn [bind] in Hr2.
      destruct (run_model_total pad model)
        as (m2' & Hr2' & _ & rows2 & Hrows2 & Hlen2).
      { eapply Forall_impl; [|exact Hvp]. intros o Ho.
        eapply valid_order_ids; [|exact Ho]. exact Hids. }
      assert (m2' = m2) by congruence. subst m2'.
      unfold volumes in *. rewrite Hrows2, map_app in Hvol2.
      rewrite <- Hvol2, firstn_app, <- Hvl.
      rewrite Nat.sub_diag. simpl firstn at 3. rewrite app_nil_r.
      rewrite firstn_all. apply firstn_all2. lia.
  - assert (Hreach : reachable [0.90; 0.10] model)
      by (eapply run_model_reachable; [apply reach_init | exact Hrun]).
    split.
    + intros a Hin. apply (bounds_90_10 model a); assumption.
    + intros a b Ha Hb Hida Hidb.
      destruct (bounds_90_10 model a Hreach Ha) as [_ H1].
      destruct (bounds_90_10 model b Hreach Hb) as [H0 _].
      destruct (H1 Hida) as [Hbid _]. destruct (H0 Hidb) as [_ Hask].
      assert (Hlt : f64 0.09000000000000001 < f64 0.91)
        by (vm_compute; reflexivity).
      lra.
Qed.

(** The run of 51 steps in the order 0, 1. *)
Lemma far_apart_beliefs_do_trade_witness :
  exists model,
    run_model (repeat [0; 1]%nat 51) market_90_10 = Some model
    /\ firstn 51 (volumes model) = firstn 51 volumes_90_10.
Proof.
  destruct (far_apart_beliefs_do_trade (repeat [0; 1]%nat 51))
    as (model & Hrun & Hvol & _).
  - apply Forall_forall. intros o Ho. apply repeat_spec in Ho. subst o.
    apply Permutation_refl.
  - exists model. split; [exact Hrun|].
    rewrite repeat_length in Hvol. exact Hvol.
Defined.

(** C2, as the claim states it, fails: the run that visits the agents in
    the order 0, 1 has a trade in step 51, when the bid of the first
    agent, 0.5000000000000002 after 50 raises, is over the ask of the
    second, 0.49999999999999956 after 50 cuts. *)
Lemma far_apart_beliefs_not_silent :
  exists model,
    run_model (repeat [0; 1]%nat 51) market_90_10 = Some model
    /\ Forall (valid_order market_90_10) (repeat [0; 1]%nat 51)
    /\ volumes model = repeat 0%nat 50 ++ [1%nat]
    /\ fold_right Nat.add 0%nat (volumes model) <> 0%nat.
Proof.
  assert (Hobs : option_map volumes
                   (run_model (repeat [0; 1]%nat 51) market_90_10)
                 = Some (repeat 0%nat 50 ++ [1%nat]))
    by (vm_compute; reflexivity).
  destruct (run_model (repeat [0; 1]%nat 51) market_90_10) as [model|];
    [|discriminate].
  injection Hobs as Hvol. exists model.
  split; [reflexivity|]. split.
  - apply Forall_forall. intros o Ho. apply repeat_spec in Ho. subst o.
    apply Permutation_refl.
  - split; [exact Hvol|]. rewrite Hvol. vm_compute. discriminate.
Qed.

(** ** One matching pair in a market of two agents *)




Section TwoAgents.

Variables (n : nat) (rows : list Report) (v : nat).
Variables (px bx ax py by_ ay : Q).

Hypothesis Hx : agent_ok (mkAgent 0 px bx ax).
Hypothesis Hy : agent_ok (mkAgent 1 py by_ ay).








End TwoAgents.






Lemma book_ok_market_of_two : book_ok market_of_two.
Proof.
  constructor; cbn [market_of_two schedule bidders askers map keys fst
                    unique_id].
  - repeat constructor; simpl; intuition discriminate.
  - repeat apply Forall_cons; [| |apply Forall_nil];
      (split; [|split]; split; vm_compute; discriminate).
  - repeat constructor; simpl; intuition discriminate.
  - repeat constructor; simpl; intuition discriminate.
  - intros k p [E|[E|[]]];
      [exists (mkAgent 1 (f64 0.10) (f64 0.09) (f64 0.50))
      |exists (mkAgent 0 (f64 0.90) (f64 0.50) (f64 0.91))];
      (split; [simpl; auto|]); split; cbn [unique_id bid]; congruence.
  - intros k p [E|[E|[]]];
      [exists (mkAgent 0 (f64 0.90) (f64 0.50) (f64 0.91))
      |exists (mkAgent 1 (f64 0.10) (f64 0.09) (f64 0.50))];
      (split; [simpl; auto|]); split; cbn [unique_id ask]; congruence.
  - repeat (apply SSorted_cons || apply SSorted_nil
            || apply Forall_cons || apply Forall_nil).
    vm_compute. reflexivity.
  - repeat (apply SSorted_cons || apply SSorted_nil
            || apply Forall_cons || apply Forall_nil).
    vm_compute. reflexivity.
Qed.




(** The two visiting orders need not agree.  In the market of beliefs
    0.46 and 0.51, after the 56 steps of [orders_56], both agents have
    their quotes in the book and the bid 0.5 of agent 1 is over the ask
    0.49000000000000005 of agent 0.  The step that visits the seller first
    ends with volume 2, since 0.49000000000000005 + 0.01 is 0.5 as floats;
    the step that visits the buyer first ends with volume 1, since
    0.5 - 0.01 is 0.49. *)
Lemma orders_need_not_agree :
  exists pre,
    run_model orders_56 market_46_51 = Some pre
    /\ bidders pre = [(0%nat, f64 0.45); (1%nat, f64 0.5)]
    /\ askers pre = [(1%nat, f64 0.52); (0%nat, f64 0.49000000000000005)]
    /\ matching_pairs pre = [(1, 0)]%nat
    /\ option_map volume (step [0; 1]%nat pre) = Some 2%nat
    /\ option_map volume (step [1; 0]%nat pre) = Some 1%nat.
Proof.
  assert (Hobs : option_map
                   (fun m => (bidders m, askers m, matching_pairs m,
                              option_map volume (step [0; 1]%nat m),
                              option_map volume (step [1; 0]%nat m)))
                   (run_model orders_56 market_46_51)
                 = Some ([(0%nat, f64 0.45); (1%nat, f64 0.5)],
                         [(1%nat, f64 0.52);
                          (0%nat, f64 0.49000000000000005)],
                         [(1, 0)]%nat, Some 2%nat, Some 1%nat))
    by (vm_compute; reflexivity).
  destruct (run_model orders_56 market_46_51) as [pre|]; [|discriminate].
  cbn [option_map] in Hobs. exists pre.
  split; [reflexivity|]. repeat split; congruence.
Qed.



(** ** The constructed model, in closed form *)

Lemma create_agents_closed (draws : list Q) :
  forall (i : nat) (model : PredictionMarketModel),
    (forall k, In k (keys (bidders model)) -> (k < i)%nat) ->
    (forall k, In k (keys (askers model)) -> (k < i)%nat) ->
    create_agents draws i model
    = mkModel (num_agents model)
              (schedule model ++ new_agents i draws)
              (datacollector model)
              (bidders model
               ++ map (fun k => (k, 0)) (seq i (length draws)))
              (askers model
               ++ map (fun k => (k, 1)) (seq i (length draws)))
              (volume model).
Proof.
  induction draws as [|p draws IH]; intros i model Hb Ha.
  - simpl. rewrite !app_nil_r. destruct model; reflexivity.
  - assert (Hfb : ~ In i (keys (bidders model)))
      by (intro H; apply Hb in H; lia).
    assert (Hfa : ~ In i (keys (askers model)))
      by (intro H; apply Ha in H; lia).
    cbn [create_agents PredictionAgent_init]. simpl.
    rewrite (setitem_fresh _ _ _ Hfb), (setitem_fresh _ _ _ Hfa).
    rewrite IH; simpl.
    + rewrite <- !app_assoc. reflexivity.
    + intros k Hk. unfold keys in Hk. rewrite map_app in Hk.
      apply in_app_or in Hk. destruct Hk as [Hk|[<-|[]]]; [|simpl; lia].
      apply Hb in Hk. lia.
    + intros k Hk. unfold keys in Hk. rewrite map_app in Hk.
      apply in_app_or in Hk. destruct Hk as [Hk|[<-|[]]]; [|simpl; lia].
      apply Ha in Hk. lia.
Qed.

Lemma new_agents_ids (draws : list Q) :
  forall i, map unique_id (new_agents i draws) = seq i (length draws).
Proof.
  induction draws as [|p draws IH]; intro i; simpl; [reflexivity|].
  rewrite IH. reflexivity.
Qed.

Lemma new_agents_probs (draws : list Q) :
  forall i, map prob (new_agents i draws) = map clamp_prob draws.
Proof.
  induction draws as [|p draws IH]; intro i; simpl; [reflexivity|].
  rewrite IH. reflexivity.
Qed.

Lemma new_agents_quotes (draws : list Q) :
  forall i a, In a (new_agents i draws) -> bid a = 0 /\ ask a = 1.
Proof.
  induction draws as [|p draws IH]; intros i a; simpl; [contradiction|].
  intros [<-|Hin]; [split; reflexivity|]. eapply IH. exact Hin.
Qed.

(** X1. The model constructed from [N] draws has the agents of keys
    [0 .. N-1] in that order, their beliefs the clamped draws, every bid 0
    and every ask 1; the bidders hold [(k, 0)] and the askers [(k, 1)] for
    [k = 0 .. N-1] in the order of creation; the volume is 0 and nothing
    has been collected. *)
Theorem constructed_model (draws : list Q) :
  let model := PredictionMarketModel_init draws in
  let N := length draws in
  num_agents model = N
  /\ map unique_id (schedule model) = seq 0 N
  /\ map prob (schedule model) = map clamp_prob draws
  /\ Forall (fun a => bid a = 0 /\ ask a = 1) (schedule model)
  /\ bidders model = map (fun k => (k, 0)) (seq 0 N)
  /\ askers model = map (fun k => (k, 1)) (seq 0 N)
  /\ volume model = 0%nat
  /\ datacollector model = [].
Proof.
  unfold PredictionMarketModel_init.
  rewrite create_agents_closed by (simpl; intros k []).
  simpl. repeat split.
  - apply new_agents_ids.
  - apply new_agents_probs.
  - apply Forall_forall. intros a Ha. eapply new_agents_quotes. exact Ha.
Qed.

(** ** Posting a quote *)

Lemma StronglySorted_ext (R R' : nat * Q -> nat * Q -> Prop)
  (l : OrderedDict) :
  (forall x y, R x y <-> R' x y) ->
  StronglySorted R l -> StronglySorted R' l.
Proof.
  intros Heq. induction 1 as [|x l Hs IH Hall]; constructor; [exact IH|].
  eapply Forall_impl; [|exact Hall]. intros y. apply Heq.
Qed.


(** ** Quotes that find no trade *)

Lemma iter_raise_keeps (n : nat) (self : PredictionAgent) :
  unique_id (Nat.iter n raise_bid self) = unique_id self
  /\ prob (Nat.iter n raise_bid self) = prob self
  /\ ask (Nat.iter n raise_bid self) = ask self.
Proof.
  induction n as [|n IH]; simpl; [repeat split | exact IH].
Qed.

Lemma iter_lower_keeps (n : nat) (self : PredictionAgent) :
  unique_id (Nat.iter n lower_ask self) = unique_id self
  /\ prob (Nat.iter n lower_ask self) = prob self
  /\ bid (Nat.iter n lower_ask self) = bid self.
Proof.
  induction n as [|n IH]; simpl; [repeat split | exact IH].
Qed.

Lemma raise_bid_ok (self : PredictionAgent) :
  agent_ok self -> agent_ok (raise_bid self).
Proof.
  intro H. apply agent_ok_set_bid; [exact H | apply update_bid_range, H].
Qed.

Lemma lower_ask_ok (self : PredictionAgent) :
  agent_ok self -> agent_ok (lower_ask self).
Proof.
  intro H. apply agent_ok_set_ask; [exact H | apply update_ask_range, H].
Qed.

Lemma iter_raise_ok (n : nat) (self : PredictionAgent) :
  agent_ok self -> agent_ok (Nat.iter n raise_bid self).
Proof.
  intro H. induction n as [|n IH]; [exact H|]. apply raise_bid_ok, IH.
Qed.

Lemma iter_lower_ok (n : nat) (self : PredictionAgent) :
  agent_ok self -> agent_ok (Nat.iter n lower_ask self).
Proof.
  intro H. induction n as [|n IH]; [exact H|]. apply lower_ask_ok, IH.
Qed.

(** One raise: the bid does not go down, it stays at the stop once
    there, and it gains 0.0099 at least when it does not reach the stop. *)
Lemma raise_bid_step (self : PredictionAgent) :
  agent_ok self ->
  bid self <= bid (raise_bid self)
  /\ (bid self == prob self -. f64 0.01 ->
      bid (raise_bid self) = prob self -. f64 0.01)
  /\ (bid (raise_bid self) = prob self -. f64 0.01
      \/ bid self + 0.0099 <= bid (raise_bid self)).
Proof.
  intros [[? ?] [[? ?] [? ?]]].
  pose proof f64_cent as [? ?]. pose proof f64_99 as [? ?].
  unfold raise_bid, update_bid. cbn [bid set_bid].
  f64_bounds.
  destruct (Qle_bool _ _) eqn:E; qtests.
  - split; [lra|]. split; [reflexivity | left; reflexivity].
  - split; [lra|]. split; [intro; exfalso; lra | right; lra].
Qed.

Lemma lower_ask_step (self : PredictionAgent) :
  agent_ok self ->
  ask (lower_ask self) <= ask self
  /\ (ask self == prob self +. f64 0.01 ->
      ask (lower_ask self) = prob self +. f64 0.01)
  /\ (ask (lower_ask self) = prob self +. f64 0.01
      \/ ask (lower_ask self) <= ask self - 0.0099).
Proof.
  intros [[? ?] [[? ?] [? ?]]].
  pose proof f64_cent as [? ?]. pose proof f64_99 as [? ?].
  unfold lower_ask, update_ask. cbn [ask set_ask].
  f64_bounds.
  destruct (Qle_bool _ _) eqn:E; qtests.
  - split; [lra|]. split; [reflexivity | left; reflexivity].
  - split; [lra|]. split; [intro; exfalso; lra | right; lra].
Qed.

Lemma iter_raise_progress (n : nat) (self : PredictionAgent) :
  agent_ok self ->
  bid (Nat.iter n raise_bid self) = prob self -. f64 0.01
  \/ bid self + inject_Z (Z.of_nat n) * 0.0099
     <= bid (Nat.iter n raise_bid self).
Proof.
  intro Hok. induction n as [|n IH].
  - right. change (inject_Z (Z.of_nat 0)) with 0.
    change (Nat.iter 0 raise_bid self) with self. lra.
  - change (Nat.iter (S n) raise_bid self)
      with (raise_bid (Nat.iter n raise_bid self)).
    destruct (raise_bid_step _ (iter_raise_ok n self Hok))
      as (Hup & Hstay & Hgain).
    destruct (iter_raise_keeps n self) as (_ & Hp & _). rewrite Hp in *.
    destruct IH as [IH|IH].
    + left. apply Hstay. rewrite IH. reflexivity.
    + destruct Hgain as [Hgain|Hgain]; [left; exact Hgain|]. right.
      rewrite Nat2Z.inj_succ. unfold Z.succ. rewrite inject_Z_plus.
      change (inject_Z 1) with 1. lra.
Qed.

Lemma iter_lower_progress (n : nat) (self : PredictionAgent) :
  agent_ok self ->
  ask (Nat.iter n lower_ask self) = prob self +. f64 0.01
  \/ ask (Nat.iter n lower_ask self)
     <= ask self - inject_Z (Z.of_nat n) * 0.0099.
Proof.
  intro Hok. induction n as [|n IH].
  - right. change (inject_Z (Z.of_nat 0)) with 0.
    change (Nat.iter 0 lower_ask self) with self. lra.
  - change (Nat.iter (S n) lower_ask self)
      with (lower_ask (Nat.iter n lower_ask self)).
    destruct (lower_ask_step _ (iter_lower_ok n self Hok))
      as (Hdown & Hstay & Hgain).
    destruct (iter_lower_keeps n self) as (_ & Hp & _). rewrite Hp in *.
    destruct IH as [IH|IH].
    + left. apply Hstay. rewrite IH. reflexivity.
    + destruct Hgain as [Hgain|Hgain]; [left; exact Hgain|]. right.
      rewrite Nat2Z.inj_succ. unfold Z.succ. rewrite inject_Z_plus.
      change (inject_Z 1) with 1. lra.
Qed.

(** The quote after [n] attempts without a trade is the quote moved by
    [n] ticks, as the floats add up, or the stop if that is beyond it. *)
Lemma iter_raise_bid (n : nat) (self : PredictionAgent) :
  agent_ok self ->
  bid (Nat.iter n raise_bid self)
  == Qmin (Nat.iter n tick_up (bid self)) (prob self -. f64 0.01).
Proof.
  intro Hok. induction n as [|n IH].
  - destruct Hok as [_ [[? ?] _]]. simpl. rewrite Q.min_l; lra.
  - change (Nat.iter (S n) raise_bid self)
      with (raise_bid (Nat.iter n raise_bid self)).
    change (Nat.iter (S n) tick_up (bid self))
      with (tick_up (Nat.iter n tick_up (bid self))).
    pose proof (iter_raise_ok n self Hok) as [[? ?] [[? ?] [? ?]]].
    destruct (iter_raise_keeps n self) as (_ & Hp & _). rewrite Hp in *.
    pose proof f64_cent as [? ?]. pose proof f64_99 as [? ?].
    f64_bounds.
    f64_bound (bid (Nat.iter n raise_bid self) + f64 0.01). unfold eps in *.
    unfold raise_bid at 1. cbn [bid set_bid].
    rewrite update_bid_increase. rewrite Hp. unfold tick_up.
    set (u := Nat.iter n tick_up (bid self)) in *.
    set (b := bid (Nat.iter n raise_bid self)) in *.
    set (M := prob self -. f64 0.01) in *.
    assert (Hmono : b <= u -> b +. f64 0.01 <= u +. f64 0.01)
      by (intro; apply f64_le; lra).
    assert (Hsame : b == u -> b +. f64 0.01 = u +. f64 0.01)
      by (intro Hbu; apply f64_Qeq; rewrite Hbu; reflexivity).
    destruct (Q.min_spec u M) as [[Hlt E]|[Hle E]]; rewrite E in IH.
    + rewrite (Hsame IH). reflexivity.
    + assert (Hbig : M <= u +. f64 0.01).
      { apply Qle_trans with (b +. f64 0.01); [lra | apply Hmono; lra]. }
      apply Qeq_trans with M;
        [apply Q.min_r; lra | symmetry; apply Q.min_r; exact Hbig].
Qed.

Lemma iter_lower_ask (n : nat) (self : PredictionAgent) :
  agent_ok self ->
  ask (Nat.iter n lower_ask self)
  == Qmax (Nat.iter n tick_down (ask self)) (prob self +. f64 0.01).
Proof.
  intro Hok. induction n as [|n IH].
  - destruct Hok as [_ [_ [? ?]]]. simpl. rewrite Q.max_l; lra.
  - change (Nat.iter (S n) lower_ask self)
      with (lower_ask (Nat.iter n lower_ask self)).
    change (Nat.iter (S n) tick_down (ask self))
      with (tick_down (Nat.iter n tick_down (ask self))).
    pose proof (iter_lower_ok n self Hok) as [[? ?] [[? ?] [? ?]]].
    destruct (iter_lower_keeps n self) as (_ & Hp & _). rewrite Hp in *.
    pose proof f64_cent as [? ?]. pose proof f64_99 as [? ?].
    f64_bounds.
    f64_bound (ask (Nat.iter n lower_ask self) - f64 0.01). unfold eps in *.
    unfold lower_ask at 1. cbn [ask set_ask].
    rewrite update_ask_decrease. rewrite Hp. unfold tick_down.
    set (u := Nat.iter n tick_down (ask self)) in *.
    set (a := ask (Nat.iter n lower_ask self)) in *.
    set (m := prob self +. f64 0.01) in *.
    assert (Hmono : u <= a -> u -. f64 0.01 <= a -. f64 0.01)
      by (intro; apply f64_le; lra).
    assert (Hsame : a == u -> a -. f64 0.01 = u -. f64 0.01)
      by (intro Hau; apply f64_Qeq; rewrite Hau; reflexivity).
    destruct (Q.max_spec u m) as [[Hlt E]|[Hle E]]; rewrite E in IH.
    + assert (Hsmall : u -. f64 0.01 <= m).
      { apply Qle_trans with (a -. f64 0.01); [apply Hmono; lra | lra]. }
      apply Qeq_trans with m;
        [apply Q.max_r; lra | symmetry; apply Q.max_r; exact Hsmall].
    + rewrite (Hsame IH). reflexivity.
Qed.

(** X3. An agent that finds no trade [n] times in a row has walked its
    bid up by [n] ticks of 0.01, added one after the other as floats, and
    stopped at [prob - 0.01]; its ask down by [n] ticks, stopping at
    [prob + 0.01].  The bids never decrease on the way, the asks never
    increase, a quote at its stop stays there, and after 100 attempts both
    quotes are at their stops. *)
Theorem quotes_walk_to_belief (n : nat) (self : PredictionAgent) :
  agent_ok self ->
  bid (Nat.iter n raise_bid self)
  == Qmin (Nat.iter n tick_up (bid self)) (prob self -. f64 0.01)
  /\ ask (Nat.iter n lower_ask self)
     == Qmax (Nat.iter n tick_down (ask self)) (prob self +. f64 0.01)
  /\ bid (Nat.iter n raise_bid self) <= bid (Nat.iter (S n) raise_bid self)
  /\ ask (Nat.iter (S n) lower_ask self) <= ask (Nat.iter n lower_ask self)
  /\ (bid (Nat.iter n raise_bid self) == prob self -. f64 0.01 ->
      bid (Nat.iter (S n) raise_bid self) = prob self -. f64 0.01)
  /\ (ask (Nat.iter n lower_ask self) == prob self +. f64 0.01 ->
      ask (Nat.iter (S n) lower_ask self) = prob self +. f64 0.01)
  /\ ((100 <= n)%nat ->
      bid (Nat.iter n raise_bid self) = prob self -. f64 0.01
      /\ ask (Nat.iter n lower_ask self) = prob self +. f64 0.01).
Proof.
  intro Hok.
  split; [apply iter_raise_bid, Hok|]. split; [apply iter_lower_ask, Hok|].
  destruct (raise_bid_step _ (iter_raise_ok n self Hok)) as (Hup & Hbs & _).
  destruct (lower_ask_step _ (iter_lower_ok n self Hok)) as (Hdn & Has & _).
  destruct (iter_raise_keeps n self) as (_ & Hpb & _).
  destruct (iter_lower_keeps n self) as (_ & Hpa & _).
  rewrite Hpb in Hbs. rewrite Hpa in Has.
  split; [exact Hup|]. split; [exact Hdn|].
  split; [exact Hbs|]. split; [exact Has|].
  intro Hn.
  assert (Hbig : 100 <= inject_Z (Z.of_nat n)).
  { change 100 with (inject_Z 100). rewrite <- Zle_Qle. lia. }
  pose proof (iter_raise_ok n self Hok) as [_ [[_ Hb] _]].
  pose proof (iter_lower_ok n self Hok) as [_ [_ [Ha _]]].
  rewrite Hpb in Hb. rewrite Hpa in Ha.
  pose proof Hok as [[? ?] [[? ?] [? ?]]].
  pose proof f64_cent as [? ?]. pose proof f64_99 as [? ?].
  f64_bounds.
  split.
  - destruct (iter_raise_progress n self Hok) as [E|E]; [exact E|].
    exfalso. lra.
  - destruct (iter_lower_progress n self Hok) as [E|E]; [exact E|].
    exfalso. lra.
Qed.

(** An agent of belief 0.53 after 100 steps without a trade. *)
Lemma quotes_walk_to_belief_witness :
  bid (Nat.iter 100 raise_bid (mkAgent 0 (f64 0.53) 0 1))
  = f64 0.53 -. f64 0.01
  /\ ask (Nat.iter 100 lower_ask (mkAgent 0 (f64 0.53) 0 1))
     = f64 0.53 +. f64 0.01.
Proof.
  destruct (quotes_walk_to_belief 100 (mkAgent 0 (f64 0.53) 0 1))
    as (_ & _ & _ & _ & _ & _ & H).
  - split; [|split]; split; vm_compute; discriminate.
  - apply H. apply Nat.le_refl.
Defined.

(** ** No agent trades with itself *)

Lemma own_quotes_apart (draws : list Q) (model : PredictionMarketModel)
  (self : PredictionAgent) :
  reachable draws model -> In self (schedule model) -> bid self < ask self.
Proof.
  intros Hr Hin. apply agent_ok_apart.
  pose proof (ok_agents _ (reachable_book_ok _ _ Hr)) as Hag.
  rewrite Forall_forall in Hag. apply Hag. exact Hin.
Qed.

(** X4. In a reachable state an agent never trades against its own
    quote: a buy attempt that finds the agent's own pair as the best ask
    leaves the askers and the volume as they are, and so does a sell
    attempt that finds the agent's own pair as the best bid with the
    bidders. *)
Theorem no_self_trade (draws : list Q) (model : PredictionMarketModel)
  (self : PredictionAgent) (rest : OrderedDict) (p : Q) :
  reachable draws model -> In self (schedule model) ->
  (askers model = rest ++ [(unique_id self, p)] ->
   exists r, buy self model = Some r
             /\ volume (snd r) = volume model
             /\ askers (snd r) = askers model)
  /\ (bidders model = rest ++ [(unique_id self, p)] ->
      exists r, sell self model = Some r
                /\ volume (snd r) = volume model
                /\ bidders (snd r) = bidders model).
Proof.
  intros Hr Hin. pose proof (reachable_book_ok _ _ Hr) as Hok.
  pose proof (own_quotes_apart _ _ _ Hr Hin) as Hapart.
  split; intro Hl.
  - assert (Hp : p = ask self).
    { destruct (ok_ask_quotes _ Hok (unique_id self) p) as (a & Ha & Hid & Hq).
      - rewrite Hl. apply in_or_app. right. left. reflexivity.
      - assert (a = self)
          by (eapply same_id_same_agent; eauto; apply (ok_ids _ Hok)).
        congruence. }
    destruct (buy_cases self model (ok_ask_keys _ Hok))
      as [[C _]|[(rest' & x & Hl' & Hx & _)|(rest' & x & _ & _ & E)]].
    + rewrite Hl in C. destruct rest; discriminate.
    + exfalso. rewrite Hl in Hl'. apply app_inj_tail in Hl'.
      destruct Hl' as [_ <-]. simpl in Hx. rewrite Hp in Hx. lra.
    + eexists. split; [exact E|]. split; reflexivity.
  - assert (Hp : p = bid self).
    { destruct (ok_bid_quotes _ Hok (unique_id self) p) as (a & Ha & Hid & Hq).
      - rewrite Hl. apply in_or_app. right. left. reflexivity.
      - assert (a = self)
          by (eapply same_id_same_agent; eauto; apply (ok_ids _ Hok)).
        congruence. }
    destruct (sell_cases self model (ok_bid_keys _ Hok))
      as [[C _]|[(rest' & x & Hl' & Hx & _)|(rest' & x & _ & _ & E)]].
    + rewrite Hl in C. destruct rest; discriminate.
    + exfalso. rewrite Hl in Hl'. apply app_inj_tail in Hl'.
      destruct Hl' as [_ <-]. simpl in Hx. rewrite Hp in Hx. lra.
    + eexists. split; [exact E|]. split; reflexivity.
Qed.

(** The lone agent of a market of one finds its own ask and does not buy
    it. *)
Lemma no_self_trade_witness :
  exists r, buy (mkAgent 0 (clamp_prob 0.50) 0 1)
                (PredictionMarketModel_init [0.50]) = Some r
            /\ volume (snd r) = volume (PredictionMarketModel_init [0.50])
            /\ askers (snd r) = askers (PredictionMarketModel_init [0.50]).
Proof.
  apply (no_self_trade [0.50] (PredictionMarketModel_init [0.50])
           (mkAgent 0 (clamp_prob 0.50) 0 1) [] 1).
  - apply reach_init.
  - left. reflexivity.
  - reflexivity.
Defined.

(** ** What one attempt does *)

Lemma buy_volume (self : PredictionAgent) (model : PredictionMarketModel)
  (r : PredictionAgent * PredictionMarketModel) :
  buy self model = Some r ->
  (volume model <= volume (snd r) <= volume model + 1)%nat.
Proof.
  unfold buy, get_lowest_ask.
  destruct (0 <? length (askers model))%nat;
    [|intro H; injection H as <-; simpl; lia].
  destruct (popitem (askers model)) as [[x rest]|]; [|discriminate].
  simpl. destruct (Qle_bool _ _).
  - destruct (popitem (setitem (fst x) (snd x) rest)) as [[y rest']|];
      [|discriminate].
    simpl. intro H; injection H as <-; simpl; lia.
  - intro H; injection H as <-; simpl; lia.
Qed.

Lemma sell_volume (self : PredictionAgent) (model : PredictionMarketModel)
  (r : PredictionAgent * PredictionMarketModel) :
  sell self model = Some r ->
  (volume model <= volume (snd r) <= volume model + 1)%nat.
Proof.
  unfold sell, get_highest_bid.
  destruct (0 <? length (bidders model))%nat;
    [|intro H; injection H as <-; simpl; lia].
  destruct (popitem (bidders model)) as [[x rest]|]; [|discriminate].
  simpl. destruct (Qle_bool _ _).
  - destruct (popitem (setitem (fst x) (snd x) rest)) as [[y rest']|];
      [|discriminate].
    simpl. intro H; injection H as <-; simpl; lia.
  - intro H; injection H as <-; simpl; lia.
Qed.

(** X5. With the keys of the askers distinct, a buy attempt goes one of
    three ways.  With no ask in the book it does nothing.  When the lowest
    ask is at most the agent's bid it trades: the volume goes up by one,
    that ask leaves the askers and the agent's bid goes one tick down, not
    below 0.  Otherwise nothing is traded: volume and askers stay and the
    bid goes one tick up, not above [prob - 0.01].  In the two last cases
    the new bid is posted. *)
Theorem buy_attempt (self : PredictionAgent) (model : PredictionMarketModel)
  (r : PredictionAgent * PredictionMarketModel) :
  NoDup (keys (askers model)) -> buy self model = Some r ->
  (askers model = [] /\ r = (self, model))
  \/ (exists rest k a,
        askers model = rest ++ [(k, a)] /\ a <= bid self
        /\ volume (snd r) = S (volume model)
        /\ askers (snd r) = rest
        /\ bid (fst r) == Qmax (bid self -. f64 0.01) 0
        /\ In (unique_id self, bid (fst r)) (bidders (snd r)))
  \/ (exists rest k a,
        askers model = rest ++ [(k, a)] /\ bid self < a
        /\ volume (snd r) = volume model
        /\ askers (snd r) = askers model
        /\ bid (fst r) == Qmin (bid self +. f64 0.01) (prob self -. f64 0.01)
        /\ In (unique_id self, bid (fst r)) (bidders (snd r))).
Proof.
  intros Hnd Hbuy.
  destruct (buy_cases self model Hnd)
    as [[He E]|[(rest & [k a] & Hl & Hx & E)|(rest & [k a] & Hl & Hx & E)]];
    rewrite E in Hbuy; injection Hbuy as <-.
  - left. split; [exact He | reflexivity].
  - right. left. exists rest, k, a. simpl in *.
    split; [exact Hl|]. split; [exact Hx|].
    split; [rewrite Nat.add_1_r; reflexivity|]. split; [reflexivity|].
    split; [apply (update_bid_decrease self (Some a))|].
    eapply Permutation_in;
      [apply Permutation_sym, sorted_by_perm | apply In_setitem_same].
  - right. right. exists rest, k, a. simpl in *.
    split; [exact Hl|]. split; [exact Hx|].
    split; [reflexivity|]. split; [reflexivity|].
    split; [apply (update_bid_increase self (Some a))|].
    eapply Permutation_in;
      [apply Permutation_sym, sorted_by_perm | apply In_setitem_same].
Qed.

(** The first buy attempt in the market of beliefs 0.83 and 0.53. *)
Lemma buy_attempt_witness :
  exists r,
    buy (mkAgent 0 (f64 0.83) 0 1) market_83_53 = Some r
    /\ volume (snd r) = volume market_83_53
    /\ askers (snd r) = askers market_83_53.
Proof.
  destruct (buy_total (mkAgent 0 (f64 0.83) 0 1) market_83_53) as [r Hr].
  exists r. split; [exact Hr|].
  destruct (buy_attempt (mkAgent 0 (f64 0.83) 0 1) market_83_53 r)
    as [[C _]|[(rest & k & a & Hl & Hx & _)|(rest & k & a & _ & _ & Hv & Ha & _)]].
  - repeat constructor; simpl; intuition discriminate.
  - exact Hr.
  - discriminate.
  - exfalso. change (askers market_83_53) with ([(0%nat, 1)] ++ [(1%nat, 1)])
      in Hl.
    apply app_inj_tail in Hl. destruct Hl as [_ Hl]. injection Hl as _ <-.
    revert Hx. simpl. unfold Qle. simpl. lia.
  - split; assumption.
Defined.

(** X6. With the keys of the bidders distinct, a sell attempt goes one of
    three ways.  With no bid in the book it does nothing.  When the
    highest bid is at least the agent's ask it trades: the volume goes up
    by one, that bid leaves the bidders and the agent's ask goes one tick
    up, not above 1.  Otherwise nothing is traded: volume and bidders stay
    and the ask goes one tick down, not below [prob + 0.01].  In the two
    last cases the new ask is posted. *)
Theorem sell_attempt (self : PredictionAgent) (model : PredictionMarketModel)
  (r : PredictionAgent * PredictionMarketModel) :
  NoDup (keys (bidders model)) -> sell self model = Some r ->
  (bidders model = [] /\ r = (self, model))
  \/ (exists rest k b,
        bidders model = rest ++ [(k, b)] /\ ask self <= b
        /\ volume (snd r) = S (volume model)
        /\ bidders (snd r) = rest
        /\ ask (fst r) == Qmin (ask self +. f64 0.01) 1
        /\ In (unique_id self, ask (fst r)) (askers (snd r)))
  \/ (exists rest k b,
        bidders model = rest ++ [(k, b)] /\ b < ask self
        /\ volume (snd r) = volume model
        /\ bidders (snd r) = bidders model
        /\ ask (fst r) == Qmax (ask self -. f64 0.01) (prob self +. f64 0.01)
        /\ In (unique_id self, ask (fst r)) (askers (snd r))).
Proof.
  intros Hnd Hsell.
  destruct (sell_cases self model Hnd)
    as [[He E]|[(rest & [k b] & Hl & Hx & E)|(rest & [k b] & Hl & Hx & E)]];
    rewrite E in Hsell; injection Hsell as <-.
  - left. split; [exact He | reflexivity].
  - right. left. exists rest, k, b. simpl in *.
    split; [exact Hl|]. split; [exact Hx|].
    split; [rewrite Nat.add_1_r; reflexivity|]. split; [reflexivity|].
    split; [apply (update_ask_increase self (Some b))|].
    eapply Permutation_in;
      [apply Permutation_sym, sorted_by_perm | apply In_setitem_same].
  - right. right. exists rest, k, b. simpl in *.
    split; [exact Hl|]. split; [exact Hx|].
    split; [reflexivity|]. split; [reflexivity|].
    split; [apply (update_ask_decrease self (Some b))|].
    eapply Permutation_in;
      [apply Permutation_sym, sorted_by_perm | apply In_setitem_same].
Qed.

(** The first sell attempt in the market of beliefs 0.83 and 0.53. *)
Lemma sell_attempt_witness :
  exists r,
    sell (mkAgent 0 (f64 0.83) 0 1) market_83_53 = Some r
    /\ volume (snd r) = volume market_83_53
    /\ bidders (snd r) = bidders market_83_53.
Proof.
  destruct (sell_total (mkAgent 0 (f64 0.83) 0 1) market_83_53) as [r Hr].
  exists r. split; [exact Hr|].
  destruct (sell_attempt (mkAgent 0 (f64 0.83) 0 1) market_83_53 r)
    as [[C _]|[(rest & k & b & Hl & Hx & _)|(rest & k & b & _ & _ & Hv & Hb & _)]].
  - repeat constructor; simpl; intuition discriminate.
  - exact Hr.
  - discriminate.
  - exfalso. change (bidders market_83_53) with ([(0%nat, 0)] ++ [(1%nat, 0)])
      in Hl.
    apply app_inj_tail in Hl. destruct Hl as [_ Hl]. injection Hl as _ <-.
    revert Hx. simpl. unfold Qle. simpl. lia.
  - split; assumption.
Defined.

(** ** What a step and a run keep *)

Lemma agent_step_volume (self : PredictionAgent)
  (model : PredictionMarketModel)
  (r : PredictionAgent * PredictionMarketModel) :
  agent_step self model = Some r ->
  (volume model <= volume (snd r) <= volume model + 2)%nat.
Proof.
  unfold agent_step.
  destruct (buy self model) as [[s1 m1]|] eqn:Hb; [|discriminate].
  cbn [bind]. intro Hs.
  apply buy_volume in Hb. apply sell_volume in Hs. simpl in *. lia.
Qed.

Lemma schedule_step_volume (order : list nat) :
  forall model model',
    schedule_step order model = Some model' ->
    (volume model <= volume model' <= volume model + 2 * length order)%nat.
Proof.
  induction order as [|uid order IH]; simpl; intros model model' Hs.
  - injection Hs as <-. lia.
  - destruct (find_agent uid (schedule model)) as [self|]; [|discriminate].
    cbn [bind] in Hs.
    destruct (agent_step self model) as [r|] eqn:Ha; [|discriminate].
    cbn [bind] in Hs. apply IH in Hs. apply agent_step_volume in Ha.
    simpl in Hs. lia.
Qed.

Lemma collect_volume (model model' : PredictionMarketModel) :
  collect model = Some model' -> volume model' = volume model.
Proof.
  intro Hc. destruct (collect_total model) as (row & E & _).
  rewrite E in Hc. injection Hc as <-. simpl.
  destruct (get_highest_bid_total model) as [[b m1] Hb]. rewrite Hb.
  destruct (get_lowest_ask_total m1) as [[a m2] Ha]. rewrite Ha. simpl.
  destruct (get_highest_bid_keeps _ _ _ Hb) as (_ & _ & Hv1 & _).
  destruct (get_lowest_ask_keeps _ _ _ Ha) as (_ & _ & Hv2 & _).
  congruence.
Qed.

(** X7. The volume is reset at the start of a step and each agent adds
    at most two to it, one for its purchase and one for its sale: whatever
    the volume was before, a step that visits the agents in a valid order
    ends with a volume of at most twice the number of agents, and the row
    it collects carries that volume. *)
Theorem step_volume_bound (order : list nat)
  (model model' : PredictionMarketModel) :
  valid_order model order -> step order model = Some model' ->
  (volume model' <= 2 * length (schedule model))%nat
  /\ exists row,
       datacollector model' = datacollector model ++ [row]
       /\ rep_volume row = volume model'.
Proof.
  intros Hv Hs. unfold step in Hs.
  destruct (schedule_step order (set_volume model 0)) as [m1|] eqn:E;
    [|discriminate].
  cbn [bind] in Hs.
  pose proof (schedule_step_volume _ _ _ E) as Hvol. simpl in Hvol.
  pose proof (collect_volume _ _ Hs) as Hcv.
  destruct (schedule_step_keeps _ _ _ E) as [_ Hd].
  destruct (collect_keeps _ _ Hs) as (_ & row & Hrow & Hrv).
  simpl in Hd. split.
  - apply Permutation_length in Hv. rewrite length_map in Hv. lia.
  - exists row. split; congruence.
Qed.

(** One step of the market of beliefs 0.83 and 0.53 in the order 1, 0. *)
Lemma step_volume_bound_witness :
  exists model',
    step [1; 0]%nat market_83_53 = Some model'
    /\ (volume model' <= 2 * length (schedule market_83_53))%nat.
Proof.
  assert (Hv : valid_order market_83_53 [1; 0]%nat) by apply perm_swap.
  destruct (step_total [1; 0]%nat market_83_53 Hv) as [model' Hs].
  exists model'. split; [exact Hs|].
  apply (step_volume_bound [1; 0]%nat market_83_53 model' Hv Hs).
Defined.

Lemma schedule_step_beliefs (order : list nat) :
  forall model model',
    NoDup (map unique_id (schedule model)) ->
    schedule_step order model = Some model' ->
    beliefs model' = beliefs model.
Proof.
  induction order as [|uid order IH]; simpl; intros model model' Hnd Hs.
  - injection Hs as <-. reflexivity.
  - destruct (find_agent uid (schedule model)) as [self|] eqn:Hf;
      [|discriminate].
    cbn [bind] in Hs.
    destruct (agent_step self model) as [r|] eqn:Ha; [|discriminate].
    cbn [bind] in Hs.
    destruct (agent_step_keeps _ _ _ Ha) as (Hid & Hp & Hsch & _).
    destruct (find_agent_In _ _ _ Hf) as [Hin _].
    rewrite (IH (commit r) model'); [| |exact Hs].
    + unfold beliefs. simpl. rewrite Hsch.
      apply (beliefs_store self (fst r)); assumption.
    + simpl. rewrite store_agent_ids, Hsch. exact Hnd.
Qed.

Lemma step_beliefs (order : list nat)
  (model model' : PredictionMarketModel) :
  NoDup (map unique_id (schedule model)) ->
  step order model = Some model' ->
  beliefs model' = beliefs model.
Proof.
  intros Hnd Hs. unfold step in Hs.
  destruct (schedule_step order (set_volume model 0)) as [m1|] eqn:E;
    [|discriminate].
  cbn [bind] in Hs.
  apply schedule_step_beliefs in E; [|exact Hnd].
  destruct (collect_keeps _ _ Hs) as (Hsch & _).
  unfold beliefs in *. rewrite Hsch. exact E.
Qed.

(** X8. A run never changes who the agents are nor what they believe,
    and never rewrites what was collected: with the keys of the agents
    distinct, after [run_model] the agents have the keys and beliefs they
    had, in the same order, and the collected rows are the earlier rows
    followed by one new row for each step. *)
Theorem run_keeps_beliefs_and_rows (orders : list (list nat)) :
  forall model model',
    NoDup (map unique_id (schedule model)) ->
    run_model orders model = Some model' ->
    beliefs model' = beliefs model
    /\ exists rows,
         datacollector model' = datacollector model ++ rows
         /\ length rows = length orders.
Proof.
  induction orders as [|o orders IH]; simpl; intros model model' Hnd Hr.
  - injection Hr as <-. split; [reflexivity|].
    exists []. rewrite app_nil_r. split; reflexivity.
  - destruct (step o model) as [m1|] eqn:Hs; [|discriminate].
    cbn [bind] in Hr.
    destruct (step_keeps _ _ _ Hs) as (Hids & row & Hrow).
    pose proof (step_beliefs _ _ _ Hnd Hs) as Hb1.
    destruct (IH m1 model') as (Hb2 & rows & Hrows & Hlen);
      [rewrite Hids; exact Hnd | exact Hr |].
    split; [congruence|].
    exists (row :: rows). split; [|simpl; congruence].
    rewrite Hrows, Hrow, <- app_assoc. reflexivity.
Qed.

(** Three steps of the market of beliefs 0.83 and 0.53. *)
Lemma run_keeps_beliefs_and_rows_witness :
  exists model',
    run_model [[0; 1]; [1; 0]; [0; 1]]%nat market_83_53 = Some model'
    /\ beliefs model' = beliefs market_83_53.
Proof.
  destruct (run_model_total [[0; 1]; [1; 0]; [0; 1]]%nat market_83_53)
    as (model' & Hr & _).
  { repeat constructor; apply perm_swap. }
  exists model'. split; [exact Hr|].
  apply (run_keeps_beliefs_and_rows [[0; 1]; [1; 0]; [0; 1]]%nat
           market_83_53 model'); [|exact Hr].
  repeat constructor; simpl; intuition discriminate.
Defined.

(** ** What the rows report *)

Lemma best_bid_in_range (model : PredictionMarketModel) (p : Q) :
  book_ok model -> best (bidders model) = Some p ->
  (exists a, In a (schedule model) /\ bid a = p) /\ 0 <= p /\ p <= 0.98.
Proof.
  intros Hok Hb.
  destruct (best_is_last _ _ _ (ok_bid_sorted _ Hok) Hb) as [[k Hk] _].
  destruct (ok_bid_quotes _ Hok k p Hk) as (a & Ha & _ & Hq).
  pose proof (ok_agents _ Hok) as Hag. rewrite Forall_forall in Hag.
  destruct (agent_ok_bounds a (Hag a Ha)) as [? _].
  destruct (Hag a Ha) as [_ [[? ?] _]].
  split; [exists a; split; assumption|]. rewrite <- Hq. split; lra.
Qed.

Lemma best_ask_in_range (model : PredictionMarketModel) (p : Q) :
  book_ok model -> best (askers model) = Some p ->
  (exists a, In a (schedule model) /\ ask a = p) /\ 0.02 <= p /\ p <= 1.
Proof.
  intros Hok Hb.
  destruct (best_is_last _ _ _ (ok_ask_sorted _ Hok) Hb) as [[k Hk] _].
  destruct (ok_ask_quotes _ Hok k p Hk) as (a & Ha & _ & Hq).
  pose proof (ok_agents _ Hok) as Hag. rewrite Forall_forall in Hag.
  destruct (agent_ok_bounds a (Hag a Ha)) as [_ ?].
  destruct (Hag a Ha) as [_ [_ [? ?]]].
  split; [exists a; split; assumption|]. rewrite <- Hq. split; lra.
Qed.

Lemma reachable_rows (draws : list Q) (model : PredictionMarketModel) :
  reachable draws model -> Forall row_in_range (datacollector model).
Proof.
  induction 1 as [|m _ IH|m self r _ IH Hin Hb|m self r _ IH Hin Hs
                  |m m' Hr IH Hc].
  - unfold PredictionMarketModel_init.
    rewrite create_agents_closed by (simpl; intros k []). constructor.
  - exact IH.
  - destruct (buy_keeps _ _ _ Hb) as (_ & _ & _ & _ & Hd).
    simpl. rewrite Hd. exact IH.
  - destruct (sell_keeps _ _ _ Hs) as (_ & _ & _ & _ & Hd).
    simpl. rewrite Hd. exact IH.
  - pose proof (reachable_book_ok _ _ Hr) as Hok.
    rewrite (collect_spec _ (ok_bid_keys _ Hok) (ok_ask_keys _ Hok)) in Hc.
    injection Hc as <-. simpl. apply Forall_app. split; [exact IH|].
    constructor; [|constructor]. split; simpl; intros p Hp.
    + apply best_bid_in_range; assumption.
    + apply best_ask_in_range; assumption.
Qed.

(** X9. Every row a run collects reports as best bid either nothing or
    the current bid of one of the agents, between 0 and 0.98, and as best
    ask either nothing or the current ask of one of the agents, between
    0.02 and 1. *)
Theorem reported_prices_in_range (draws : list Q)
  (orders : list (list nat)) (model : PredictionMarketModel) :
  run_model orders (PredictionMarketModel_init draws) = Some model ->
  Forall row_in_range (datacollector model).
Proof.
  intro Hr. apply (reachable_rows draws).
  eapply run_model_reachable; [apply reach_init | exact Hr].
Qed.

(** The rows of three steps of the market of beliefs 0.83 and 0.53. *)
Lemma reported_prices_in_range_witness :
  exists model,
    run_model [[0; 1]; [1; 0]; [0; 1]]%nat
              (PredictionMarketModel_init [0.83; 0.53]) = Some model
    /\ Forall row_in_range (datacollector model).
Proof.
  destruct (run_model_total [[0; 1]; [1; 0]; [0; 1]]%nat
              (PredictionMarketModel_init [0.83; 0.53]))
    as (model & Hr & _).
  { repeat constructor; apply perm_swap. }
  exists model. split; [exact Hr|].
  apply (reported_prices_in_range [0.83; 0.53]
           [[0; 1]; [1; 0]; [0; 1]]%nat model Hr).
Defined.

(** ** No market trades in its first 50 steps *)

(** A step of an agent, seen through the schedule: the buy attempt, the
    agent stored back, then the sell attempt. *)
Lemma agent_step_commit (self : PredictionAgent)
  (model : PredictionMarketModel)
  (r : PredictionAgent * PredictionMarketModel) :
  In self (schedule model) -> agent_step self model = Some r ->
  exists r1 r2,
    buy self model = Some r1
    /\ unique_id (fst r1) = unique_id self
    /\ In (fst r1) (schedule (commit r1))
    /\ sell (fst r1) (commit r1) = Some r2
    /\ commit r2 = commit r.
Proof.
  intros Hin Hstep. unfold agent_step in Hstep.
  destruct (buy self model) as [[self1 model1]|] eqn:Hbuy; [|discriminate].
  cbn [bind] in Hstep.
  destruct (buy_keeps _ _ _ Hbuy) as (Hid1 & _ & _ & Hs1 & _).
  destruct (sell_keeps _ _ _ Hstep) as (Hid2 & _ & _ & Hs2 & _).
  simpl in Hid1, Hs1.
  exists (self1, model1),
         (with_schedule (store_agent self1 (schedule model1)) r).
  split; [reflexivity|]. split; [exact Hid1|]. split; [|split].
  - simpl. rewrite Hs1.
    apply (In_store_agent self1 self); [exact Hin | symmetry; exact Hid1].
  - unfold commit. simpl. rewrite sell_with_schedule, Hstep. reflexivity.
  - unfold commit, with_schedule. simpl.
    rewrite store_agent_twice by (symmetry; exact Hid2).
    rewrite Hs2. destruct r as [self2 [n s c b a v]]. reflexivity.
Qed.

Section Quiet.

Variables t s : Q.
Hypothesis apart_buy : t < s -. f64 0.01.
Hypothesis apart_sell : t +. f64 0.01 < s.
Hypothesis up : t <= t +. f64 0.01.
Hypothesis down : s -. f64 0.01 <= s.

Lemma buy_quiet (uid : nat) (to_buy to_sell : list nat)
  (self : PredictionAgent) (model : PredictionMarketModel)
  (r : PredictionAgent * PredictionMarketModel) :
  quiet t s (uid :: to_buy) to_sell model -> ~ In uid to_buy ->
  In self (schedule model) -> unique_id self = uid ->
  buy self model = Some r ->
  quiet t s to_buy to_sell (commit r).
Proof.
  intros (Hok & Hvol & Hag) Hout Hin Hid Hbuy.
  destruct (Hag self Hin) as (Hb1 & Ha1 & Hb0 & Ha0).
  assert (Hbid : bid self <= t) by (apply Hb0; left; symmetry; exact Hid).
  pose proof (buy_book_ok _ _ _ Hok Hin Hbuy) as Hok'.
  destruct (buy_cases self model (ok_ask_keys _ Hok))
    as [[_ E]|[(rest & x & Hl & Hx & _)|(rest & x & _ & _ & E)]].
  - rewrite E in Hbuy. injection Hbuy as <-.
    rewrite commit_same; [|apply (ok_ids _ Hok) | exact Hin].
    split; [exact Hok|]. split; [exact Hvol|].
    intros a Ha. destruct (Hag a Ha) as (H1 & H2 & H3 & H4).
    repeat split; try assumption. intro Hk. apply H3. right. exact Hk.
  - exfalso.
    destruct (ok_ask_quotes _ Hok (fst x) (snd x)) as (a & Ha & _ & Hq).
    { rewrite Hl. apply in_or_app. right. left. destruct x; reflexivity. }
    destruct (Hag a Ha) as (_ & H2 & _). rewrite Hq in H2. lra.
  - rewrite E in Hbuy. injection Hbuy as <-.
    split; [exact Hok'|]. split; [exact Hvol|].
    intros a Ha. simpl in Ha.
    destruct (In_store_agent_inv _ _ _ Ha) as [->|[Hold Hne]].
    + cbn [place_bid fst set_bid bid ask unique_id].
      assert (Hmono : bid self +. f64 0.01 <= t +. f64 0.01)
        by (apply f64_le; lra).
      assert (Hnew : update_bid self (Some (snd x)) true <= t +. f64 0.01)
        by (unfold update_bid; destruct (Qle_bool _ _) eqn:Et; qtests; lra).
      split; [exact Hnew|]. split; [exact Ha1|]. split.
      * intro Hk. exfalso. apply Hout. rewrite <- Hid. exact Hk.
      * exact Ha0.
    + destruct (Hag a Hold) as (H1 & H2 & H3 & H4).
      repeat split; try assumption. intro Hk. apply H3. right. exact Hk.
Qed.

Lemma sell_quiet (uid : nat) (to_buy to_sell : list nat)
  (self : PredictionAgent) (model : PredictionMarketModel)
  (r : PredictionAgent * PredictionMarketModel) :
  quiet t s to_buy (uid :: to_sell) model -> ~ In uid to_sell ->
  In self (schedule model) -> unique_id self = uid ->
  sell self model = Some r ->
  quiet t s to_buy to_sell (commit r).
Proof.
  intros (Hok & Hvol & Hag) Hout Hin Hid Hsell.
  destruct (Hag self Hin) as (Hb1 & Ha1 & Hb0 & Ha0).
  assert (Hask : s <= ask self) by (apply Ha0; left; symmetry; exact Hid).
  pose proof (sell_book_ok _ _ _ Hok Hin Hsell) as Hok'.
  destruct (sell_cases self model (ok_bid_keys _ Hok))
    as [[_ E]|[(rest & x & Hl & Hx & _)|(rest & x & _ & _ & E)]].
  - rewrite E in Hsell. injection Hsell as <-.
    rewrite commit_same; [|apply (ok_ids _ Hok) | exact Hin].
    split; [exact Hok|]. split; [exact Hvol|].
    intros a Ha. destruct (Hag a Ha) as (H1 & H2 & H3 & H4).
    repeat split; try assumption. intro Hk. apply H4. right. exact Hk.
  - exfalso.
    destruct (ok_bid_quotes _ Hok (fst x) (snd x)) as (a & Ha & _ & Hq).
    { rewrite Hl. apply in_or_app. right. left. destruct x; reflexivity. }
    destruct (Hag a Ha) as (H1 & _). rewrite Hq in H1. lra.
  - rewrite E in Hsell. injection Hsell as <-.
    split; [exact Hok'|]. split; [exact Hvol|].
    intros a Ha. simpl in Ha.
    destruct (In_store_agent_inv _ _ _ Ha) as [->|[Hold Hne]].
    + cbn [place_ask fst set_ask bid ask unique_id].
      assert (Hmono : s -. f64 0.01 <= ask self -. f64 0.01)
        by (apply f64_le; lra).
      assert (Hnew : s -. f64 0.01 <= update_ask self (Some (snd x)) true)
        by (unfold update_ask; destruct (Qle_bool _ _) eqn:Et; qtests; lra).
      split; [exact Hb1|]. split; [exact Hnew|]. split.
      * exact Hb0.
      * intro Hk. exfalso. apply Hout. rewrite <- Hid. exact Hk.
    + destruct (Hag a Hold) as (H1 & H2 & H3 & H4).
      repeat split; try assumption. intro Hk. apply H4. right. exact Hk.
Qed.

Lemma quiet_ext (to_buy to_sell : list nat)
  (m m' : PredictionMarketModel) :
  m = m' -> quiet t s to_buy to_sell m -> quiet t s to_buy to_sell m'.
Proof. intros ->. trivial. Qed.

Lemma agent_step_quiet (uid : nat) (rest : list nat)
  (self : PredictionAgent) (model : PredictionMarketModel)
  (r : PredictionAgent * PredictionMarketModel) :
  quiet t s (uid :: rest) (uid :: rest) model -> ~ In uid rest ->
  In self (schedule model) -> unique_id self = uid ->
  agent_step self model = Some r ->
  quiet t s rest rest (commit r).
Proof.
  intros Hq Hout Hin Hid Hstep.
  destruct (agent_step_commit _ _ _ Hin Hstep)
    as (r1 & r2 & Hbuy & Hid1 & Hin1 & Hsell & Hc).
  pose proof (buy_quiet uid rest (uid :: rest) self model r1 Hq Hout Hin
                Hid Hbuy) as Hq1.
  apply (quiet_ext _ _ _ _ Hc).
  apply (sell_quiet uid rest rest (fst r1) (commit r1) r2 Hq1 Hout Hin1);
    [congruence | exact Hsell].
Qed.

Lemma schedule_step_quiet (order : list nat) :
  forall model model',
    NoDup order -> quiet t s order order model ->
    schedule_step order model = Some model' ->
    quiet t s [] [] model'.
Proof.
  induction order as [|uid order IH]; simpl; intros model model' Hnd Hq Hs.
  - injection Hs as <-. exact Hq.
  - inversion Hnd as [|? ? Hout Hnd']; subst.
    destruct (find_agent uid (schedule model)) as [self|] eqn:Hf;
      [|discriminate].
    cbn [bind] in Hs.
    destruct (agent_step self model) as [r|] eqn:Ha; [|discriminate].
    cbn [bind] in Hs. destruct (find_agent_In _ _ _ Hf) as [Hin Hid].
    apply (IH (commit r) model' Hnd'); [|exact Hs].
    eapply agent_step_quiet; eassumption.
Qed.

(** One step of a calm market trades nothing and leaves it calm, one tick
    further. *)
Lemma step_calm (order : list nat) (model model' : PredictionMarketModel) :
  calm t s model -> valid_order model order ->
  step order model = Some model' ->
  calm (t +. f64 0.01) (s -. f64 0.01) model'
  /\ exists row,
       datacollector model' = datacollector model ++ [row]
       /\ rep_volume row = 0%nat.
Proof.
  intros [Hok Hag] Hv Hs. unfold step in Hs.
  destruct (schedule_step order (set_volume model 0)) as [m1|] eqn:E;
    [|discriminate].
  cbn [bind] in Hs.
  assert (Hnd : NoDup order).
  { eapply Permutation_NoDup; [apply Permutation_sym; exact Hv|].
    apply (ok_ids _ Hok). }
  assert (Hq : quiet t s order order (set_volume model 0)).
  { split; [apply book_ok_set_volume; exact Hok|]. split; [reflexivity|].
    intros a Ha. destruct (Hag a Ha) as [H1 H2].
    split; [lra | split; [lra | split; intro; lra]]. }
  destruct (schedule_step_quiet order _ _ Hnd Hq E) as (Hok1 & Hv1 & Hag1).
  destruct (schedule_step_keeps _ _ _ E) as [_ Hd].
  destruct (collect_keeps _ _ Hs) as (Hsch & row & Hrow & Hrv).
  simpl in Hd. split.
  - split; [eapply collect_book_ok; eassumption|].
    intros a Ha. rewrite Hsch in Ha.
    destruct (Hag1 a Ha) as (H1 & H2 & _). split; assumption.
  - exists row. split; congruence.
Qed.

End Quiet.

(** Up to 50 ticks the raised bid and the lowered ask have not met. *)
Lemma fifty_ticks (k : nat) :
  (k < 50)%nat ->
  raised k < lowered (S k) /\ raised (S k) < lowered k
  /\ raised k <= raised (S k) /\ lowered (S k) <= lowered k.
Proof.
  intro Hk.
  assert (Hall : forallb
                   (fun k => Qlt_bool (raised k) (lowered (S k))
                             && Qlt_bool (raised (S k)) (lowered k)
                             && Qle_bool (raised k) (raised (S k))
                             && Qle_bool (lowered (S k)) (lowered k))
                   (seq 0 50) = true)
    by (vm_compute; reflexivity).
  rewrite forallb_forall in Hall.
  specialize (Hall k ltac:(apply in_seq; lia)).
  rewrite !andb_true_iff in Hall. destruct Hall as [[[H1 H2] H3] H4].
  qtests. repeat split; assumption.
Qed.

(** After 50 ticks they have passed each other. *)
Lemma fifty_ticks_values :
  raised 50 = f64 0.5000000000000002
  /\ lowered 50 = f64 0.49999999999999956.
Proof. split; vm_compute; reflexivity. Qed.

Lemma run_calm (orders : list (list nat)) :
  forall (k : nat) (model model' : PredictionMarketModel),
    calm (raised k) (lowered k) model -> (k + length orders <= 50)%nat ->
    Forall (valid_order model) orders ->
    run_model orders model = Some model' ->
    calm (raised (k + length orders)) (lowered (k + length orders)) model'
    /\ exists rows,
         datacollector model' = datacollector model ++ rows
         /\ map rep_volume rows = repeat 0%nat (length orders).
Proof.
  induction orders as [|o orders IH]; simpl;
    intros k model model' Hc Hk Hv Hr.
  - injection Hr as <-. rewrite Nat.add_0_r. split; [exact Hc|].
    exists []. rewrite app_nil_r. split; reflexivity.
  - inversion Hv as [|? ? Ho Hos]; subst.
    destruct (step o model) as [m1|] eqn:Hs; [|discriminate].
    cbn [bind] in Hr.
    destruct (fifty_ticks k ltac:(lia)) as (A1 & A2 & A3 & A4).
    destruct (step_calm (raised k) (lowered k) A1 A2 A3 A4 o model m1
                Hc Ho Hs) as (Hc1 & row & Hrow & Hrv).
    destruct (step_keeps _ _ _ Hs) as (Hids & _).
    destruct (IH (S k) m1 model' Hc1) as (Hc2 & rows & Hrows & Hvols);
      [lia | | exact Hr |].
    { eapply Forall_impl; [|exact Hos].
      intros a Ha. eapply valid_order_ids; eassumption. }
    replace (k + S (length orders))%nat with (S k + length orders)%nat
      by lia.
    split; [exact Hc2|].
    exists (row :: rows). split.
    + rewrite Hrows, Hrow, <- app_assoc. reflexivity.
    + simpl. rewrite Hrv, Hvols. reflexivity.
Qed.

Lemma init_calm (draws : list Q) :
  calm (raised 0) (lowered 0) (PredictionMarketModel_init draws).
Proof.
  destruct (init_ok draws) as [Hok (Hs & _)]. split; [exact Hok|].
  intros a Ha. destruct (Hs a Ha) as (_ & -> & ->).
  unfold raised, lowered. simpl. split; lra.
Qed.

(** X10. No market trades in its first 50 steps, whatever the beliefs
    and the visiting orders: a run of [n <= 50] steps from the constructed
    model reports volume 0 in every step, and ends with every bid at most
    what [n] ticks of 0.01 added to 0 give and every ask at least what [n]
    ticks taken from 1 give, as the floats add up; up to 50 ticks these
    have not met. *)
Theorem first_50_steps_trade_nothing (draws : list Q)
  (orders : list (list nat)) :
  Forall (valid_order (PredictionMarketModel_init draws)) orders ->
  (length orders <= 50)%nat ->
  exists model,
    run_model orders (PredictionMarketModel_init draws) = Some model
    /\ volumes model = repeat 0%nat (length orders)
    /\ Forall (fun a => bid a <= raised (length orders)
                        /\ lowered (length orders) <= ask a)
              (schedule model).
Proof.
  intros Hv Hlen.
  destruct (run_model_total orders _ Hv) as (model & Hr & _).
  exists model. split; [exact Hr|].
  destruct (run_calm orders 0 _ model (init_calm draws) Hlen Hv Hr)
    as ([_ Hag] & rows & Hrows & Hvols).
  split.
  - unfold volumes. rewrite Hrows.
    replace (datacollector (PredictionMarketModel_init draws))
      with (@nil Report); [exact Hvols|].
    unfold PredictionMarketModel_init.
    rewrite create_agents_closed by (simpl; intros k []). reflexivity.
  - apply Forall_forall. intros a Ha. apply (Hag a Ha).
Qed.

(** Fifty steps of the market of beliefs 0.83 and 0.53 in the order
    0, 1. *)
Lemma first_50_steps_trade_nothing_witness :
  exists model,
    run_model (repeat [0; 1]%nat 50) (PredictionMarketModel_init [0.83; 0.53])
    = Some model
    /\ volumes model = repeat 0%nat 50.
Proof.
  destruct (first_50_steps_trade_nothing [0.83; 0.53] (repeat [0; 1]%nat 50))
    as (model & Hr & Hvol & _).
  - apply Forall_forall. intros o Ho. apply repeat_spec in Ho. subst o.
    apply Permutation_refl.
  - rewrite repeat_length. lia.
  - exists model. split; [exact Hr|].
    rewrite repeat_length in Hvol. exact Hvol.
Defined.

(** ** The book in every reachable state *)

Lemma init_ids (draws : list Q) :
  map unique_id (schedule (PredictionMarketModel_init draws))
  = seq 0 (length draws).
Proof.
  unfold PredictionMarketModel_init.
  rewrite create_agents_closed by (simpl; intros k []).
  simpl. apply new_agents_ids.
Qed.

Lemma reachable_ids (draws : list Q) (model : PredictionMarketModel) :
  reachable draws model ->
  map unique_id (schedule model) = seq 0 (length draws).
Proof.
  intro Hr. rewrite <- init_ids.
  pose proof (reachable_beliefs _ _ Hr) as Hb. unfold beliefs in Hb.
  apply (f_equal (map fst)) in Hb. rewrite !map_map in Hb. exact Hb.
Qed.

Lemma keys_of_agents (quote : PredictionAgent -> Q) (d : OrderedDict)
  (agents : list PredictionAgent) :
  quotes_of quote d agents -> incl (keys d) (map unique_id agents).
Proof.
  intros Hq k Hk. apply in_map_iff in Hk. destruct Hk as ([k' v] & <- & Hin).
  destruct (Hq k' v Hin) as (a & Ha & <- & _). simpl.
  apply in_map. exact Ha.
Qed.

(** X11. In every reachable state the bidders are in ascending order of
    price and the askers in descending order; the keys of both are keys
    of agents, none twice, so that neither dict holds more pairs than
    there are agents; and the agents are those of the keys [0 .. N-1] the
    model was constructed with. *)
Theorem book_always_ranked (draws : list Q) (model : PredictionMarketModel) :
  reachable draws model ->
  StronglySorted (fun x y => snd x <= snd y) (bidders model)
  /\ StronglySorted (fun x y => snd y <= snd x) (askers model)
  /\ map unique_id (schedule model) = seq 0 (length draws)
  /\ incl (keys (bidders model)) (seq 0 (length draws))
  /\ incl (keys (askers model)) (seq 0 (length draws))
  /\ NoDup (keys (bidders model)) /\ NoDup (keys (askers model))
  /\ (length (bidders model) <= length draws)%nat
  /\ (length (askers model) <= length draws)%nat.
Proof.
  intro Hr. pose proof (reachable_book_ok _ _ Hr) as Hok.
  pose proof (reachable_ids _ _ Hr) as Hids.
  pose proof (keys_of_agents _ _ _ (ok_bid_quotes _ Hok)) as Hkb.
  pose proof (keys_of_agents _ _ _ (ok_ask_quotes _ Hok)) as Hka.
  rewrite Hids in Hkb, Hka.
  split; [|split; [|split; [|split; [|split; [|split; [|split; [|split]]]]]]].
  - eapply StronglySorted_ext; [|apply (ok_bid_sorted _ Hok)].
    intros x y. apply in_order_ascending.
  - eapply StronglySorted_ext; [|apply (ok_ask_sorted _ Hok)].
    intros x y. apply in_order_descending.
  - exact Hids.
  - exact Hkb.
  - exact Hka.
  - apply (ok_bid_keys _ Hok).
  - apply (ok_ask_keys _ Hok).
  - pose proof (NoDup_incl_length (ok_bid_keys _ Hok) Hkb) as Hlen.
    unfold keys in Hlen. rewrite length_map, length_seq in Hlen. exact Hlen.
  - pose proof (NoDup_incl_length (ok_ask_keys _ Hok) Hka) as Hlen.
    unfold keys in Hlen. rewrite length_map, length_seq in Hlen. exact Hlen.
Qed.

(** The book of the market of beliefs 0.83 and 0.53 as constructed. *)
Lemma book_always_ranked_witness :
  StronglySorted (fun x y => snd x <= snd y) (bidders market_83_53)
  /\ StronglySorted (fun x y => snd y <= snd x) (askers market_83_53).
Proof.
  destruct (book_always_ranked [0.83; 0.53] market_83_53 (reach_init _))
    as (Hb & Ha & _).
  split; assumption.
Defined.

(** ** A trade takes the best quote, of another agent *)

Lemma last_is_best (before : Q -> Q -> bool) (rest : OrderedDict)
  (x : nat * Q) :
  StronglySorted (in_order before) (rest ++ [x]) ->
  forall y, In y (rest ++ [x]) -> y = x \/ in_order before y x.
Proof.
  intros Hs y Hy. apply in_app_or in Hy. destruct Hy as [Hy|[<-|[]]].
  - right. apply sorted_prefix in Hs. destruct Hs as [_ Hall].
    rewrite Forall_forall in Hall. apply Hall. exact Hy.
  - left. reflexivity.
Qed.

(** X12. In a well-formed book, as every reachable state has, a buy
    attempt that trades takes the last pair of the askers: it is the ask
    of another agent, it is at most the buyer's bid and at most every ask
    in the book, and it leaves the askers; the seller itself is not
    touched, it still has the ask that was taken.  A sell attempt that
    trades takes, in the same way, the highest bid of the book, the bid of
    another agent. *)
Theorem trade_takes_best_of_other
  (model : PredictionMarketModel) (self : PredictionAgent)
  (r : PredictionAgent * PredictionMarketModel) :
  book_ok model -> In self (schedule model) ->
  (buy self model = Some r -> volume (snd r) = S (volume model) ->
   exists rest seller,
     askers model = rest ++ [(unique_id seller, ask seller)]
     /\ askers (snd r) = rest
     /\ In seller (schedule model) /\ In seller (schedule (commit r))
     /\ unique_id seller <> unique_id self
     /\ ask seller <= bid self
     /\ (forall k a, In (k, a) (askers model) -> ask seller <= a))
  /\ (sell self model = Some r -> volume (snd r) = S (volume model) ->
      exists rest buyer,
        bidders model = rest ++ [(unique_id buyer, bid buyer)]
        /\ bidders (snd r) = rest
        /\ In buyer (schedule model) /\ In buyer (schedule (commit r))
        /\ unique_id buyer <> unique_id self
        /\ ask self <= bid buyer
        /\ (forall k b, In (k, b) (bidders model) -> b <= bid buyer)).
Proof.
  intros Hok Hin.
  assert (Hapart : bid self < ask self).
  { pose proof (ok_agents _ Hok) as Hag. rewrite Forall_forall in Hag.
    apply agent_ok_apart, Hag, Hin. }
  split; intros Hact Hvol.
  - destruct (buy_cases self model (ok_ask_keys _ Hok))
      as [[_ E]|[(rest & [k a] & Hl & Hx & E)|(rest & x & _ & _ & E)]];
      rewrite E in Hact; injection Hact as <-; simpl in Hvol; try lia.
    destruct (ok_ask_quotes _ Hok k a) as (seller & Hs & Hk & Hq).
    { rewrite Hl. apply in_or_app. right. left. reflexivity. }
    subst k a. simpl in Hx.
    assert (Hne : unique_id seller <> unique_id self).
    { intro Heq.
      assert (seller = self)
        by (eapply same_id_same_agent; eauto; apply (ok_ids _ Hok)).
      subst seller. lra. }
    exists rest, seller. split; [exact Hl|]. split; [reflexivity|].
    split; [exact Hs|]. split.
    { simpl. apply In_store_agent_other; assumption. }
    split; [exact Hne|]. split; [exact Hx|].
    intros k a Hka. pose proof (ok_ask_sorted _ Hok) as Hsorted.
    rewrite Hl in Hsorted, Hka.
    destruct (last_is_best _ _ _ Hsorted _ Hka) as [Heq|Hord].
    + injection Heq as _ ->. lra.
    + apply in_order_descending in Hord. exact Hord.
  - destruct (sell_cases self model (ok_bid_keys _ Hok))
      as [[_ E]|[(rest & [k b] & Hl & Hx & E)|(rest & x & _ & _ & E)]];
      rewrite E in Hact; injection Hact as <-; simpl in Hvol; try lia.
    destruct (ok_bid_quotes _ Hok k b) as (buyer & Hs & Hk & Hq).
    { rewrite Hl. apply in_or_app. right. left. reflexivity. }
    subst k b. simpl in Hx.
    assert (Hne : unique_id buyer <> unique_id self).
    { intro Heq.
      assert (buyer = self)
        by (eapply same_id_same_agent; eauto; apply (ok_ids _ Hok)).
      subst buyer. lra. }
    exists rest, buyer. split; [exact Hl|]. split; [reflexivity|].
    split; [exact Hs|]. split.
    { simpl. apply In_store_agent_other; assumption. }
    split; [exact Hne|]. split; [exact Hx|].
    intros k b Hkb. pose proof (ok_bid_sorted _ Hok) as Hsorted.
    rewrite Hl in Hsorted, Hkb.
    destruct (last_is_best _ _ _ Hsorted _ Hkb) as [Heq|Hord].
    + injection Heq as _ ->. lra.
    + apply in_order_ascending in Hord. exact Hord.
Qed.

(** In the market of two with bid 0.50 against ask 0.50, agent 0 buys the
    ask of agent 1. *)
Lemma trade_takes_best_of_other_witness :
  exists r rest seller,
    buy (mkAgent 0 (f64 0.90) (f64 0.50) (f64 0.91)) market_of_two = Some r
    /\ askers market_of_two = rest ++ [(unique_id seller, ask seller)]
    /\ askers (snd r) = rest
    /\ unique_id seller <> 0%nat.
Proof.
  destruct (buy_total (mkAgent 0 (f64 0.90) (f64 0.50) (f64 0.91))
              market_of_two) as [r Hr].
  assert (Hvol : option_map (fun r => volume (snd r))
                   (buy (mkAgent 0 (f64 0.90) (f64 0.50) (f64 0.91))
                        market_of_two)
                 = Some 1%nat) by (vm_compute; reflexivity).
  rewrite Hr in Hvol. cbn [option_map] in Hvol.
  assert (Hvol' : volume (snd r) = 1%nat) by congruence.
  destruct (trade_takes_best_of_other market_of_two
              (mkAgent 0 (f64 0.90) (f64 0.50) (f64 0.91)) r
              book_ok_market_of_two)
    as [Hbuy _].
  - left. reflexivity.
  - destruct (Hbuy Hr Hvol') as (rest & seller & Hl & Hrest & _ & _ & Hne & _).
    exists r, rest, seller. repeat split; assumption.
Defined.

(** ** Markets whose beliefs are too close to trade *)

Lemma In_setitem_other (k k' : nat) (v v' : Q) (d : OrderedDict) :
  In (k, v) d -> k <> k' -> In (k, v) (setitem k' v' d).
Proof.
  induction d as [|[k0 v0] d IH]; simpl; intros Hin Hne; [contradiction|].
  destruct (Nat.eqb_spec k0 k') as [->|E].
  - destruct Hin as [Hin|Hin]; [injection Hin as -> ->; congruence|].
    right. exact Hin.
  - destruct Hin as [Hin|Hin]; [left; exact Hin|]. right. apply IH; assumption.
Qed.

Lemma reachable_close (draws : list Q) (model : PredictionMarketModel) :
  reachable draws model ->
  close_beliefs (PredictionMarketModel_init draws) -> close_beliefs model.
Proof.
  intros Hr Hc a b Ha Hb.
  pose proof (reachable_beliefs _ _ Hr) as Hbel.
  assert (Hfind : forall c, In c (schedule model) ->
            exists c0, In c0 (schedule (PredictionMarketModel_init draws))
                       /\ prob c0 = prob c).
  { intros c Hc'.
    assert (Hin : In (unique_id c, prob c) (beliefs model))
      by (unfold beliefs; apply in_map_iff; exists c; split;
          [reflexivity | exact Hc']).
    rewrite Hbel in Hin. unfold beliefs in Hin. apply in_map_iff in Hin.
    destruct Hin as (c0 & E & Hc0). injection E as _ Hp.
    exists c0. split; assumption. }
  destruct (Hfind a Ha) as (a0 & Ha0 & <-).
  destruct (Hfind b Hb) as (b0 & Hb0 & <-).
  apply Hc; assumption.
Qed.

(** With close beliefs an attempt never trades, and the agents stay
    posted. *)
Lemma buy_close (model : PredictionMarketModel) (self : PredictionAgent)
  (r : PredictionAgent * PredictionMarketModel) :
  book_ok model -> close_beliefs model -> posted model ->
  In self (schedule model) -> buy self model = Some r ->
  volume (snd r) = volume model /\ posted (commit r).
Proof.
  intros Hok Hclose Hposted Hin Hbuy.
  pose proof (ok_agents _ Hok) as Hag. rewrite Forall_forall in Hag.
  destruct (buy_cases self model (ok_ask_keys _ Hok))
    as [[_ E]|[(rest & x & Hl & Hx & _)|(rest & x & _ & _ & E)]].
  - rewrite E in Hbuy. injection Hbuy as <-.
    rewrite commit_same; [|apply (ok_ids _ Hok) | exact Hin].
    split; [reflexivity | exact Hposted].
  - exfalso.
    destruct (ok_ask_quotes _ Hok (fst x) (snd x)) as (a & Ha & _ & Hq).
    { rewrite Hl. apply in_or_app. right. left. destruct x; reflexivity. }
    destruct (Hag a Ha) as [_ [_ [Hlo _]]].
    destruct (Hag self Hin) as [_ [[_ Hhi] _]].
    pose proof (Hclose self a Hin Ha). rewrite Hq in Hlo. lra.
  - rewrite E in Hbuy. injection Hbuy as <-.
    split; [reflexivity|].
    intros a Ha. simpl in Ha. simpl bidders. simpl askers.
    destruct (In_store_agent_inv _ _ _ Ha) as [->|[Hold Hne]].
    + split.
      * eapply Permutation_in;
          [apply Permutation_sym, sorted_by_perm | apply In_setitem_same].
      * apply (Hposted self Hin).
    + destruct (Hposted a Hold) as [H1 H2]. split; [|exact H2].
      eapply Permutation_in; [apply Permutation_sym, sorted_by_perm|].
      apply In_setitem_other; assumption.
Qed.

Lemma sell_close (model : PredictionMarketModel) (self : PredictionAgent)
  (r : PredictionAgent * PredictionMarketModel) :
  book_ok model -> close_beliefs model -> posted model ->
  In self (schedule model) -> sell self model = Some r ->
  volume (snd r) = volume model /\ posted (commit r).
Proof.
  intros Hok Hclose Hposted Hin Hsell.
  pose proof (ok_agents _ Hok) as Hag. rewrite Forall_forall in Hag.
  destruct (sell_cases self model (ok_bid_keys _ Hok))
    as [[_ E]|[(rest & x & Hl & Hx & _)|(rest & x & _ & _ & E)]].
  - rewrite E in Hsell. injection Hsell as <-.
    rewrite commit_same; [|apply (ok_ids _ Hok) | exact Hin].
    split; [reflexivity | exact Hposted].
  - exfalso.
    destruct (ok_bid_quotes _ Hok (fst x) (snd x)) as (a & Ha & _ & Hq).
    { rewrite Hl. apply in_or_app. right. left. destruct x; reflexivity. }
    destruct (Hag a Ha) as [_ [[_ Hhi] _]].
    destruct (Hag self Hin) as [_ [_ [Hlo _]]].
    pose proof (Hclose a self Ha Hin). rewrite Hq in Hhi. lra.
  - rewrite E in Hsell. injection Hsell as <-.
    split; [reflexivity|].
    intros a Ha. simpl in Ha. simpl bidders. simpl askers.
    destruct (In_store_agent_inv _ _ _ Ha) as [->|[Hold Hne]].
    + split.
      * apply (Hposted self Hin).
      * eapply Permutation_in;
          [apply Permutation_sym, sorted_by_perm | apply In_setitem_same].
    + destruct (Hposted a Hold) as [H1 H2]. split; [exact H1|].
      eapply Permutation_in; [apply Permutation_sym, sorted_by_perm|].
      apply In_setitem_other; assumption.
Qed.

Section CloseBeliefs.

Variable draws : list Q.
Hypothesis close : close_beliefs (PredictionMarketModel_init draws).

Lemma agent_step_close (model : PredictionMarketModel)
  (self : PredictionAgent) (r : PredictionAgent * PredictionMarketModel) :
  reachable draws model -> posted model -> In self (schedule model) ->
  agent_step self model = Some r ->
  reachable draws (commit r) /\ posted (commit r)
  /\ volume (commit r) = volume model.
Proof.
  intros Hr Hp Hin Hstep.
  destruct (agent_step_commit _ _ _ Hin Hstep)
    as (r1 & r2 & Hbuy & Hid1 & Hin1 & Hsell & Hc).
  pose proof (reach_buy draws model self r1 Hr Hin Hbuy) as Hr1.
  destruct (buy_close model self r1 (reachable_book_ok _ _ Hr)
              (reachable_close _ _ Hr close) Hp Hin Hbuy) as [Hv1 Hp1].
  pose proof (reach_sell draws _ (fst r1) r2 Hr1 Hin1 Hsell) as Hr2.
  destruct (sell_close (commit r1) (fst r1) r2 (reachable_book_ok _ _ Hr1)
              (reachable_close _ _ Hr1 close) Hp1 Hin1 Hsell) as [Hv2 Hp2].
  rewrite <- Hc. split; [exact Hr2|]. split; [exact Hp2|].
  simpl in *. congruence.
Qed.

Lemma schedule_step_close (order : list nat) :
  forall model model',
    reachable draws model -> posted model ->
    schedule_step order model = Some model' ->
    reachable draws model' /\ posted model'
    /\ volume model' = volume model.
Proof.
  induction order as [|uid order IH]; simpl; intros model model' Hr Hp Hs.
  - injection Hs as <-.
    split; [exact Hr|]. split; [exact Hp | reflexivity].
  - destruct (find_agent uid (schedule model)) as [self|] eqn:Hf;
      [|discriminate].
    cbn [bind] in Hs.
    destruct (agent_step self model) as [r|] eqn:Ha; [|discriminate].
    cbn [bind] in Hs. destruct (find_agent_In _ _ _ Hf) as [Hin _].
    destruct (agent_step_close model self r Hr Hp Hin Ha)
      as (Hr1 & Hp1 & Hv1).
    destruct (IH _ _ Hr1 Hp1 Hs) as (Hr2 & Hp2 & Hv2).
    split; [exact Hr2|]. split; [exact Hp2 | congruence].
Qed.

Lemma step_close (order : list nat) (model model' : PredictionMarketModel) :
  reachable draws model -> posted model ->
  step order model = Some model' ->
  reachable draws model' /\ posted model'
  /\ exists row,
       datacollector model' = datacollector model ++ [row]
       /\ rep_volume row = 0%nat.
Proof.
  intros Hr Hp Hs. pose proof (step_reachable _ _ _ _ Hr Hs) as Hr'.
  unfold step in Hs.
  destruct (schedule_step order (set_volume model 0)) as [m1|] eqn:E;
    [|discriminate].
  cbn [bind] in Hs.
  destruct (schedule_step_close order (set_volume model 0) m1
              (reach_reset _ _ Hr) Hp E) as (Hr1 & Hp1 & Hv1).
  destruct (schedule_step_keeps _ _ _ E) as [_ Hd].
  pose proof (reachable_book_ok _ _ Hr1) as Hok1.
  rewrite (collect_spec _ (ok_bid_keys _ Hok1) (ok_ask_keys _ Hok1)) in Hs.
  injection Hs as <-. split; [exact Hr'|]. split; [exact Hp1|].
  eexists. split; [simpl; rewrite Hd; reflexivity|]. simpl. exact Hv1.
Qed.

Lemma run_close (orders : list (list nat)) :
  forall model model',
    reachable draws model -> posted model ->
    run_model orders model = Some model' ->
    posted model'
    /\ exists rows,
         datacollector model' = datacollector model ++ rows
         /\ map rep_volume rows = repeat 0%nat (length orders).
Proof.
  induction orders as [|o orders IH]; simpl; intros model model' Hr Hp Hrun.
  - injection Hrun as <-. split; [exact Hp|].
    exists []. rewrite app_nil_r. split; reflexivity.
  - destruct (step o model) as [m1|] eqn:Hs; [|discriminate].
    cbn [bind] in Hrun.
    destruct (step_close o model m1 Hr Hp Hs) as (Hr1 & Hp1 & row & Hrow & Hrv).
    destruct (IH m1 model' Hr1 Hp1 Hrun) as (Hp2 & rows & Hrows & Hvols).
    split; [exact Hp2|]. exists (row :: rows). split.
    + rewrite Hrows, Hrow, <- app_assoc. reflexivity.
    + simpl. rewrite Hrv, Hvols. reflexivity.
Qed.

End CloseBeliefs.

Lemma init_posted (draws : list Q) :
  posted (PredictionMarketModel_init draws).
Proof.
  intros a Ha.
  apply (create_agents_posted draws 0
           (mkModel (length draws) [] [] [] [] 0)); try exact Ha.
  - constructor; simpl; try constructor; intros k v [].
  - repeat split; simpl in *; contradiction.
  - intros b [].
Qed.

(** Beliefs less than 0.0199 apart are close: so are two beliefs that
    are the same or next to each other among 0.01, 0.02, ..., 0.99. *)
Lemma close_beliefs_within_two_ticks (m : PredictionMarketModel) :
  Forall agent_ok (schedule m) ->
  (forall a b, In a (schedule m) -> In b (schedule m) ->
     prob a - prob b <= 0.0199) ->
  close_beliefs m.
Proof.
  intros Hag Hnear a b Ha Hb. rewrite Forall_forall in Hag.
  pose proof (Hag a Ha) as [[? ?] _]. pose proof (Hag b Hb) as [[? ?] _].
  pose proof (Hnear a b Ha Hb).
  pose proof f64_cent as [? ?]. pose proof f64_99 as [? ?].
  f64_bound (0.01). f64_bound (prob a - f64 0.01).
  f64_bound (prob b + f64 0.01). unfold eps in *. lra.
Qed.

(** X13. A market never trades when the beliefs of its agents are so
    close that the highest bid any of them may post, [prob - 0.01], is
    under the lowest ask any of them may post, [prob + 0.01], as the floats
    give them: whatever the visiting orders and the number of steps, every
    step reports volume 0, and every agent keeps exactly one pair in the
    bidders and one in the askers, its current quotes.  A market of one
    agent, a market of agents of one belief and a market of beliefs one
    hundredth apart are of this kind. *)
Theorem close_beliefs_never_trade (draws : list Q)
  (orders : list (list nat)) (model : PredictionMarketModel) :
  close_beliefs (PredictionMarketModel_init draws) ->
  run_model orders (PredictionMarketModel_init draws) = Some model ->
  volumes model = repeat 0%nat (length orders)
  /\ (forall a, In a (schedule model) ->
        In (unique_id a, bid a) (bidders model)
        /\ In (unique_id a, ask a) (askers model)
        /\ entries (unique_id a) (bidders model) = 1%nat
        /\ entries (unique_id a) (askers model) = 1%nat).
Proof.
  intros Hclose Hrun.
  destruct (run_close draws Hclose orders _ model (reach_init _)
              (init_posted draws) Hrun) as (Hp & rows & Hrows & Hvols).
  pose proof (run_model_reachable _ _ _ _ (reach_init draws) Hrun) as Hr.
  pose proof (reachable_book_ok _ _ Hr) as Hok.
  split.
  - unfold volumes. rewrite Hrows.
    replace (datacollector (PredictionMarketModel_init draws))
      with (@nil Report); [exact Hvols|].
    unfold PredictionMarketModel_init.
    rewrite create_agents_closed by (simpl; intros k []). reflexivity.
  - intros a Ha. destruct (Hp a Ha) as [H1 H2].
    split; [exact H1|]. split; [exact H2|]. split.
    + eapply entries_present; [apply (ok_bid_keys _ Hok) | exact H1].
    + eapply entries_present; [apply (ok_ask_keys _ Hok) | exact H2].
Qed.

(** Sixty steps of the market of beliefs 0.48 and 0.46: as floats
    0.48 - 0.01 is under 0.46 + 0.01. *)
Lemma close_beliefs_never_trade_witness :
  exists model,
    run_model (repeat [1; 0]%nat 60) (PredictionMarketModel_init [0.48; 0.46])
    = Some model
    /\ volumes model = repeat 0%nat 60.
Proof.
  destruct (run_model_total (repeat [1; 0]%nat 60)
              (PredictionMarketModel_init [0.48; 0.46]))
    as (model & Hr & _).
  { apply Forall_forall. intros o Ho. apply repeat_spec in Ho. subst o.
    apply perm_swap. }
  exists model. split; [exact Hr|].
  destruct (close_beliefs_never_trade [0.48; 0.46] (repeat [1; 0]%nat 60)
              model) as [Hvol _].
  - intros a b [<-|[<-|[]]] [<-|[<-|[]]]; vm_compute; reflexivity.
  - exact Hr.
  - rewrite repeat_length in Hvol. exact Hvol.
Defined.
